(** * ictbot: a shallow embedding of the decision-and-execution engine

    The development follows [src/ictbot.py].  Python floats are modelled by
    exact rationals ([Q]): comparisons, [max]/[min], [math.floor],
    [math.ceil] and [round] keep their meaning, binary rounding error is left
    out.  Properties that would depend on that error (the exact value of the
    floor of a quotient, or of a running sum) are not stated: what is proved
    rests on the comparisons the source itself evaluates, on order and on
    membership.  Python integers are [Z].  The exchange ([BinanceUM]) is a state
    machine whose replies are driven by a fault script, so that every
    interleaving of acknowledgements, rejections and lost messages is a
    possible run. *)

From Stdlib Require Import ZArith QArith Qround Qabs Lqa Lia List String Ascii Bool Sorted
  Permutation.
From stdpp Require Import gmap strings.
Import ListNotations.

Local Open Scope Q_scope.

(** ** Numeric helpers *)

Module Num.

(** [EPS = 1e-9] *)
Definition EPS : Q := 1 # 1000000000.

Definition Qltb (x y : Q) : bool := negb (Qle_bool y x).

(** Python [max(a, b)]: the first argument wins unless the second is
    strictly larger; [min(a, b)] dually. *)
Definition pmax (a b : Q) : Q := if Qltb a b then b else a.
Definition pmin (a b : Q) : Q := if Qltb b a then b else a.

Definition Zmaxp (a b : Z) : Z := if (a <? b)%Z then b else a.
Definition Zminp (a b : Z) : Z := if (b <? a)%Z then b else a.

(** [math.floor(x)] and [math.ceil(x)] as integers *)
Definition floor (x : Q) : Z := Qfloor x.
Definition ceil (x : Q) : Z := Qceiling x.

(** [int(x)] on a float truncates toward zero. *)
Definition trunc (x : Q) : Z :=
  if Qle_bool 0 x then Qfloor x else Qceiling x.

(** nearest integer, ties to even: the rule of Python's [round] *)
Definition round_half_even (x : Q) : Z :=
  let f := Qfloor x in
  match Qcompare (x - inject_Z f) (1 # 2) with
  | Lt => f
  | Gt => (f + 1)%Z
  | Eq => if Z.even f then f else (f + 1)%Z
  end.

Definition pow10 (d : Z) : Q := inject_Z (10 ^ d).

(** [round(x, dec)] for [dec >= 0] *)
Definition round (x : Q) (dec : Z) : Q :=
  Qred (inject_Z (round_half_even (x * pow10 dec)) / pow10 dec).

Definition is_integral (x : Q) : bool := Qeq_bool (inject_Z (Qfloor x)) x.

(** [clamp(x, lo, hi) = max(lo, min(hi, x))] *)
Definition clamp (x lo hi : Q) : Q := pmax lo (pmin hi x).

End Num.

Import Num.

(** ** Strings: the ASCII fragment of [str.upper], [str.lower], [str.strip] *)

Module Str.

Definition upper_ascii (c : ascii) : ascii :=
  let n := nat_of_ascii c in
  if ((97 <=? n) && (n <=? 122))%nat then ascii_of_nat (n - 32) else c.

Definition lower_ascii (c : ascii) : ascii :=
  let n := nat_of_ascii c in
  if ((65 <=? n) && (n <=? 90))%nat then ascii_of_nat (n + 32) else c.

Fixpoint map_string (f : ascii -> ascii) (s : string) : string :=
  match s with
  | EmptyString => EmptyString
  | String c r => String (f c) (map_string f r)
  end.

Definition upper : string -> string := map_string upper_ascii.
Definition lower : string -> string := map_string lower_ascii.

Definition is_space (c : ascii) : bool :=
  let n := nat_of_ascii c in
  ((n =? 32) || ((9 <=? n) && (n <=? 13)) || ((28 <=? n) && (n <=? 31)))%nat.

Fixpoint lstrip (s : string) : string :=
  match s with
  | String c r => if is_space c then lstrip r else s
  | EmptyString => EmptyString
  end.

Fixpoint rev_onto (s acc : string) : string :=
  match s with
  | EmptyString => acc
  | String c r => rev_onto r (String c acc)
  end.

Definition srev (s : string) : string := rev_onto s EmptyString.

Definition strip (s : string) : string := srev (lstrip (srev (lstrip s))).

(** [s[:n]] *)
Fixpoint take (n : nat) (s : string) : string :=
  match n, s with
  | S k, String c r => String c (take k r)
  | _, _ => EmptyString
  end.

(** [s.endswith(suffix)] *)
Definition endswith (s suffix : string) : bool :=
  String.prefix (srev suffix) (srev s).

Definition eqb (a b : string) : bool := String.eqb a b.

End Str.

(** ** Data model *)

(** [side] is ["long"] or ["short"]: [process_trade_opportunities] drops any
    other value before a candidate reaches the functions below. *)
Inductive Side : Type := long | short.

Definition Side_eqb (a b : Side) : bool :=
  match a, b with
  | long, long | short, short => true
  | _, _ => false
  end.

(** One closed candle, [[time, open, high, low, close, volume]]. *)
Record Kline : Type := mkKline {
  k_time : Z;
  k_open : Q;
  k_high : Q;
  k_low : Q;
  k_close : Q;
  k_volume : Q
}.

(** The fields of [Config] read by the modelled functions. *)
Record Config : Type := mkConfig {
  symbol : string;
  (* risk and limits *)
  max_trades_per_day : Z;
  max_daily_loss_pct : Q;
  (* sweep and imbalance scan *)
  sweep_t_reject_max_bars : Z;
  fvg_min_ticks : Z;
  fvg_gap_use_bps : bool;
  fvg_gap_min_bps : Q;
  fvg_gap_relax_bps : Q;
  fvg_fill_rule : string;
  fvg_fill_require_body : bool;
  fvg_fill_min_penetration_atr : Q;
  fvg_fill_min_consecutive : Z;
  (* level pools *)
  enable_pools_eqh_eql : bool;
  enable_pools_sessions : bool;
  use_session_london : bool;
  use_session_newyork : bool;
  use_opening_range : bool;
  use_rolling_range : bool;
  rolling_range_window : Z;
  rolling_range_min_touches : Z;
  rolling_range_atr_frac_max : Q;
  use_fvg_edges_as_pools : bool;
  fvg_pool_age_bars : Z;
  use_big_figures : bool;
  figure_increment : Q;
  include_quarter_figs : bool;
  pool_cluster_bps : Q;
  pool_topk_per_side : Z;
  eq_spread_ticks : Z;
  eq_min_hits : Z;
  eq_lookback : Z;
  w_eq : Q;
  w_sess : Q;
  w_orb : Q;
  w_rng : Q;
  w_fvg : Q;
  w_fig : Q;
  (* candidate score *)
  displacement_w : Q;
  score_cand_base_offset : Q;
  score_cand_fvgq_w : Q;
  fvgq_gap_w : Q;
  fvgq_vol_w : Q;
  fvgq_gap_norm : Q;
  fvgq_vol_shift : Q;
  fvgq_vol_scale : Q;
  (* trailing *)
  trail_activation_R : Q;
  trail_atr_k : Q;
  trail_min_tick_improve : Z;
  position_check_before_trail : bool;
  working_type : string;
  (* funding *)
  funding_aware_enable : bool;
  funding_window_min : Z;
  funding_window_symmetric : bool;
  funding_block_near : bool;
  funding_penalty_score : Q;
  funding_high_abs_bps : Q;
  funding_risk_mult_high : Q
}.

(** [Config()] with the defaults of the source (no environment override) *)
Definition Config0 : Config := {|
  symbol := "BTCUSDT";
  max_trades_per_day := 6;
  max_daily_loss_pct := 3 # 100;
  sweep_t_reject_max_bars := 5;
  fvg_min_ticks := 2;
  fvg_gap_use_bps := false;
  fvg_gap_min_bps := 8;
  fvg_gap_relax_bps := 0;
  fvg_fill_rule := "touch";
  fvg_fill_require_body := false;
  fvg_fill_min_penetration_atr := 0;
  fvg_fill_min_consecutive := 1;
  enable_pools_eqh_eql := true;
  enable_pools_sessions := true;
  use_session_london := true;
  use_session_newyork := true;
  use_opening_range := true;
  use_rolling_range := true;
  rolling_range_window := 60;
  rolling_range_min_touches := 3;
  rolling_range_atr_frac_max := 60 # 100;
  use_fvg_edges_as_pools := true;
  fvg_pool_age_bars := 40;
  use_big_figures := false;
  figure_increment := 100;
  include_quarter_figs := false;
  pool_cluster_bps := 8;
  pool_topk_per_side := 4;
  eq_spread_ticks := 2;
  eq_min_hits := 2;
  eq_lookback := 120;
  w_eq := 55 # 100;
  w_sess := 60 # 100;
  w_orb := 45 # 100;
  w_rng := 45 # 100;
  w_fvg := 35 # 100;
  w_fig := 20 # 100;
  displacement_w := 5 # 100;
  score_cand_base_offset := 1 # 2;
  score_cand_fvgq_w := 35 # 100;
  fvgq_gap_w := 60 # 100;
  fvgq_vol_w := 40 # 100;
  fvgq_gap_norm := 2;
  fvgq_vol_shift := 2;
  fvgq_vol_scale := 4;
  trail_activation_R := 3 # 2;
  trail_atr_k := 3 # 4;
  trail_min_tick_improve := 1;
  position_check_before_trail := true;
  working_type := "MARK_PRICE";
  funding_aware_enable := true;
  funding_window_min := 7;
  funding_window_symmetric := true;
  funding_block_near := true;
  funding_penalty_score := 15 # 100;
  funding_high_abs_bps := 10;
  funding_risk_mult_high := 6 # 10
|}.

(** Field updates of [Config] (environment overrides) *)
Module Cfg.

(** the pool toggles, the figure increment and the cap *)
Definition pools (c : Config) (eqh sess orb rng edges figs quarters : bool) (inc : Q) (topk : Z) : Config := {|
  symbol := symbol c;
  max_trades_per_day := max_trades_per_day c;
  max_daily_loss_pct := max_daily_loss_pct c;
  sweep_t_reject_max_bars := sweep_t_reject_max_bars c;
  fvg_min_ticks := fvg_min_ticks c;
  fvg_gap_use_bps := fvg_gap_use_bps c;
  fvg_gap_min_bps := fvg_gap_min_bps c;
  fvg_gap_relax_bps := fvg_gap_relax_bps c;
  fvg_fill_rule := fvg_fill_rule c;
  fvg_fill_require_body := fvg_fill_require_body c;
  fvg_fill_min_penetration_atr := fvg_fill_min_penetration_atr c;
  fvg_fill_min_consecutive := fvg_fill_min_consecutive c;
  enable_pools_eqh_eql := eqh;
  enable_pools_sessions := sess;
  use_session_london := use_session_london c;
  use_session_newyork := use_session_newyork c;
  use_opening_range := orb;
  use_rolling_range := rng;
  rolling_range_window := rolling_range_window c;
  rolling_range_min_touches := rolling_range_min_touches c;
  rolling_range_atr_frac_max := rolling_range_atr_frac_max c;
  use_fvg_edges_as_pools := edges;
  fvg_pool_age_bars := fvg_pool_age_bars c;
  use_big_figures := figs;
  figure_increment := inc;
  include_quarter_figs := quarters;
  pool_cluster_bps := pool_cluster_bps c;
  pool_topk_per_side := topk;
  eq_spread_ticks := eq_spread_ticks c;
  eq_min_hits := eq_min_hits c;
  eq_lookback := eq_lookback c;
  w_eq := w_eq c;
  w_sess := w_sess c;
  w_orb := w_orb c;
  w_rng := w_rng c;
  w_fvg := w_fvg c;
  w_fig := w_fig c;
  displacement_w := displacement_w c;
  score_cand_base_offset := score_cand_base_offset c;
  score_cand_fvgq_w := score_cand_fvgq_w c;
  fvgq_gap_w := fvgq_gap_w c;
  fvgq_vol_w := fvgq_vol_w c;
  fvgq_gap_norm := fvgq_gap_norm c;
  fvgq_vol_shift := fvgq_vol_shift c;
  fvgq_vol_scale := fvgq_vol_scale c;
  trail_activation_R := trail_activation_R c;
  trail_atr_k := trail_atr_k c;
  trail_min_tick_improve := trail_min_tick_improve c;
  position_check_before_trail := position_check_before_trail c;
  working_type := working_type c;
  funding_aware_enable := funding_aware_enable c;
  funding_window_min := funding_window_min c;
  funding_window_symmetric := funding_window_symmetric c;
  funding_block_near := funding_block_near c;
  funding_penalty_score := funding_penalty_score c;
  funding_high_abs_bps := funding_high_abs_bps c;
  funding_risk_mult_high := funding_risk_mult_high c
|}.

(** [BOT_POSCHK_TRAIL] *)
Definition trail_check (c : Config) (b : bool) : Config := {|
  symbol := symbol c;
  max_trades_per_day := max_trades_per_day c;
  max_daily_loss_pct := max_daily_loss_pct c;
  sweep_t_reject_max_bars := sweep_t_reject_max_bars c;
  fvg_min_ticks := fvg_min_ticks c;
  fvg_gap_use_bps := fvg_gap_use_bps c;
  fvg_gap_min_bps := fvg_gap_min_bps c;
  fvg_gap_relax_bps := fvg_gap_relax_bps c;
  fvg_fill_rule := fvg_fill_rule c;
  fvg_fill_require_body := fvg_fill_require_body c;
  fvg_fill_min_penetration_atr := fvg_fill_min_penetration_atr c;
  fvg_fill_min_consecutive := fvg_fill_min_consecutive c;
  enable_pools_eqh_eql := enable_pools_eqh_eql c;
  enable_pools_sessions := enable_pools_sessions c;
  use_session_london := use_session_london c;
  use_session_newyork := use_session_newyork c;
  use_opening_range := use_opening_range c;
  use_rolling_range := use_rolling_range c;
  rolling_range_window := rolling_range_window c;
  rolling_range_min_touches := rolling_range_min_touches c;
  rolling_range_atr_frac_max := rolling_range_atr_frac_max c;
  use_fvg_edges_as_pools := use_fvg_edges_as_pools c;
  fvg_pool_age_bars := fvg_pool_age_bars c;
  use_big_figures := use_big_figures c;
  figure_increment := figure_increment c;
  include_quarter_figs := include_quarter_figs c;
  pool_cluster_bps := pool_cluster_bps c;
  pool_topk_per_side := pool_topk_per_side c;
  eq_spread_ticks := eq_spread_ticks c;
  eq_min_hits := eq_min_hits c;
  eq_lookback := eq_lookback c;
  w_eq := w_eq c;
  w_sess := w_sess c;
  w_orb := w_orb c;
  w_rng := w_rng c;
  w_fvg := w_fvg c;
  w_fig := w_fig c;
  displacement_w := displacement_w c;
  score_cand_base_offset := score_cand_base_offset c;
  score_cand_fvgq_w := score_cand_fvgq_w c;
  fvgq_gap_w := fvgq_gap_w c;
  fvgq_vol_w := fvgq_vol_w c;
  fvgq_gap_norm := fvgq_gap_norm c;
  fvgq_vol_shift := fvgq_vol_shift c;
  fvgq_vol_scale := fvgq_vol_scale c;
  trail_activation_R := trail_activation_R c;
  trail_atr_k := trail_atr_k c;
  trail_min_tick_improve := trail_min_tick_improve c;
  position_check_before_trail := b;
  working_type := working_type c;
  funding_aware_enable := funding_aware_enable c;
  funding_window_min := funding_window_min c;
  funding_window_symmetric := funding_window_symmetric c;
  funding_block_near := funding_block_near c;
  funding_penalty_score := funding_penalty_score c;
  funding_high_abs_bps := funding_high_abs_bps c;
  funding_risk_mult_high := funding_risk_mult_high c
|}.

End Cfg.

(** The fields of [RunState] read or written by the modelled functions. *)
Record RunState : Type := mkRunState {
  kl_1m : list Kline;
  kl_5m : list Kline;
  last_market_ws_ts : Z;
  last_bid : option Q;
  last_ask : option Q;
  realized_today : Q;
  trades_today : Z;
  day_start_equity : Q;
  last_loss_server_ms : option Z;
  account_cr : gmap string Q;
  tick : Q;
  last_trailing_sl : option Q;
  last_trailing_side : option Side;
  last_trailing_client_id : option string;
  last_trailing_order_id : option Z;
  last_server_ms : option Z;
  last_balance_ts : Q
}.

(** [RunState()] with the dataclass defaults *)
Definition RunState0 : RunState := {|
  kl_1m := []; kl_5m := []; last_market_ws_ts := 0;
  last_bid := None; last_ask := None;
  realized_today := 0; trades_today := 0; day_start_equity := 0;
  last_loss_server_ms := None; account_cr := ∅;
  tick := 1 # 10;
  last_trailing_sl := None; last_trailing_side := None;
  last_trailing_client_id := None; last_trailing_order_id := None;
  last_server_ms := None; last_balance_ts := 0
|}.

(** Field updates of the mutable [RunState] object *)
Module Upd.

Definition buffers (st : RunState) (b1 b5 : list Kline) (ts : Z) : RunState := {|
  kl_1m := b1; kl_5m := b5; last_market_ws_ts := ts;
  last_bid := last_bid st; last_ask := last_ask st;
  realized_today := realized_today st; trades_today := trades_today st;
  day_start_equity := day_start_equity st;
  last_loss_server_ms := last_loss_server_ms st; account_cr := account_cr st;
  tick := tick st;
  last_trailing_sl := last_trailing_sl st;
  last_trailing_side := last_trailing_side st;
  last_trailing_client_id := last_trailing_client_id st;
  last_trailing_order_id := last_trailing_order_id st;
  last_server_ms := last_server_ms st; last_balance_ts := last_balance_ts st
|}.

Definition book_ticker (st : RunState) (b a : Q) (ts : Z) : RunState := {|
  kl_1m := kl_1m st; kl_5m := kl_5m st; last_market_ws_ts := ts;
  last_bid := Some b; last_ask := Some a;
  realized_today := realized_today st; trades_today := trades_today st;
  day_start_equity := day_start_equity st;
  last_loss_server_ms := last_loss_server_ms st; account_cr := account_cr st;
  tick := tick st;
  last_trailing_sl := last_trailing_sl st;
  last_trailing_side := last_trailing_side st;
  last_trailing_client_id := last_trailing_client_id st;
  last_trailing_order_id := last_trailing_order_id st;
  last_server_ms := last_server_ms st; last_balance_ts := last_balance_ts st
|}.

Definition pnl (st : RunState) (realized : Q) (loss_ms : option Z)
    (cr : gmap string Q) (bal_ts : Q) : RunState := {|
  kl_1m := kl_1m st; kl_5m := kl_5m st;
  last_market_ws_ts := last_market_ws_ts st;
  last_bid := last_bid st; last_ask := last_ask st;
  realized_today := realized; trades_today := trades_today st;
  day_start_equity := day_start_equity st;
  last_loss_server_ms := loss_ms; account_cr := cr;
  tick := tick st;
  last_trailing_sl := last_trailing_sl st;
  last_trailing_side := last_trailing_side st;
  last_trailing_client_id := last_trailing_client_id st;
  last_trailing_order_id := last_trailing_order_id st;
  last_server_ms := last_server_ms st; last_balance_ts := bal_ts
|}.

Definition trailing (st : RunState) (sl : option Q) (sd : option Side)
    (cid : option string) (oid : option Z) : RunState := {|
  kl_1m := kl_1m st; kl_5m := kl_5m st;
  last_market_ws_ts := last_market_ws_ts st;
  last_bid := last_bid st; last_ask := last_ask st;
  realized_today := realized_today st; trades_today := trades_today st;
  day_start_equity := day_start_equity st;
  last_loss_server_ms := last_loss_server_ms st; account_cr := account_cr st;
  tick := tick st;
  last_trailing_sl := sl; last_trailing_side := sd;
  last_trailing_client_id := cid; last_trailing_order_id := oid;
  last_server_ms := last_server_ms st; last_balance_ts := last_balance_ts st
|}.

End Upd.

(** ** Price helpers *)

Module Price.

(** [within_bps] and [bps_distance]: symmetric distance in basis points.
    Every modelled number is finite, so the [math.isfinite] guard of
    [within_bps] always passes. *)
Definition bps_distance (a b : Q) : Q :=
  let denom := pmax EPS ((Qabs a + Qabs b) / 2) in
  Qabs (a - b) / denom * 10000.

Definition within_bps (a b tol_bps : Q) : bool :=
  Qle_bool (bps_distance a b) tol_bps.

(** [decimals_for_tick]: the number of decimals of the shortest decimal
    writing of [tick], the least [d >= 0] with [tick * 10^d] integral.
    The search stops after 28 digits, the precision of the [Decimal]
    context the source uses. *)
Fixpoint decimals_from (fuel : nat) (d : Z) (tick : Q) : Z :=
  match fuel with
  | O => d
  | S k => if is_integral (tick * pow10 d) then d
           else decimals_from k (d + 1) tick
  end.

Definition decimals_for_tick (tick : Q) : Z := decimals_from 28 0 tick.

Inductive OrderSide : Type := buy | sell.
Inductive Favor : Type := entry | protection.

(** [side_round(price, tick, side, favor)] *)
Definition side_round (price tick : Q) (side : OrderSide) (favor : Favor) : Q :=
  if Qle_bool tick 0 then price
  else
    let v :=
      match side, favor with
      | buy, entry => inject_Z (floor (price / tick)) * tick
      | buy, protection => inject_Z (ceil (price / tick)) * tick
      | sell, entry => inject_Z (ceil (price / tick)) * tick
      | sell, protection => inject_Z (floor (price / tick)) * tick
      end in
    round v (decimals_for_tick (pmax EPS tick)).

(** [_fmt_price(p, tick)]: the decimal string with the tick's decimals,
    modelled by the number it denotes ([Decimal.quantize] rounds half to
    even). *)
Definition fmt_price (p tick : Q) : Q :=
  round p (Zmaxp 0 (decimals_for_tick (pmax EPS tick))).

(** [_fmt_qty(q, step)] *)
Definition fmt_qty (q step : Q) : Q :=
  round q (Zmaxp 0 (decimals_for_tick (pmax EPS step))).

(** a tick size as venues publish it: a decimal number above [EPS] *)
Definition decimal_tick (tick : Q) : Prop :=
  EPS < tick /\ is_integral (tick * pow10 (decimals_for_tick tick)) = true.

(** the exit-side rounding used for protective stops:
    ["buy" if side == "long" else "sell"] *)
Definition stop_round_side (s : Side) : OrderSide :=
  match s with long => buy | short => sell end.

End Price.

Import Price.

(** ** Generic list helpers for the Python idioms of the source *)

Module Py.

(** [x or d] on a float: zero is falsy *)
Definition or_else (x d : Q) : Q := if Qeq_bool x 0 then d else x.

Definition qsum (l : list Q) : Q := fold_left Qplus l 0.

Definition qlen {A} (l : list A) : Q := inject_Z (Z.of_nat (length l)).

(** [l[-n:]] for [n > 0] *)
Definition lastn {A} (n : nat) (l : list A) : list A :=
  skipn (length l - n) l.

(** [l[:k]] for a Python integer [k] (a negative [k] counts from the end) *)
Definition slice_to {A} (k : Z) (l : list A) : list A :=
  if (0 <=? k)%Z then firstn (Z.to_nat k) l
  else firstn (length l - Z.to_nat (- k)) l.

(** [range(a, b)] on naturals *)
Definition range (a b : nat) : list nat := seq a (b - a).

(** [range(a, b, -1)]: [a, a-1, ..., b+1] *)
Definition range_down (a b : nat) : list nat := rev (seq (S b) (a - b)).

(** stable insertion sort, [sorted(l)] and [sorted(l, reverse=True)] *)
Fixpoint insert_by {A} (leb : A -> A -> bool) (x : A) (l : list A) : list A :=
  match l with
  | [] => [x]
  | y :: r => if leb x y then x :: l else y :: insert_by leb x r
  end.

Definition sort_by {A} (leb : A -> A -> bool) (l : list A) : list A :=
  fold_right (insert_by leb) [] l.

Definition sorted (l : list Q) : list Q := sort_by Qle_bool l.

(** [min(l, key=...)] and [max(l, key=...)]: the first extremal element *)
Fixpoint best_by {A} (better : A -> A -> bool) (cur : A) (l : list A) : A :=
  match l with
  | [] => cur
  | x :: r => best_by better (if better x cur then x else cur) r
  end.

Definition min_by {A} (key : A -> Q) (l : list A) : option A :=
  match l with
  | [] => None
  | x :: r => Some (best_by (fun a b => Qltb (key a) (key b)) x r)
  end.

Definition qmax_list (l : list Q) : option Q :=
  match l with
  | [] => None
  | x :: r => Some (best_by (fun a b => Qltb b a) x r)
  end.

Definition qmin_list (l : list Q) : option Q :=
  match l with
  | [] => None
  | x :: r => Some (best_by (fun a b => Qltb a b) x r)
  end.

(** the first [x] of [l] on which [f] answers, a [for] loop that returns
    from inside its body *)
Fixpoint first_some {A B} (f : A -> option B) (l : list A) : option B :=
  match l with
  | [] => None
  | x :: r => match f x with Some b => Some b | None => first_some f r end
  end.

Definition last_opt {A} (l : list A) : option A :=
  match rev l with [] => None | x :: _ => Some x end.


End Py.

(** ** Candle analytics *)

Module Candles.

Definition DataFrame : Type := list Kline.

Definition highs (df : DataFrame) : list Q := map k_high df.
Definition lows (df : DataFrame) : list Q := map k_low df.
Definition closes (df : DataFrame) : list Q := map k_close df.

Definition at_ (l : list Q) (i : nat) : Q := nth i l 0.

(** true ranges [max(h - lo, abs(h - pc), abs(lo - pc))] of bars 1.. *)
Fixpoint true_ranges (df : DataFrame) : list Q :=
  match df with
  | p :: ((c :: _) as tl) =>
      let h := k_high c in
      let lo := k_low c in
      let pc := k_close p in
      pmax (pmax (h - lo) (Qabs (h - pc))) (Qabs (lo - pc)) :: true_ranges tl
  | _ => []
  end.

(** [atr(df, period)]: the mean of the last [period] true ranges *)
Definition atr (df : DataFrame) (period : nat) : Q :=
  if (length df <? period + 1)%nat then 0
  else
    let trs := true_ranges df in
    if (length trs <? period)%nat then 0
    else Py.qsum (Py.lastn period trs) / inject_Z (Z.of_nat period).



Inductive FvgDir : Type := bullish | bearish.


(** [{"dir", "gap_low", "gap_high", "bar_index"}] *)
Record Fvg : Type := mkFvg {
  dir : FvgDir;
  gap_low : Q;
  gap_high : Q;
  bar_index : Z
}.

(** the body of the loop of [detect_fvgs] at bar [i], with [a] bar [i-2]
    and [c] bar [i] *)
Definition fvg_at (cfg : Config) (tick : Q) (i : Z) (a c : Kline) : list Fvg :=
  let thr_bull :=
    if fvg_gap_use_bps cfg then k_high a * (fvg_gap_min_bps cfg / 10000)
    else inject_Z (fvg_min_ticks cfg) * pmax tick EPS in
  let thr_bear :=
    if fvg_gap_use_bps cfg then k_low a * (fvg_gap_min_bps cfg / 10000)
    else inject_Z (fvg_min_ticks cfg) * pmax tick EPS in
  let relax_bps := pmax 0 (fvg_gap_relax_bps cfg) in
  let bull_relax_abs := k_high a * (relax_bps / 10000) in
  let bear_relax_abs := k_low a * (relax_bps / 10000) in
  let thr_bull_eff := pmax 0 (thr_bull - bull_relax_abs) in
  let thr_bear_eff := pmax 0 (thr_bear - bear_relax_abs) in
  (if Qle_bool (k_high a + thr_bull_eff) (k_low c)
   then [mkFvg bullish (k_high a) (k_low c) i] else [])
  ++ (if Qle_bool (k_high c + thr_bear_eff) (k_low a)
      then [mkFvg bearish (k_high c) (k_low a) i] else []).

Fixpoint fvg_scan (cfg : Config) (tick : Q) (i : Z) (df : DataFrame) : list Fvg :=
  match df with
  | a :: tl =>
      match tl with
      | _ :: c :: _ => fvg_at cfg tick i a c ++ fvg_scan cfg tick (i + 1) tl
      | _ => []
      end
  | [] => []
  end.

(** [detect_fvgs(df, cfg, tick)] *)
Definition detect_fvgs (df : DataFrame) (cfg : Config) (tick : Q) : list Fvg :=
  if (length df <? 5)%nat then [] else fvg_scan cfg tick 2 df.

(** one row of the loop of [fvg_filled]; the state is the run length
    [consec], the answer [true] ends the loop *)
Definition fill_row (low high mid need_depth : Q) (rule : string)
    (require_body_close : bool) (row : Kline) : bool :=
  let opn := k_open row in
  let C := k_close row in
  let body_low := pmin opn C in
  let body_high := pmax opn C in
  let test_low := if require_body_close then body_low else k_low row in
  let test_high := if require_body_close then body_high else k_high row in
  let overlaps := Qle_bool low test_high && Qle_bool test_low high in
  let depth := if overlaps then pmin test_high high - pmax test_low low else 0 in
  if String.eqb rule "mid" then
    Qle_bool test_low mid && Qle_bool mid test_high && Qle_bool need_depth depth
  else if String.eqb rule "full" then
    Qle_bool test_low low && Qle_bool high test_high
  else overlaps && Qle_bool need_depth depth.

Fixpoint fill_loop (ok : Kline -> bool) (need : Z) (consec : Z) (df : DataFrame) : bool :=
  match df with
  | [] => false
  | row :: r =>
      if ok row then
        if (need <=? consec + 1)%Z then true else fill_loop ok need (consec + 1) r
      else fill_loop ok need 0 r
  end.

(** [fvg_filled(df, low, high, rule, require_body_close,
    min_penetration_atr, min_consecutive)] *)
Definition fvg_filled (df : DataFrame) (low high : Q) (rule : string)
    (require_body_close : bool) (min_penetration_atr : Q) (min_consecutive : Z) : bool :=
  match df with
  | [] => false
  | _ =>
    let lo := if Qltb high low then high else low in
    let hi := if Qltb high low then low else high in
    let mid := (lo + hi) / 2 in
    let a := Py.or_else (atr df 14) EPS in
    let need_depth := pmax 0 min_penetration_atr * a in
    fill_loop (fill_row lo hi mid need_depth rule require_body_close)
              (Zmaxp 1 min_consecutive) 0 df
  end.


End Candles.

Import Candles.

(** ** Level builder *)

Module Pools.

(** a level [(price, weight, tag)] *)
Definition Level : Type := (Q * Q * string)%type.

Definition lv_price (t : Level) : Q := fst (fst t).
Definition lv_weight (t : Level) : Q := snd (fst t).
Definition lv_tag (t : Level) : string := snd t.


Definition mean (l : list Q) : Q := Py.qsum l / Py.qlen l.



(** [exec_kl[-window:]] *)
Definition tail_window {A} (window : Z) (l : list A) : list A :=
  if (0 <? window)%Z then Py.lastn (Z.to_nat window) l
  else skipn (Z.to_nat (- window)) l.

Definition count_if {A} (f : A -> bool) (l : list A) : Z :=
  Z.of_nat (length (List.filter f l)).

(** [rolling_range_edges(exec_kl, window, min_touches, atr_frac_max)],
    [(high, low)] or [None].  An empty segment (which needs a negative
    window) makes the source raise; the model answers [None] there. *)
Definition rolling_range_edges (exec_kl : DataFrame) (window min_touches : Z)
    (atr_frac_max : Q) : option (Q * Q) :=
  if (Z.of_nat (length exec_kl) <? Z.max window 25)%Z then None
  else
    let seg := tail_window window exec_kl in
    match Py.qmax_list (highs seg), Py.qmin_list (lows seg) with
    | Some hi, Some lo =>
        let a := Py.or_else (atr exec_kl 20) EPS in
        if Qle_bool (hi - lo) (atr_frac_max * 2 * a) then
          let near_hi :=
            count_if (fun c => Qle_bool (Qabs (c - hi)) ((15 # 100) * a)) (closes seg) in
          let near_lo :=
            count_if (fun c => Qle_bool (Qabs (c - lo)) ((15 # 100) * a)) (closes seg) in
          if ((min_touches <=? near_hi) || (min_touches <=? near_lo))%Z
          then Some (hi, lo) else None
        else None
    | _, _ => None
    end.



(** the grouping loop of [_cluster_levels_bps]: [out[-1]] is the head
    group, kept in reverse *)
Fixpoint group_bps (tol_bps : Q) (cur : list Q) (done : list (list Q))
    (lv : list Q) : list (list Q) :=
  match lv with
  | [] => rev (rev cur :: done)
  | p :: r =>
      match cur with
      | prev :: _ =>
          if within_bps p prev tol_bps then group_bps tol_bps (p :: cur) done r
          else group_bps tol_bps [p] (rev cur :: done) r
      | [] => group_bps tol_bps [p] done r
      end
  end.

Definition group_rep (g : list Q) : list Q :=
  let m := mean g in
  match Py.min_by (fun v => Qabs (v - m)) g with
  | Some v => [v]
  | None => []
  end.

(** [_cluster_levels_bps(levels, tol_bps)] *)
Definition cluster_levels_bps (levels : list Q) (tol_bps : Q) : list Q :=
  match Py.sorted levels with
  | [] => []
  | p0 :: r => flat_map group_rep (group_bps tol_bps [p0] [] r)
  end.



















End Pools.

(** ** Pattern detector *)

Module Detector.

Record SweepFvgParams : Type := mkSweepFvgParams {
  exec_df : DataFrame;
  pools_up : list Q;
  pools_dn : list Q;
  sp_tick : Q;
  sp_cfg : Config;
  pen_bps : Q;
  cb_bps : Q
}.




(** the window [range(i, min(n, i + tmax + 1))] *)
Definition window (p : SweepFvgParams) (i : nat) : list nat :=
  let n := Z.of_nat (length (exec_df p)) in
  let tmax := sweep_t_reject_max_bars (sp_cfg p) in
  Py.range i (Z.to_nat (Z.min n (Z.of_nat i + tmax + 1))).













End Detector.

(** ** Market feed: the closed-candle buffers *)

Module Feed.

(** the payload [data] of a market-stream message after [json.loads] *)
Inductive WsData : Type :=
| KlineEvent (s : string) (x : bool) (k : Kline)
| BookTicker (s : string) (b a : option Q)
| OtherEvent.

Record WsMsg : Type := mkWsMsg {
  stream : string;
  data : option WsData
}.

(** [deque(maxlen=500).append(k)]: the oldest entry leaves a full buffer *)
Definition maxlen : nat := 500.

Definition deque_append (d : list Kline) (k : Kline) : list Kline :=
  let d' := d ++ [k] in skipn (length d' - maxlen) d'.

(** [(not buf) or (buf[-1][0] != k[0])] then [buf.append(k)] *)
Definition append_dedup (buf : list Kline) (k : Kline) : list Kline :=
  match Py.last_opt buf with
  | None => deque_append buf k
  | Some l => if (k_time l =? k_time k)%Z then buf else deque_append buf k
  end.

(** [WSManager._run_market_ws.on_message]; [now] is [now_ms()] *)
Definition on_message (cfg : Config) (now : Z) (st : RunState) (msg : WsMsg) : RunState :=
  match data msg with
  | Some (KlineEvent s x k) =>
      if x && String.eqb (Str.lower s) (Str.lower (symbol cfg)) then
        if Str.endswith (stream msg) "kline_1m" then
          Upd.buffers st (append_dedup (kl_1m st) k) (kl_5m st) now
        else if Str.endswith (stream msg) "kline_5m" then
          Upd.buffers st (kl_1m st) (append_dedup (kl_5m st) k) now
        else Upd.buffers st (kl_1m st) (kl_5m st) now
      else st
  | Some (BookTicker s b a) =>
      if String.eqb (Str.lower s) (Str.lower (symbol cfg)) then
        match b, a with
        | Some b_val, Some a_val => Upd.book_ticker st b_val a_val now
        | _, _ => st
        end
      else st
  | Some OtherEvent | None => st
  end.

(** the feed thread: one call of [on_message] per delivered message,
    each with its own clock reading *)
Definition run (cfg : Config) (st : RunState) (msgs : list (Z * WsMsg)) : RunState :=
  fold_left (fun s m => on_message cfg (fst m) s (snd m)) msgs st.

Definition open_times (buf : list Kline) : list Z := map k_time buf.

(** the closed candles of the symbol that one message adds to the
    one-minute buffer ([which = true]) or to the five-minute buffer
    ([which = false]) *)
Definition accepted (cfg : Config) (which : bool) (msg : WsMsg) : list Kline :=
  match data msg with
  | Some (KlineEvent s x k) =>
      if x && String.eqb (Str.lower s) (Str.lower (symbol cfg)) then
        if Str.endswith (stream msg) "kline_1m" then (if which then [k] else [])
        else if Str.endswith (stream msg) "kline_5m" then (if which then [] else [k])
        else []
      else []
  | _ => []
  end.

Definition delivered_1m (cfg : Config) (msgs : list (Z * WsMsg)) : list Kline :=
  flat_map (fun m => accepted cfg true (snd m)) msgs.

Definition delivered_5m (cfg : Config) (msgs : list (Z * WsMsg)) : list Kline :=
  flat_map (fun m => accepted cfg false (snd m)) msgs.

(** the buffer of one timeframe fed with the candles it is offered *)
Definition feed (buf : list Kline) (ks : list Kline) : list Kline :=
  fold_left append_dedup ks buf.

(** no two neighbours with the same open time *)
Fixpoint adjacent_distinct (l : list Z) : Prop :=
  match l with
  | a :: ((b :: _) as r) => a <> b /\ adjacent_distinct r
  | _ => True
  end.

Fixpoint strictly_increasing (l : list Z) : bool :=
  match l with
  | a :: ((b :: _) as r) => (a <? b)%Z && strictly_increasing r
  | _ => true
  end.

Fixpoint has_duplicate (l : list Z) : bool :=
  match l with
  | [] => false
  | a :: r => existsb (Z.eqb a) r || has_duplicate r
  end.

End Feed.

(** ** Daily guardrail and realized PnL *)

Module Guard.

(** [daily_guardrails_blocked(st, cfg)] *)
Definition daily_guardrails_blocked (st : RunState) (cfg : Config) : bool :=
  if (max_trades_per_day cfg <=? trades_today st)%Z then true
  else
    let realized_day_loss := pmax 0 (- realized_today st) in
    if Qle_bool (max_daily_loss_pct cfg)
         (realized_day_loss / pmax EPS (day_start_equity st))
    then true else false.

(** the realized loss of the day as a fraction of day-start equity, the
    quantity the guardrail compares with [max_daily_loss_pct] *)
Definition loss_fraction (st : RunState) : Q :=
  pmax 0 (- realized_today st) / pmax EPS (day_start_equity st).

(** one entry of [a.P] in an ACCOUNT_UPDATE event; [pu_cr = None] is a
    value [float()] rejects (the entry is logged and skipped) *)
Record PosUpdate : Type := mkPosUpdate {
  pu_s : string;
  pu_cr : option Q
}.

(** the body of the loop over [poss] in
    [WSManager._init_uds.on_message]; [now] is [now_ms()] *)
Definition account_update_one (now : Z) (st : RunState) (p : PosUpdate) : RunState :=
  match pu_cr p with
  | None => st
  | Some cr =>
      let s := Str.upper (pu_s p) in
      match account_cr st !! s with
      | None =>
          Upd.pnl st (realized_today st) (last_loss_server_ms st)
                  (<[s := cr]> (account_cr st)) (last_balance_ts st)
      | Some prev =>
          let delta := cr - prev in
          if Qltb 0 (Qabs delta) then
            let loss_ms :=
              if Qltb delta 0 then
                Some (match last_server_ms st with Some ms => ms | None => now end)
              else last_loss_server_ms st in
            Upd.pnl st (realized_today st + delta) loss_ms
                    (<[s := cr]> (account_cr st)) 0
          else st
      end
  end.

(** an ACCOUNT_UPDATE event *)
Definition on_account_update (now : Z) (st : RunState) (poss : list PosUpdate) : RunState :=
  fold_left (account_update_one now) poss st.

(** a day without rollover: a sequence of ACCOUNT_UPDATE events *)
Definition run_updates (st : RunState) (evs : list (Z * list PosUpdate)) : RunState :=
  fold_left (fun s e => on_account_update (fst e) s (snd e)) evs st.

End Guard.

(** ** Signal identity *)

Module SignalId.

(** decimal digits of a non-negative integer *)
Fixpoint digits_fuel (fuel : nat) (n : Z) (acc : string) : string :=
  match fuel with
  | O => acc
  | S k =>
      let acc' := String (ascii_of_nat (48 + Z.to_nat (n mod 10))) acc in
      if (n <? 10)%Z then acc' else digits_fuel k (n / 10) acc'
  end.

Definition str_nat (n : Z) : string :=
  digits_fuel (S (Z.to_nat (Z.log2 n))) n EmptyString.

(** [str(n)] of an integer *)
Definition str_int (z : Z) : string :=
  if (z <? 0)%Z then String "-" (str_nat (- z)) else str_nat z.

Fixpoint zeros (n : nat) : string :=
  match n with O => EmptyString | S k => String "0" (zeros k) end.

(** zero padding on the left up to [w] characters *)
Definition zfill (w : nat) (s : string) : string :=
  (zeros (w - String.length s) ++ s)%string.

(** [repr] of a float in positional notation: the shortest decimal
    writing, with at least one digit after the point.  (Python switches
    to exponent notation below 1e-4 and from 1e16 on; prices are not in
    that range.) *)
Definition repr_float (x : Q) : string :=
  let x := Qred x in
  let d := decimals_for_tick x in
  let n := Qfloor (Qabs x * pow10 d) in
  let ip := (n / 10 ^ d)%Z in
  let fp := (n mod 10 ^ d)%Z in
  let sign := if Qltb x 0 then "-"%string else EmptyString in
  let frac := if (d =? 0)%Z then "0"%string else zfill (Z.to_nat d) (str_nat fp) in
  (sign ++ str_nat ip ++ "." ++ frac)%string.

(** the civil date of a day number counted from 1970-01-01 *)
Definition civil_from_days (days : Z) : Z * Z * Z :=
  let z := (days + 719468)%Z in
  let era := (z / 146097)%Z in
  let doe := (z - era * 146097)%Z in
  let yoe := ((doe - doe / 1460 + doe / 36524 - doe / 146096) / 365)%Z in
  let doy := (doe - (365 * yoe + yoe / 4 - yoe / 100))%Z in
  let mp := ((5 * doy + 2) / 153)%Z in
  let d := (doy - (153 * mp + 2) / 5 + 1)%Z in
  let m := (if (mp <? 10)%Z then mp + 3 else mp - 9)%Z in
  let y := (yoe + era * 400 + (if (m <=? 2)%Z then 1 else 0))%Z in
  (y, m, d).

(** a time zone: the UTC offset in seconds in force at an instant given
    in epoch milliseconds *)
Definition Zone : Type := Z -> Z.

(** the zone database behind [ZoneInfo(name)]; [None] when the name is
    unknown (or the module is missing) *)
Definition TzDb : Type := string -> option Zone.

(** [_get_zone(tz_name)] *)
Definition get_zone (db : TzDb) (tz_name : string) : option Zone :=
  match (if String.eqb tz_name EmptyString then None else db tz_name) with
  | Some z => Some z
  | None => db "UTC"%string
  end.

(** the day number of [tms] in the zone, and [strftime("%Y%m%d")] *)
Definition local_day (z : option Zone) (tms : Z) : Z :=
  match z with
  | Some off => ((tms + 1000 * off tms) / 86400000)%Z
  | None => (tms / 86400000)%Z
  end.

Definition daykey_of_day (day : Z) : string :=
  let '(y, m, d) := civil_from_days day in
  (zfill 4 (str_int y) ++ zfill 2 (str_int m) ++ zfill 2 (str_int d))%string.

Definition daykey (z : option Zone) (tms : Z) : string :=
  daykey_of_day (local_day z tms).

Record SignalIdParams : Type := mkSignalIdParams {
  sid_side : Side;
  sid_fvg : Fvg;
  pool_ref : Q;
  sid_bar_index : Z;
  server_ms : option Z;
  sid_tick : Q;
  pool_count : option Z;
  bin_ticks : Z;
  tz_name : string;
  pool_tag : option string
}.

(** [_quantize_price(p, tick, bucket_ticks)] *)
Definition quantize_price (p tick : Q) (bucket_ticks : Z) : Q :=
  let q := pmax EPS tick * inject_Z (Zmaxp 1 bucket_ticks) in
  round (inject_Z (floor (p / q)) * q) 12.

Definition side_str (s : Side) : string :=
  match s with long => "long" | short => "short" end.

(** the instant used for the day key: [params.server_ms or now_ms()] *)
Definition id_instant (p : SignalIdParams) (now : Z) : Z :=
  match server_ms p with
  | Some t => if (t =? 0)%Z then now else t
  | None => now
  end.

Definition id_gl (p : SignalIdParams) : Q :=
  round (gap_low (sid_fvg p)) (decimals_for_tick (sid_tick p)).
Definition id_gh (p : SignalIdParams) : Q :=
  round (gap_high (sid_fvg p)) (decimals_for_tick (sid_tick p)).
Definition id_pr_q (p : SignalIdParams) : Q :=
  round (quantize_price (pool_ref p) (sid_tick p) 5)
        (decimals_for_tick (sid_tick p)).
Definition id_pr_bin (p : SignalIdParams) : Q :=
  round (quantize_price (pool_ref p) (sid_tick p) (Zmaxp 1 (bin_ticks p)))
        (decimals_for_tick (sid_tick p)).
Definition id_pc (p : SignalIdParams) : Z :=
  match pool_count p with
  | Some c => if (0 <=? c)%Z then c else 0%Z
  | None => 0%Z
  end.
Definition id_tag_short (p : SignalIdParams) : string :=
  let tag := Str.upper (Str.strip (match pool_tag p with Some t => t | None => EmptyString end)) in
  if String.eqb tag EmptyString then "NA"%string else Str.take 6 tag.

(** [make_signal_id(params)]; [db] is the zone database and [now] the
    wall clock [now_ms()] *)
Definition make_signal_id (db : TzDb) (now : Z) (p : SignalIdParams) : string :=
  let dk := daykey (get_zone db (tz_name p)) (id_instant p now) in
  (dk ++ "|" ++ side_str (sid_side p) ++ "|"
      ++ repr_float (id_gl p) ++ "-" ++ repr_float (id_gh p) ++ "|"
      ++ repr_float (id_pr_q p) ++ "|b" ++ str_int (sid_bar_index p)
      ++ "|n" ++ str_int (id_pc p) ++ "|q" ++ repr_float (id_pr_bin p)
      ++ "|t" ++ id_tag_short p)%string.

(** a database that knows UTC only *)
Definition utc_db : TzDb :=
  fun name => if String.eqb name "UTC" then Some (fun _ => 0%Z) else None.

End SignalId.

(** ** The exchange gateway *)

Module Exchange.

(** an order as the venue reports it (the keys the bot reads).  A numeric
    key holds a number or is missing; a value that [int()] or [float()]
    rejects, and the exception it would raise, are outside the model. *)
Record Order : Type := mkOrder {
  o_symbol : string;
  o_orderId : option Z;
  o_clientOrderId : option string;
  o_type : string;
  o_side : string;
  o_reduceOnly : bool;
  o_closePosition : bool;
  o_stopPrice : option Q;
  o_quantity : option Q;
  o_status : string;
  o_updateTime : option Z;
  o_time : option Z
}.

(** the keyword arguments of [new_order] *)
Record OrderReq : Type := mkOrderReq {
  r_symbol : string;
  r_side : string;
  r_type : string;
  r_quantity : option Q;
  r_stopPrice : option Q;
  r_closePosition : bool;
  r_workingType : option string;
  r_newClientOrderId : string
}.

Inductive CancelKey : Type :=
| ByClientId (cid : string)
| ByOrderId (oid : Z).

(** a JSON field: missing, present but not convertible, or a value *)
Inductive Field (A : Type) : Type :=
| Absent
| Bad
| Val (a : A).
Arguments Absent {A}.
Arguments Bad {A}.
Arguments Val {A} a.

(** the reply of [/fapi/v1/premiumIndex] *)
Record PremiumJson : Type := mkPremiumJson {
  pj_lastFundingRate : Field Q;
  pj_fundingRate : Field Q;
  pj_nextFundingTime : Field Z
}.

(** requests issued by the bot, in order *)
Inductive Call : Type :=
| CNewOrder (r : OrderReq)
| CCancel (k : CancelKey)
| COpenOrders
| CGetOrder (cid : string)
| CPositions
| CPremiumIndex.

(** what happens to one request:
    - [Applied]: it reaches the venue and the reply reaches the bot;
    - [Rejected]: the venue answers with an error status (HTTPError);
    - [Dropped]: it never reaches the venue (timeout, connection error);
    - [AckLost]: it takes effect at the venue but the reply is lost;
    - [Delayed]: the bot sees a timeout while the request is still on
      its way; it takes effect before a later request. *)
Inductive Outcome : Type := Applied | Rejected | Dropped | AckLost | Delayed.

(** one step of the fault script; [flush] lets the requests still on
    their way land before this one is served *)
Record Fault : Type := mkFault {
  flush : bool;
  out : Outcome
}.

Record Venue : Type := mkVenue {
  v_orders : list Order;
  v_inflight : list OrderReq;
  v_positions : list (option Q);
  v_premium : PremiumJson;
  v_market_status : string;
  v_next_oid : Z;
  v_now : Z;
  v_script : list Fault;
  v_log : list Call
}.

(** [requests.exceptions.RequestException]: an error status from the
    venue or a transport failure *)
Inductive exn : Type := HTTPError | TransportError.

Inductive result (A : Type) : Type :=
| Ok (a : A)
| Raise (e : exn).
Arguments Ok {A} a.
Arguments Raise {A} e.

Definition ExM (A : Type) : Type := Venue -> result A * Venue.

Definition ret {A} (a : A) : ExM A := fun v => (Ok a, v).

Definition bind {A B} (m : ExM A) (k : A -> ExM B) : ExM B :=
  fun v => match m v with
           | (Ok a, v') => k a v'
           | (Raise e, v') => (Raise e, v')
           end.

Definition raise {A} (e : exn) : ExM A := fun v => (Raise e, v).

(** [try: m  except ...: h] *)
Definition try_catch {A} (m : ExM A) (h : exn -> ExM A) : ExM A :=
  fun v => match m v with
           | (Ok a, v') => (Ok a, v')
           | (Raise e, v') => h e v'
           end.

Declare Scope exm_scope.
Delimit Scope exm_scope with exm.
Notation "'let*' x := m 'in' k" := (bind m (fun x => k))
  (at level 10, x name, m at level 100, k at level 200) : exm_scope.
Notation "m >> k" := (bind m (fun _ => k))
  (at level 80, right associativity) : exm_scope.
Local Open Scope exm_scope.

(** a [for] loop whose body may raise *)
Fixpoint for_each {A} (f : A -> ExM unit) (l : list A) : ExM unit :=
  match l with
  | [] => ret tt
  | x :: r => f x >> for_each f r
  end.

Definition with_orders (v : Venue) (os : list Order) (inflight : list OrderReq)
    (oid now : Z) : Venue :=
  mkVenue os inflight (v_positions v) (v_premium v) (v_market_status v)
          oid now (v_script v) (v_log v).

Definition with_script (v : Venue) (s : list Fault) (lg : list Call) : Venue :=
  mkVenue (v_orders v) (v_inflight v) (v_positions v) (v_premium v)
          (v_market_status v) (v_next_oid v) (v_now v) s lg.

(** the venue books a submission: a MARKET order gets the venue's fill
    status, a conditional order rests as NEW *)
Definition land (v : Venue) (r : OrderReq) : Venue :=
  let o := {|
    o_symbol := r_symbol r;
    o_orderId := Some (v_next_oid v);
    o_clientOrderId := Some (r_newClientOrderId r);
    o_type := r_type r;
    o_side := r_side r;
    o_reduceOnly := false;
    o_closePosition := r_closePosition r;
    o_stopPrice := r_stopPrice r;
    o_quantity := r_quantity r;
    o_status := if String.eqb (r_type r) "MARKET" then v_market_status v
                else "NEW"%string;
    o_updateTime := Some (v_now v);
    o_time := Some (v_now v)
  |} in
  with_orders v (v_orders v ++ [o]) (v_inflight v)
              (v_next_oid v + 1)%Z (v_now v + 1)%Z.

Definition land_all (v : Venue) : Venue :=
  fold_left land (v_inflight v)
            (with_orders v (v_orders v) [] (v_next_oid v) (v_now v)).

(** start of every request: log it, read the next fault (none left: the
    request is [Applied]), let delayed submissions land if asked *)
Definition begin_call (c : Call) (v : Venue) : Outcome * Venue :=
  match v_script v with
  | [] => (Applied, with_script v [] (v_log v ++ [c]))
  | f :: s =>
      let v1 := with_script v s (v_log v ++ [c]) in
      (out f, if flush f then land_all v1 else v1)
  end.

Definition is_open (o : Order) : bool :=
  String.eqb (o_status o) "NEW" || String.eqb (o_status o) "PARTIALLY_FILLED".

Definition key_matches (k : CancelKey) (o : Order) : bool :=
  match k with
  | ByClientId cid =>
      match o_clientOrderId o with Some c => String.eqb c cid | None => false end
  | ByOrderId oid =>
      match o_orderId o with Some i => (i =? oid)%Z | None => false end
  end.

Definition cancelled (o : Order) : Order :=
  mkOrder (o_symbol o) (o_orderId o) (o_clientOrderId o) (o_type o) (o_side o)
          (o_reduceOnly o) (o_closePosition o) (o_stopPrice o) (o_quantity o)
          "CANCELED" (o_updateTime o) (o_time o).

(** the venue cancels the first open order of the symbol that matches the
    key; [None] when there is none (error "Unknown order") *)
Fixpoint cancel_in (sym : string) (k : CancelKey) (os : list Order)
  : option (list Order) :=
  match os with
  | [] => None
  | o :: r =>
      if String.eqb (o_symbol o) sym && is_open o && key_matches k o
      then Some (cancelled o :: r)
      else match cancel_in sym k r with
           | Some r' => Some (o :: r')
           | None => None
           end
  end.

(** [ex.new_order]: one POST, never retried by [_request] *)
Definition new_order (r : OrderReq) : ExM unit := fun v =>
  let '(oc, v1) := begin_call (CNewOrder r) v in
  match oc with
  | Applied => (Ok tt, land v1 r)
  | AckLost => (Raise TransportError, land v1 r)
  | Delayed =>
      (Raise TransportError,
       with_orders v1 (v_orders v1) (v_inflight v1 ++ [r])
                   (v_next_oid v1) (v_now v1))
  | Rejected => (Raise HTTPError, v1)
  | Dropped => (Raise TransportError, v1)
  end.

(** [ex.cancel_order(symbol=..., orderId=... | origClientOrderId=...)];
    only submissions are modelled as delayed, a delayed cancel is lost *)
Definition cancel_order (sym : string) (k : CancelKey) : ExM unit := fun v =>
  let '(oc, v1) := begin_call (CCancel k) v in
  let apply :=
    match cancel_in sym k (v_orders v1) with
    | Some os => Some (with_orders v1 os (v_inflight v1) (v_next_oid v1) (v_now v1))
    | None => None
    end in
  match oc with
  | Applied =>
      match apply with
      | Some v2 => (Ok tt, v2)
      | None => (Raise HTTPError, v1)
      end
  | AckLost =>
      (Raise TransportError, match apply with Some v2 => v2 | None => v1 end)
  | Rejected => (Raise HTTPError, v1)
  | Dropped | Delayed => (Raise TransportError, v1)
  end.

(** a read: the reply, or an exception *)
Definition read {A} (c : Call) (f : Venue -> A) : ExM A := fun v =>
  let '(oc, v1) := begin_call c v in
  match oc with
  | Applied => (Ok (f v1), v1)
  | Rejected => (Raise HTTPError, v1)
  | Dropped | AckLost | Delayed => (Raise TransportError, v1)
  end.

(** [ex.open_orders(symbol)] *)
Definition open_orders (sym : string) : ExM (list Order) :=
  read COpenOrders
       (fun v => List.filter (fun o => String.eqb (o_symbol o) sym && is_open o)
                        (v_orders v)).

(** [ex.get_order(symbol, orig_client_id=cid)]: every failure, and a
    reply for another symbol, is [None] *)
Definition get_order (sym cid : string) : ExM (option Order) :=
  try_catch
    (let* found := read (CGetOrder cid)
                        (fun v => find (key_matches (ByClientId cid)) (v_orders v)) in
     match found with
     | Some o => if String.eqb (o_symbol o) sym then ret (Some o) else ret None
     | None => raise HTTPError
     end)
    (fun _ => ret None).

(** [ex.position_net_and_gross(symbol)]; a row whose amount does not
    convert is skipped *)
Definition position_net_and_gross (sym : string) : ExM (Q * Q) :=
  read CPositions
       (fun v => fold_left (fun ng row =>
                   match row with
                   | Some amt => (fst ng + amt, snd ng + Qabs amt)
                   | None => ng
                   end) (v_positions v) (0, 0)).

(** [ex.premium_index(symbol)] *)
Definition premium_index (sym : string) : ExM PremiumJson :=
  read CPremiumIndex v_premium.

Definition open_of (v : Venue) : list Order := List.filter is_open (v_orders v).

(** the endpoint of a logged request *)
Definition call_name (c : Call) : string :=
  match c with
  | CNewOrder _ => "new_order"
  | CCancel _ => "cancel"
  | COpenOrders => "open_orders"
  | CGetOrder _ => "get_order"
  | CPositions => "positions"
  | CPremiumIndex => "premium_index"
  end.

(** a venue with no faults scripted *)
Definition quiet_venue (os : list Order) (pos : list (option Q)) : Venue :=
  mkVenue os [] pos (mkPremiumJson Absent Absent Absent) "FILLED" 1000 0 [] [].

End Exchange.

Import Exchange.
Local Open Scope exm_scope.

(** ** Trailing stop manager *)

Module Trailing.

Record TrailParams : Type := mkTrailParams {
  tp_side : Side;
  tp_entry : Q;
  tp_stop : Q;
  current_price : Q;
  tp_exec_df : DataFrame
}.

(** [_compute_trail_target]: [(new_sl, skip_reason)] *)
Definition compute_trail_target (side : Side) (entry_px stop cur r_multiple atr_val : Q)
    (cfg : Config) : option Q * option string :=
  let new_sl :=
    if Qle_bool 1 r_multiple then
      Some (match side with
            | long => pmax stop entry_px
            | short => pmin stop entry_px
            end)
    else None in
  if Qle_bool (trail_activation_R cfg) r_multiple then
    if Qltb 0 atr_val then
      let trail_dist := trail_atr_k cfg * atr_val in
      let base := match new_sl with Some v => Py.or_else v stop | None => stop end in
      match side with
      | long => (Some (pmax base (cur - trail_dist)), None)
      | short => (Some (pmin base (cur + trail_dist)), None)
      end
    else (None, Some "atr_zero"%string)
  else (new_sl, None).

(** the threshold of [_trailing_improvement_ok] *)
Definition min_improve (st : RunState) (min_tick_improve : Z) : Q :=
  inject_Z (Zmaxp 1 min_tick_improve) * pmax EPS (tick st).

(** [_trailing_improvement_ok(st, side, new_sl, min_tick_improve)] *)
Definition trailing_improvement_ok (st : RunState) (side : Side) (new_sl : Q)
    (min_tick_improve : Z) : bool :=
  match last_trailing_sl st, last_trailing_side st with
  | Some last_sl, Some last_side =>
      if negb (Side_eqb last_side side) then true
      else
        match side with
        | long => Qltb (last_sl + min_improve st min_tick_improve) new_sl
        | short => Qltb new_sl (last_sl - min_improve st min_tick_improve)
        end
  | _, _ => true
  end.

Definition exit_side (side : Side) : string :=
  match side with long => "SELL" | short => "BUY" end.

(** the STOP_MARKET closePosition request of [update_trailing_sl] *)
Definition stop_request (st : RunState) (cfg : Config) (side : Side) (new_sl : Q)
    (cid : string) : OrderReq := {|
  r_symbol := symbol cfg;
  r_side := exit_side side;
  r_type := "STOP_MARKET";
  r_quantity := None;
  r_stopPrice :=
    Some (fmt_price (side_round new_sl (tick st) (stop_round_side side) protection)
                    (tick st));
  r_closePosition := true;
  r_workingType := Some (working_type cfg);
  r_newClientOrderId := cid
|}.

(** cancel the tracked stop, by client id when there is one, else by
    order id (no [try] around it here) *)
Definition cancel_tracked (st : RunState) (cfg : Config) : ExM unit :=
  match last_trailing_client_id st with
  | Some cid =>
      if negb (String.eqb cid EmptyString) then cancel_order (symbol cfg) (ByClientId cid)
      else match last_trailing_order_id st with
           | Some oid => cancel_order (symbol cfg) (ByOrderId oid)
           | None => ret tt
           end
  | None =>
      match last_trailing_order_id st with
      | Some oid => cancel_order (symbol cfg) (ByOrderId oid)
      | None => ret tt
      end
  end.

Definition is_close_stop (o : Order) : bool :=
  String.eqb (Str.upper (o_type o)) "STOP_MARKET" && o_closePosition o.

Definition cid_is (o : Order) (cid : string) : bool :=
  match o_clientOrderId o with Some c => String.eqb c cid | None => false end.

(** the best-effort cleanup at the end of [update_trailing_sl] *)
Definition cleanup_extra (cfg : Config) (keep_cid : string) : ExM unit :=
  try_catch
    (let* oo := open_orders (symbol cfg) in
     for_each (fun o =>
       try_catch
         (if is_close_stop o && negb (cid_is o keep_cid) then
            match o_orderId o with
            | Some oid => cancel_order (symbol cfg) (ByOrderId oid)
            | None => ret tt
            end
          else ret tt)
         (fun _ => ret tt)) oo)
    (fun _ => ret tt).

(** the replace protocol: [true] when a placement succeeded *)
Definition replace_stop (st : RunState) (cfg : Config) (req : OrderReq) : ExM bool :=
  try_catch
    (new_order req >>
     try_catch (cancel_tracked st cfg) (fun _ => ret tt) >>
     ret true)
    (fun e_first =>
       try_catch
         (cancel_tracked st cfg >> new_order req >> ret true)
         (fun e_second => ret false)).

(** the gate [cfg.position_check_before_trail]: go on or return *)
Definition position_gate (cfg : Config) : ExM bool :=
  if position_check_before_trail cfg then
    try_catch
      (let* ng := position_net_and_gross (symbol cfg) in
       ret (negb (Qle_bool (snd ng) EPS)))
      (fun _ => ret false)
  else ret true.

Definition r_multiple (params : TrailParams) : Q :=
  Qabs (current_price params - tp_entry params)
  / pmax EPS (Qabs (tp_entry params - tp_stop params)).

(** the target of this call, [new_sl] of the source *)
Definition target (cfg : Config) (params : TrailParams) : option Q :=
  fst (compute_trail_target (tp_side params) (tp_entry params) (tp_stop params)
         (current_price params) (r_multiple params)
         (Py.or_else (atr (tp_exec_df params) 14) 0) cfg).

(** [update_trailing_sl(st, ex, cfg, params)]; [new_cid] is the value of
    [_unique_cid("trail")] drawn by this call *)
Definition update_trailing_sl (st : RunState) (cfg : Config) (params : TrailParams)
    (new_cid : string) : ExM RunState :=
  let* go := position_gate cfg in
  if negb go then ret st
  else
    match target cfg params with
    | None => ret st
    | Some new_sl =>
        if negb (trailing_improvement_ok st (tp_side params) new_sl
                   (trail_min_tick_improve cfg))
        then ret st
        else
          let* placed :=
            replace_stop st cfg (stop_request st cfg (tp_side params) new_sl new_cid) in
          if placed then
            let st' := Upd.trailing st (Some new_sl) (Some (tp_side params))
                                    (Some new_cid) None in
            cleanup_extra cfg new_cid >> ret st'
          else ret st
    end.

(** a sequence of calls, each with its own parameters and client id;
    the answer lists the tracked stop after every call *)
Fixpoint run_calls (st : RunState) (cfg : Config)
    (calls : list (TrailParams * string)) (v : Venue)
  : list (option Q) * RunState * Venue :=
  match calls with
  | [] => ([], st, v)
  | (params, cid) :: r =>
      let st1 := match update_trailing_sl st cfg params cid v with
                 | (Ok s, _) => s
                 | (Raise _, _) => st
                 end in
      let v1 := snd (update_trailing_sl st cfg params cid v) in
      let '(tr, st2, v2) := run_calls st1 cfg r v1 in
      (last_trailing_sl st1 :: tr, st2, v2)
  end.

(** the open close-position stops of the symbol at the venue *)
Definition protective_stops (cfg : Config) (v : Venue) : list Order :=
  List.filter (fun o => String.eqb (o_symbol o) (symbol cfg) && is_close_stop o)
         (open_of v).

(** the tracked stop never moves against the position *)
Definition ratchet_step (side : Side) (a b : option Q) : Prop :=
  match a, b with
  | None, _ => True
  | Some x, Some y => match side with long => x <= y | short => y <= x end
  | Some _, None => False
  end.

(** the tracked stop is left as it is, or moves in favour of the position
    by more than [mi] *)
Definition improves (mi : Q) (side : Side) (a b : option Q) : Prop :=
  b = a
  \/ match a, b with
     | None, _ => True
     | Some x, Some y => match side with long => x + mi < y | short => y < x - mi end
     | Some _, None => False
     end.

(** [R] relates every value of the trace to the one before it *)
Fixpoint chain (R : option Q -> option Q -> Prop) (prev : option Q)
    (trace : list (option Q)) : Prop :=
  match trace with
  | [] => True
  | b :: r => R prev b /\ chain R b r
  end.

End Trailing.

(** ** Idempotent market entry *)

Module Entry.

Import SignalId.

(** [_unique_cid(prefix)]: [t] is [int(time.time()*1000)] and [r] the
    draw of [random.randint(100, 999)] *)
Definition unique_cid (prefix : string) (t r : Z) : string :=
  (prefix ++ "_" ++ str_int t ++ "_" ++ str_int r)%string.

(** [_entry_client_params] with the client id and the formatted
    quantity *)
Definition entry_request (cfg : Config) (side : Side) (qty : Q) (step : option Q)
    (cid : string) : OrderReq := {|
  r_symbol := symbol cfg;
  r_side := match side with long => "BUY" | short => "SELL" end;
  r_type := "MARKET";
  r_quantity :=
    Some (match step with
          | Some s => if Qltb 0 s then fmt_qty qty s else qty
          | None => qty
          end);
  r_stopPrice := None;
  r_closePosition := false;
  r_workingType := None;
  r_newClientOrderId := cid
|}.

(** [_order_status_ok(od)] *)
Definition order_status_ok (od : Order) : bool * option string :=
  let status := Str.upper (o_status od) in
  (String.eqb status "NEW" || String.eqb status "PARTIALLY_FILLED"
   || String.eqb status "FILLED", Some status).

(** [_detect_order_by_cid(ex, cfg, cid, retries, delay)]: the loop runs
    [max(0, retries)] times; the sleep between queries has no effect on
    the state *)
Fixpoint detect_loop (cfg : Config) (cid : string) (n : nat)
  : ExM (bool * option string) :=
  match n with
  | O => ret (false, None)
  | S k =>
      let* od := get_order (symbol cfg) cid in
      match od with
      | Some o =>
          let '(ok, status) := order_status_ok o in
          if ok then ret (true, status) else detect_loop cfg cid k
      | None => detect_loop cfg cid k
      end
  end.

Definition detect_order_by_cid (cfg : Config) (cid : string) (retries : Z)
  : ExM (bool * option string) :=
  detect_loop cfg cid (Z.to_nat (Z.max 0 retries)).

(** [place_market_entry_idempotent(ex, cfg, side, qty, step)]; [t] and
    [r] are the clock reading and the random draw of its call of
    [_unique_cid("entry")] *)
Definition place_market_entry_idempotent (cfg : Config) (side : Side) (qty : Q)
    (step : option Q) (t r : Z) : ExM (bool * string) :=
  let cid := unique_cid "entry" t r in
  try_catch
    (new_order (entry_request cfg side qty step cid) >> ret (true, cid))
    (fun e =>
       let* found := detect_order_by_cid cfg cid 2 in
       if fst found then ret (true, cid) else ret (false, cid)).

(** the orders of the venue that carry the client id *)
Definition orders_with_cid (cid : string) (v : Venue) : list Order :=
  List.filter (key_matches (ByClientId cid)) (v_orders v).

Definition booked (cid : string) (v : Venue) : nat :=
  length (orders_with_cid cid v).

Definition tagged (cid : string) (r : OrderReq) : bool :=
  String.eqb (r_newClientOrderId r) cid.

(** the delayed submissions that carry the client id *)
Definition pending_with_cid (cid : string) (v : Venue) : list OrderReq :=
  List.filter (tagged cid) (v_inflight v).

(** how many orders with the client id the venue has or will have once
    every delayed submission has landed *)
Definition copies (cid : string) (v : Venue) : nat :=
  (booked cid v + length (pending_with_cid cid v))%nat.

(** a request moves the venue forward without losing or duplicating an
    order of the client id *)
Definition forward (cid : string) (c : Call) (v v' : Venue) : Prop :=
  (booked cid v <= booked cid v')%nat
  /\ copies cid v' = copies cid v
  /\ v_log v' = v_log v ++ [c].

(** the statuses that count as placed, as the specification lists them *)
Definition placed_statuses : list string :=
  ["NEW"; "PARTIALLY_FILLED"; "FILLED"]%string.

(** a query by client id is answered with an order in a placed status *)
Definition answers_placed (q : result (option Order) * Venue) : Prop :=
  exists o, fst q = Ok (Some o) /\ In (Str.upper (o_status o)) placed_statuses.

(** the market order the specification asks for: the symbol, the side
    of the entry, type MARKET, the quantity written with the decimals of
    the step, and the client id *)
Definition market_order (cfg : Config) (side : Side) (qty : Q) (step : option Q)
    (cid : string) (r : OrderReq) : Prop :=
  r_symbol r = symbol cfg
  /\ r_side r = match side with long => "BUY"%string | short => "SELL"%string end
  /\ r_type r = "MARKET"%string
  /\ r_quantity r = Some (match step with
                          | Some s => if Qltb 0 s then fmt_qty qty s else qty
                          | None => qty
                          end)
  /\ r_stopPrice r = None
  /\ r_closePosition r = false
  /\ r_newClientOrderId r = cid.

Definition is_query_of (cid : string) (c : Call) : bool :=
  match c with CGetOrder c' => String.eqb c' cid | _ => false end.

(** reading a run of decimal digits *)
Definition is_digit (c : ascii) : bool :=
  ((48 <=? nat_of_ascii c) && (nat_of_ascii c <=? 57))%nat.

Fixpoint all_digits (s : string) : bool :=
  match s with
  | EmptyString => true
  | String c r => is_digit c && all_digits r
  end.

Fixpoint read_digits (acc : Z) (s : string) : Z :=
  match s with
  | EmptyString => acc
  | String c r => read_digits (10 * acc + Z.of_nat (nat_of_ascii c - 48)) r
  end.

End Entry.

(** ** Startup reconciliation *)

Module Reconcile.

Definition is_prot (o : Order) : bool :=
  String.eqb (Str.upper (o_type o)) "STOP_MARKET" && o_closePosition o.

Definition is_tp (o : Order) : bool :=
  String.eqb (Str.upper (o_type o)) "TAKE_PROFIT_MARKET" && o_reduceOnly o.

(** [_partition_open_orders]: [(prot, tps, others)] *)
Definition partition_open_orders (open_orders : list Order)
  : list Order * list Order * list Order :=
  (List.filter is_prot open_orders,
   List.filter (fun o => negb (is_prot o) && is_tp o) open_orders,
   List.filter (fun o => negb (is_prot o) && negb (is_tp o)) open_orders).

(** [_cancel(o)]: a failed cancel is logged, not raised; the order id is
    a number or missing (see [Order]) *)
Definition cancel_ (cfg : Config) (o : Order) : ExM unit :=
  match o_orderId o with
  | Some oid =>
      try_catch (cancel_order (symbol cfg) (ByOrderId oid)) (fun _ => ret tt)
  | None => ret tt
  end.

(** [_clear_trailing_cache(new_side)] *)
Definition clear_trailing_cache (st : RunState) (new_side : option Side) : RunState :=
  Upd.trailing st None new_side None None.

Definition side_is (o : Order) (s : string) : bool :=
  String.eqb (Str.upper (o_side o)) s.

(** the sort key [int(x.get("updateTime", x.get("time", 0)) or 0)]; the
    times are numbers or missing (see [Order]) *)
Definition update_key (o : Order) : Z :=
  match o_updateTime o with
  | Some u => u
  | None => match o_time o with Some t => t | None => 0%Z end
  end.

(** list elements with their positions: object identity ([is]) of the
    dictionaries of one reply *)
Definition indexed {A} (l : list A) : list (nat * A) :=
  combine (seq 0 (length l)) l.

(** [max(candidates, key=...)]: the first one with the largest key *)
Definition pick_keep (candidates : list (nat * Order)) : option (nat * Order) :=
  match candidates with
  | [] => None
  | c :: r =>
      Some (Py.best_by (fun a b => (update_key (snd b) <? update_key (snd a))%Z) c r)
  end.

Definition is_not (i : nat) (keep : option (nat * Order)) : bool :=
  match keep with
  | Some (k, _) => negb (i =? k)%nat
  | None => true
  end.

(** the first order seen at each stop price, [uniq] of the source, in
    insertion order *)
Fixpoint uniq_by_price (seen : list (Q * Order)) (tps : list Order)
  : list (Q * Order) :=
  match tps with
  | [] => seen
  | o :: r =>
      match o_stopPrice o with
      | None => uniq_by_price seen r
      | Some sp =>
          if existsb (fun kv => Qeq_bool (fst kv) sp) seen
          then uniq_by_price seen r
          else uniq_by_price (seen ++ [(sp, o)]) r
      end
  end.

(** [sorted(uniq.items(), key=lambda kv: kv[0], reverse=...)] *)
Definition sort_items (reverse : bool) (items : list (Q * Order)) : list (Q * Order) :=
  if reverse then Py.sort_by (fun a b => Qle_bool (fst b) (fst a)) items
  else Py.sort_by (fun a b => Qle_bool (fst a) (fst b)) items.

Definition side_live_of (net : Q) : option Side :=
  if Qltb 0 net then Some long else if Qltb net 0 then Some short else None.

(** the in-position branch *)
Definition reconcile_in_position (st : RunState) (cfg : Config) (side_live : Side)
    (prot tps : list Order) : ExM RunState :=
  let want_exit_side := match side_live with long => "SELL" | short => "BUY" end in
  let iprot := indexed prot in
  let candidates := List.filter (fun io => side_is (snd io) want_exit_side) iprot in
  let keep_prot := pick_keep candidates in
  for_each (fun io => if is_not (fst io) keep_prot then cancel_ cfg (snd io) else ret tt)
           candidates >>
  for_each (fun io =>
              if is_not (fst io) keep_prot && negb (side_is (snd io) want_exit_side)
              then cancel_ cfg (snd io) else ret tt) iprot >>
  let st1 :=
    match keep_prot with
    | Some (_, k) =>
        Upd.trailing st (o_stopPrice k) (Some side_live)
                     (o_clientOrderId k) (o_orderId k)
    | None => clear_trailing_cache st (Some side_live)
    end in
  let tp_side := want_exit_side in
  let good_tps := List.filter (fun o => side_is o tp_side) tps in
  let uniq := uniq_by_price [] good_tps in
  let ordered := sort_items (Side_eqb side_live long) uniq in
  for_each (fun kv => cancel_ cfg (snd kv)) (skipn 2 ordered) >>
  for_each (fun o => if negb (side_is o tp_side) then cancel_ cfg o else ret tt) tps >>
  ret st1.

(** [reconcile_startup_orders(ex, st, cfg)] *)
Definition reconcile_startup_orders (st : RunState) (cfg : Config) : ExM RunState :=
  try_catch
    (let* ng := position_net_and_gross (symbol cfg) in
     let side_live := side_live_of (fst ng) in
     let* openos := open_orders (symbol cfg) in
     let '(prot, tps, others) := partition_open_orders openos in
     match side_live with
     | Some sd =>
         if Qle_bool (Qabs (snd ng)) EPS then
           for_each (cancel_ cfg) (prot ++ tps) >>
           ret (clear_trailing_cache st None)
         else reconcile_in_position st cfg sd prot tps
     | None =>
         for_each (cancel_ cfg) (prot ++ tps) >>
         ret (clear_trailing_cache st None)
     end)
    (fun _ => ret st).

(** what is left open at the venue for the symbol *)
Definition open_prot (cfg : Config) (v : Venue) : list Order :=
  List.filter (fun o => String.eqb (o_symbol o) (symbol cfg) && is_prot o) (open_of v).

Definition open_tps (cfg : Config) (v : Venue) : list Order :=
  List.filter (fun o => String.eqb (o_symbol o) (symbol cfg) && negb (is_prot o) && is_tp o)
         (open_of v).

End Reconcile.

(** ** Funding gate *)

Module Funding.

(** the [meta] dictionary *)
Record FundMeta : Type := mkFundMeta {
  reason : option string;
  mins_to : option Q;
  abs_bps : option Q
}.

(** the conversions of [current_funding_info] on the reply [j];
    [None] stands for the KeyError/TypeError/ValueError branch, and
    [Bad] for a field whose conversion raises one of these (a value
    whose conversion overflows is outside the model) *)
Definition parse_funding (j : PremiumJson) : option (Q * option Z) :=
  let rate :=
    match pj_lastFundingRate j with
    | Val r => Some r
    | Bad => None
    | Absent =>
        match pj_fundingRate j with
        | Val r => Some r
        | Bad => None
        | Absent => Some 0
        end
    end in
  match rate with
  | None => None
  | Some r =>
      match pj_nextFundingTime j with
      | Val t => Some (r, Some t)
      | Absent => Some (r, None)
      | Bad => None
      end
  end.

(** [current_funding_info(ex, cfg)]: [(rate, nft)]; a RequestException
    of [premium_index] is not caught here *)
Definition current_funding_info (cfg : Config) : ExM (option Q * option Z) :=
  let* j := premium_index (symbol cfg) in
  match parse_funding j with
  | Some (r, nft) => ret (Some r, nft)
  | None => ret (None, None)
  end.

(** [funding_gate(ex, st, cfg)]: [(block, score_penalty, risk_mult, meta)] *)
Definition funding_gate (st : RunState) (cfg : Config)
  : ExM (bool * Q * Q * FundMeta) :=
  if negb (funding_aware_enable cfg) then
    ret (false, 0, 1, mkFundMeta None None None)
  else
    let* info := current_funding_info cfg in
    let '(rate, nft) := info in
    match nft, last_server_ms st with
    | Some nft_ms, Some server_ms =>
        let mins := inject_Z (nft_ms - server_ms) / 60000 in
        let window := inject_Z (Zmaxp 1 (funding_window_min cfg)) in
        let near :=
          if funding_window_symmetric cfg then Qle_bool (Qabs mins) window
          else Qle_bool 0 mins && Qle_bool mins window in
        let bps := Qabs (match rate with Some r => r | None => 0 end) * 10000 in
        let hi := Qle_bool (funding_high_abs_bps cfg) bps in
        if near && funding_block_near cfg then
          ret (true, 0, 1,
               mkFundMeta (Some "near_funding_block"%string)
                          (Some (round mins 2)) (Some (round bps 4)))
        else
          let penalty := if near then funding_penalty_score cfg else 0 in
          let risk_mult := if hi then funding_risk_mult_high cfg else 1 in
          let why :=
            if near then "near_penalty"%string
            else if hi then "high_funding_risk"%string else "ok"%string in
          ret (false, penalty, risk_mult,
               mkFundMeta (Some why) (Some (round mins 2)) (Some (round bps 4)))
    | _, _ =>
        ret (true, 0, 1, mkFundMeta (Some "time_unknown"%string) None None)
    end.

(** the next funding time read from a reply, [None] when unknown *)
Definition nft_of (j : PremiumJson) : option Z :=
  match parse_funding j with
  | Some (_, nft) => nft
  | None => None
  end.

Definition blocked (r : result (bool * Q * Q * FundMeta)) : option bool :=
  match r with
  | Ok (b, _, _, _) => Some b
  | Raise _ => None
  end.

End Funding.

(** ** Sample inputs *)

Module Samples.

Import Guard Feed Funding.

(** a fresh state on a day that started with 1000 of equity *)
Definition st_day : RunState := {|
  kl_1m := []; kl_5m := []; last_market_ws_ts := 0;
  last_bid := None; last_ask := None;
  realized_today := 0; trades_today := 0; day_start_equity := 1000;
  last_loss_server_ms := None; account_cr := ∅;
  tick := 1 # 10;
  last_trailing_sl := None; last_trailing_side := None;
  last_trailing_client_id := None; last_trailing_order_id := None;
  last_server_ms := Some 1762214400000%Z; last_balance_ts := 0
|}.

(** cumulative realized PnL reports: the baseline, then a loss of 40 *)
Definition evs_loss : list (Z * list PosUpdate) :=
  [ (1762214401000%Z, [mkPosUpdate "BTCUSDT" (Some 0)]);
    (1762214402000%Z, [mkPosUpdate "BTCUSDT" (Some (- (40)))]) ].

(** a later report after a winning trade of 30 *)
Definition evs_gain : list (Z * list PosUpdate) :=
  [ (1762214403000%Z, [mkPosUpdate "BTCUSDT" (Some (- (10)))]) ].

Definition kline_msg (strm : string) (t : Z) : Z * WsMsg :=
  (t, mkWsMsg strm
        (Some (KlineEvent "BTCUSDT" true (mkKline t 100 101 99 100 5)))).

(** bar 120000 is delivered before bar 60000 *)
Definition msgs_out_of_order : list (Z * WsMsg) :=
  [ kline_msg "btcusdt@kline_1m" 120000; kline_msg "btcusdt@kline_1m" 60000 ].

(** bar 60000 is delivered again after bar 120000 *)
Definition msgs_repeated : list (Z * WsMsg) :=
  [ kline_msg "btcusdt@kline_1m" 60000; kline_msg "btcusdt@kline_1m" 120000;
    kline_msg "btcusdt@kline_1m" 60000 ].

Definition msgs_in_order : list (Z * WsMsg) :=
  [ kline_msg "btcusdt@kline_1m" 60000; kline_msg "btcusdt@kline_1m" 60000;
    kline_msg "btcusdt@kline_1m" 120000 ].

(** the venue knows the next funding time; the bot has no server-time
    sample yet *)
Definition venue_funding : Venue :=
  mkVenue [] [] []
    (mkPremiumJson (Val (1 # 10000)) Absent (Val 1762243200000%Z))
    "FILLED" 1000 0 [] [].

(** a long setup: imbalance 100.44 .. 101.6, nearest level 30025 tagged
    EQH, seen at server time 2025-11-04 00:00:00.123 UTC *)
Definition sid_a : SignalId.SignalIdParams :=
  SignalId.mkSignalIdParams long (mkFvg bullish (10044 # 100) (1016 # 10) 17)
    30025 17 (Some 1762214400123%Z) (1 # 10) (Some 3%Z) 10 "UTC" (Some "EQH"%string).

(** the same setup with the lower bound 0.02 higher (a fifth of a tick),
    seen five minutes later *)
Definition sid_b : SignalId.SignalIdParams :=
  SignalId.mkSignalIdParams long (mkFvg bullish (10046 # 100) (1016 # 10) 17)
    30025 17 (Some 1762214700123%Z) (1 # 10) (Some 3%Z) 10 "UTC" (Some "EQH"%string).

(** the setup of [sid_a] one bar later in a full buffer: the imbalance
    sits one position earlier *)
Definition sid_c : SignalId.SignalIdParams :=
  SignalId.mkSignalIdParams long (mkFvg bullish (10044 # 100) (1016 # 10) 16)
    30025 16 (Some 1762214460123%Z) (1 # 10) (Some 3%Z) 10 "UTC" (Some "EQH"%string).

(** the setup of [sid_a] with the lower bound 0.03 lower, seen later the
    same day *)
Definition sid_w : SignalId.SignalIdParams :=
  SignalId.mkSignalIdParams long (mkFvg bullish (10041 # 100) (1016 # 10) 17)
    30025 17 (Some 1762250000000%Z) (1 # 10) (Some 3%Z) 10 "UTC" (Some " eqh "%string).



Definition bar (t : Z) (o h l c : Q) : Kline := mkKline t o h l c 10.

(** fourteen one-minute candles: highs of 95 at bars 2 and 5, highs of
    105 at bars 8 and 11, a last close of 100.5 *)
Definition kl_levels : list Kline :=
  [ bar 0 85 90 80 85; bar 60000 85 90 80 85; bar 120000 85 95 80 85;
    bar 180000 85 90 80 85; bar 240000 85 90 80 85; bar 300000 85 95 80 85;
    bar 360000 85 90 80 85; bar 420000 85 90 80 85; bar 480000 85 105 80 85;
    bar 540000 85 90 80 85; bar 600000 85 90 80 85; bar 660000 85 105 80 85;
    bar 720000 85 90 80 85; bar 780000 85 101 80 (1005 # 10) ].

(** thirty-two candles around 100.5; [special] overrides single bars *)
Definition flat_bar (t : Z) (px : Q) : Kline :=
  mkKline t px (px + (1 # 10)) (px - (1 # 10)) px 10.

Definition candles (special : nat -> option Kline) (base : nat -> Q) : list Kline :=
  map (fun i => match special i with
                | Some k => k
                | None => flat_bar (Z.of_nat i * 60000) (base i)
                end) (seq 0 32).




(** a long position of 1 with its protective stop at 99, tracked by
    client id *)
Definition stop_order (oid : Z) (cid : string) (sd : string) (px : Q) (upd : Z)
  : Order :=
  mkOrder "BTCUSDT" (Some oid) (Some cid) "STOP_MARKET" sd false true
          (Some px) None "NEW" (Some upd) (Some upd).

Definition tp_order (oid : Z) (cid : string) (sd : string) (px : Q) (upd : Z)
  : Order :=
  mkOrder "BTCUSDT" (Some oid) (Some cid) "TAKE_PROFIT_MARKET" sd true false
          (Some px) (Some (1 # 100)) "NEW" (Some upd) (Some upd).

Definition st_long : RunState :=
  Upd.trailing st_day (Some 99) (Some long) (Some "stop_1"%string) None.

(** entry 100, initial stop 99, price 101.2: 1.2 R, the stop is due at
    break-even *)
Definition trail_params (px : Q) : Trailing.TrailParams :=
  Trailing.mkTrailParams long 100 99 px [].

(** the venue rejects the first placement, accepts the cancel of the old
    stop, and the second placement times out *)
Definition venue_replace_fails : Venue :=
  mkVenue [stop_order 1 "stop_1" "SELL" 99 10] [] [Some 1]
          (mkPremiumJson Absent Absent Absent) "FILLED" 1000 100
          [ mkFault false Applied; mkFault false Rejected;
            mkFault false Applied; mkFault false Dropped ] [].

(** the same venue with every request served *)
Definition venue_long : Venue :=
  quiet_venue [stop_order 1 "stop_1" "SELL" 99 10] [Some 1].

Definition trail_calls : list (Trailing.TrailParams * string) :=
  [ (trail_params (1012 # 10), "trail_1"%string);
    (trail_params (1013 # 10), "trail_2"%string) ].

(** a long position of 1 with its stop and three take-profits resting at
    the same price 110 *)
Definition venue_three_tps : Venue :=
  quiet_venue
    [ stop_order 1 "stop_1" "SELL" 99 10;
      tp_order 11 "tp_a" "SELL" 110 11;
      tp_order 12 "tp_b" "SELL" 110 12;
      tp_order 13 "tp_c" "SELL" 110 13 ]
    [Some 1].

(** the submission is delayed, the first query times out, the order lands
    before the second query *)
Definition venue_entry_delayed : Venue :=
  mkVenue [] [] [] (mkPremiumJson Absent Absent Absent) "FILLED" 1000 100
          [ mkFault false Delayed; mkFault false Dropped; mkFault true Applied ] [].

End Samples.

(** ** Requests of a run *)

Module Traffic.

(** the run of [m] from [v] adds exactly [calls] to the log of requests *)
Definition sends {A} (m : ExM A) (v : Venue) (calls : list Call) : Prop :=
  v_log (snd (m v)) = v_log v ++ calls.

(** the order submissions among the requests, in order *)
Definition submissions (calls : list Call) : list OrderReq :=
  flat_map (fun c => match c with CNewOrder r => [r] | _ => [] end) calls.

(** the cancel requests among the requests, in order *)
Definition cancels (calls : list Call) : list CancelKey :=
  flat_map (fun c => match c with CCancel k => [k] | _ => [] end) calls.

(** [m] never submits an order *)
Definition submits_nothing {A} (m : ExM A) : Prop :=
  forall v, exists calls, sends m v calls /\ submissions calls = [].

(** the request [_cancel(o)] sends for an order: a cancel by order id, or
    nothing when the order carries no id *)
Definition cancel_call (o : Order) : list Call :=
  match o_orderId o with
  | Some oid => [CCancel (ByOrderId oid)]
  | None => []
  end.

End Traffic.

(** ** Risk, sizing and targets *)

(** Further fields of [Config], read by the functions of this part.  A
    clock string ["HH:MM"] is held as the pair that
    [map(int, hm.split(":"))] yields. *)
Record Config2 : Type := mkConfig2 {
  risk_pct : Q;
  max_rr_cap : Q;
  min_rr_to_pool : Q;
  cooldown_minutes_after_loss : Z;
  fee_bps : Q;
  throttle_drawdown1 : Q;
  throttle_drawdown2 : Q;
  throttle_risk1 : Q;
  throttle_risk2 : Q;
  session_active_bonus : Q;
  cross_session_bonus : Q;
  asia_session_start : Z * Z;
  asia_session_end : Z * Z;
  session_london_utc : (Z * Z) * (Z * Z);
  session_newyork_utc : (Z * Z) * (Z * Z)
}.

(** the defaults of the source (no environment override) *)
Definition Config2_0 : Config2 := {|
  risk_pct := 5 # 1000;
  max_rr_cap := 4;
  min_rr_to_pool := 12 # 10;
  cooldown_minutes_after_loss := 20;
  fee_bps := 5;
  throttle_drawdown1 := 2 # 100;
  throttle_drawdown2 := 5 # 100;
  throttle_risk1 := 1 # 2;
  throttle_risk2 := 1 # 4;
  session_active_bonus := 6 # 100;
  cross_session_bonus := 8 # 100;
  asia_session_start := (0, 0)%Z;
  asia_session_end := (8, 0)%Z;
  session_london_utc := ((7, 0), (16, 0))%Z;
  session_newyork_utc := ((12, 0), (21, 0))%Z
|}.

Module Risk.

(** [throttle_risk(equity, st, cfg)]; the argument [equity] is not read *)
Definition throttle_risk (equity : Q) (st : RunState) (cfg : Config2) : Q :=
  let cur_equity := day_start_equity st + realized_today st in
  let dd := pmax 0 ((day_start_equity st - cur_equity)
                    / pmax EPS (day_start_equity st)) in
  let rp := risk_pct cfg in
  if Qle_bool (throttle_drawdown2 cfg) dd then rp * throttle_risk2 cfg
  else if Qle_bool (throttle_drawdown1 cfg) dd then rp * throttle_risk1 cfg
  else rp.

(** [cooldown_active(st, cfg)] *)
Definition cooldown_active (st : RunState) (cfg : Config2) : bool :=
  match last_loss_server_ms st, last_server_ms st with
  | Some loss_ms, Some server_ms =>
      Qltb (inject_Z (server_ms - loss_ms) / 60000)
           (inject_Z (cooldown_minutes_after_loss cfg))
  | _, _ => false
  end.

End Risk.

Module Targets.

Import Pools.

(** [pool_scoring_v2(pools, ref_price, htf_mult, prox_win_bps, htf_tags)] *)
Definition pool_scoring_v2 (pools : list Level) (ref_price htf_mult prox_win_bps : Q)
    (htf_tags : list string) : Q :=
  match pools with
  | [] => 0
  | _ =>
      let tags_set := map (fun t => Str.upper (Str.strip t)) htf_tags in
      fold_left (fun s t =>
        let tupan := Str.upper (Str.strip (lv_tag t)) in
        let prox :=
          clamp (1 - bps_distance (lv_price t) ref_price
                     / pmax (1 # 1000000) prox_win_bps) 0 1 in
        let htf := if existsb (String.eqb tupan) tags_set then htf_mult else 1 in
        s + lv_weight t * prox * htf) pools 0
  end.

(** the pool nearest to the entry on the profit side, and whether it is
    at least [min_rr_to_pool] stop distances away *)
Definition nearest_pool (entry_px : Q) (side : Side) (pools_up pools_dn : list Level)
  : option Q :=
  let dir_pools :=
    List.filter (fun p => match side with
                          | long => Qltb entry_px p
                          | short => Qltb p entry_px
                          end)
                (map lv_price (match side with long => pools_up | short => pools_dn end)) in
  Py.min_by (fun x => Qabs (x - entry_px)) dir_pools.

Definition pool_qualifies (cfg : Config2) (entry_px stop_dist : Q) (nearest : option Q)
  : bool :=
  match nearest with
  | Some n => Qle_bool (min_rr_to_pool cfg) (Qabs (n - entry_px) / pmax EPS stop_dist)
  | None => false
  end.

(** [choose_tp_aligned_tuned(entry, stop, side, rr_target, pools_up,
    pools_dn, cfg, tick)]: [(final_tp, partial_tp)] *)
Definition choose_tp_aligned_tuned (entry_px stop : Q) (side : Side) (rr : Q)
    (pools_up pools_dn : list Level) (cfg : Config2) (tick : Q) : Q * option Q :=
  let stop_dist := Qabs (entry_px - stop) in
  let fee_mult := pmax 0 (1 - fee_bps cfg / 10000 * 2) in
  let adj_rr := rr * fee_mult in
  let cap := clamp (max_rr_cap cfg) (1 # 2) 10 in
  let base_tp :=
    match side with
    | long => entry_px + adj_rr * stop_dist
    | short => entry_px - adj_rr * stop_dist
    end in
  let cap_tp :=
    match side with
    | long => entry_px + cap * stop_dist
    | short => entry_px - cap * stop_dist
    end in
  let nearest := nearest_pool entry_px side pools_up pools_dn in
  let ok := pool_qualifies cfg entry_px stop_dist nearest in
  let snapped :=
    match nearest with
    | Some n =>
        if ok then match side with long => pmin base_tp n | short => pmax base_tp n end
        else base_tp
    | None => base_tp
    end in
  let capped :=
    match side with long => pmin snapped cap_tp | short => pmax snapped cap_tp end in
  let at_pool := match nearest with Some n => if ok then Some n else None | None => None end in
  let partial_raw :=
    match at_pool with
    | Some n => Some n
    | None =>
        let oneR := match side with
                    | long => entry_px + stop_dist
                    | short => entry_px - stop_dist
                    end in
        if match side with long => Qltb oneR capped | short => Qltb capped oneR end
        then Some oneR else None
    end in
  let s := match side with long => buy | short => sell end in
  let final_tp := side_round capped tick s entry in
  let partial_tp :=
    match partial_raw with
    | Some p =>
        let pr := side_round p tick s entry in
        if Qltb (Qabs (pr - final_tp)) (pmax EPS tick / 2) then None else Some pr
    | None => None
    end in
  (final_tp, partial_tp).

End Targets.

(** ** Sessions *)

Module Sessions.

(** [in_span(hm_start, hm_end)] of [active_sessions_utc] at minute [mins] *)
Definition in_span (mins : Z) (hm_start hm_end : Z * Z) : bool :=
  let smin := (fst hm_start * 60 + snd hm_start)%Z in
  let emin := (fst hm_end * 60 + snd hm_end)%Z in
  if (smin <=? emin)%Z then ((smin <=? mins) && (mins <? emin))%Z
  else ((smin <=? mins) || (mins <? emin))%Z.

(** [active_sessions_utc(mins, cfg)] *)
Definition active_sessions_utc (mins : Z) (cfg : Config2) : gset string :=
  let out : gset string := ∅ in
  let out := if in_span mins (asia_session_start cfg) (asia_session_end cfg)
             then out ∪ {["asia"%string]} else out in
  let out := if in_span mins (fst (session_london_utc cfg)) (snd (session_london_utc cfg))
             then out ∪ {["london"%string]} else out in
  let out := if in_span mins (fst (session_newyork_utc cfg)) (snd (session_newyork_utc cfg))
             then out ∪ {["newyork"%string]} else out in
  if decide (out = ∅) then {["off"%string]} else out.

(** how many of the three configured sessions contain the minute *)
Definition active_count (mins : Z) (cfg : Config2) : nat :=
  ((if in_span mins (asia_session_start cfg) (asia_session_end cfg) then 1 else 0)
   + (if in_span mins (fst (session_london_utc cfg)) (snd (session_london_utc cfg))
      then 1 else 0)
   + (if in_span mins (fst (session_newyork_utc cfg)) (snd (session_newyork_utc cfg))
      then 1 else 0))%nat.

(** [session_soft_bonus(sessions, cfg)] *)
Definition session_soft_bonus (sessions : gset string) (cfg : Config2) : Q :=
  if decide ("off"%string ∈ sessions) then 0
  else
    let b := session_active_bonus cfg in
    if (1 <? size sessions)%nat then b + cross_session_bonus cfg else b.

End Sessions.

(** ** Signal book *)

Module Book.

(** a [dict] from strings to integers, as the list of its items in
    insertion order (the keys are distinct) *)
Definition Dict : Type := list (string * Z).

(** [_trim_dedupe_book(d, keep_latest)] *)
Definition trim_dedupe_book (d : Dict) (keep_latest : Z) : Dict :=
  if (Z.of_nat (length d) <=? keep_latest)%Z then d
  else Py.slice_to keep_latest (Py.sort_by (fun a b => (snd b <=? snd a)%Z) d).

End Book.

(** ** Exit hygiene *)

Module Hygiene.

Import Reconcile.

(** [cancel_all_reduce_only_tps(ex, cfg, keep_side)] *)
Definition cancel_all_reduce_only_tps (cfg : Config) (keep_side : option string)
  : ExM unit :=
  try_catch
    (let* oo := open_orders (symbol cfg) in
     for_each (fun o =>
       if is_tp o then
         match keep_side with
         | Some ks =>
             if negb (String.eqb ks EmptyString)
                && negb (String.eqb (Str.upper (o_side o)) (Str.upper ks))
             then ret tt else cancel_ cfg o
         | None => cancel_ cfg o
         end
       else ret tt) oo)
    (fun _ => ret tt).

(** [cancel_all_protective_stops(ex, cfg, keep_close_position)] *)
Definition cancel_all_protective_stops (cfg : Config) (keep_close_position : bool)
  : ExM unit :=
  try_catch
    (let* oo := open_orders (symbol cfg) in
     for_each (fun o =>
       if is_prot o then
         if keep_close_position then ret tt else cancel_ cfg o
       else ret tt) oo)
    (fun _ => ret tt).

(** the take-profits [cancel_all_reduce_only_tps] goes after *)
Definition tp_targets (keep_side : option string) (oo : list Order) : list Order :=
  List.filter (fun o =>
    is_tp o
    && match keep_side with
       | Some ks =>
           String.eqb ks EmptyString
           || String.eqb (Str.upper (o_side o)) (Str.upper ks)
       | None => true
       end) oo.

End Hygiene.

(** ** Market structure *)

Module Structure.

(** [xs[a:b]] for [0 <= a <= b] *)
Definition slice (xs : list Q) (a b : nat) : list Q := firstn (b - a) (skipn a xs).

(** the tests of [last_pivot_high_low] at bar [j]; an empty slice (which
    needs [window = 0]) makes the source raise, the model answers
    [false] there *)
Definition pivot_high_at (H : list Q) (window j : nat) : bool :=
  match Py.qmax_list (slice H (j - window) j),
        Py.qmax_list (slice H (j + 1) (j + window + 1)) with
  | Some ml, Some mr => Qltb ml (at_ H j) && Qle_bool mr (at_ H j)
  | _, _ => false
  end.

Definition pivot_low_at (L : list Q) (window j : nat) : bool :=
  match Py.qmin_list (slice L (j - window) j),
        Py.qmin_list (slice L (j + 1) (j + window + 1)) with
  | Some ml, Some mr => Qltb (at_ L j) ml && Qle_bool (at_ L j) mr
  | _, _ => false
  end.

(** [last_pivot_high_low(df, window)] for [window >= 1] *)
Definition last_pivot_high_low (df : DataFrame) (window : nat)
  : option Q * option Q :=
  if (length df <? 2 * window + 1)%nat then (None, None)
  else
    let start := (length df - window - 1)%nat in
    let js := Py.range_down start (window - 1) in
    (Py.first_some (fun j => if pivot_high_at (highs df) window j
                             then Some (at_ (highs df) j) else None) js,
     Py.first_some (fun j => if pivot_low_at (lows df) window j
                             then Some (at_ (lows df) j) else None) js).

End Structure.

(** ** Clock drift *)

Module Drift.

(** [measure_drift_median3(ex)] on the outcomes of its three samples:
    [Some d] is a measured [t_server - now_ms()], [None] a failed
    request *)
Definition measure_drift_median3 (r1 r2 r3 : option Z) : Z :=
  let samples := flat_map (fun r => match r with Some d => [d] | None => [] end)
                          [r1; r2; r3] in
  match samples with
  | [] => 0%Z
  | _ => nth (length samples / 2) (Py.sort_by Z.leb samples) 0%Z
  end.

End Drift.

(** ** Further sample data *)

Module Samples2.

Import Samples.

(** thirty-two one-minute candles between 99.9 and 100.1 that all close
    on their high *)
Definition kl_range : list Kline :=
  candles (fun i => Some (mkKline (Z.of_nat i * 60000) 100 (1001 # 10) (999 # 10)
                                  (1001 # 10) 10))
          (fun _ => 100).

(** five candles with a bullish gap between the high 11 of the first and
    the low 12 of the third *)
Definition kl_gap : list Kline :=
  [ bar 0 10 11 9 10; bar 60000 10 12 10 12; bar 120000 12 13 12 13;
    bar 180000 13 13 12 13; bar 240000 13 13 12 13 ].

(** no position; a stop and a take-profit are still resting *)
Definition orders_flat : list Order :=
  [ stop_order 1 "stop_1" "SELL" 99 10; tp_order 11 "tp_a" "SELL" 110 11 ].

Definition venue_flat : Venue := quiet_venue orders_flat [Some 0].

(** a long position of 1 with two sell-side close-position stops, the
    second updated last *)
Definition orders_two_stops : list Order :=
  [ stop_order 1 "stop_1" "SELL" 99 10; stop_order 2 "stop_2" "SELL" (995 # 10) 20 ].

Definition venue_two_stops : Venue := quiet_venue orders_two_stops [Some 1].

End Samples2.

(** * Part II: properties *)

Import Num Price Candles.
Local Open Scope Q_scope.

Module NumFacts.
Lemma Qltb_lt x y : Qltb x y = true <-> x < y.
Proof.
  unfold Qltb. rewrite negb_true_iff. split; intros H.
  - apply Qnot_le_lt. intros Hle. apply Qle_bool_iff in Hle. congruence.
  - destruct (Qle_bool y x) eqn:E; [|reflexivity].
    apply Qle_bool_iff in E. exfalso. apply (Qlt_not_le _ _ H E).
Qed.

Lemma Qltb_ge x y : Qltb x y = false <-> y <= x.
Proof.
  unfold Qltb. rewrite negb_false_iff. apply Qle_bool_iff.
Qed.

Lemma pmax_spec a b : (a < b /\ pmax a b = b) \/ (b <= a /\ pmax a b = a).
Proof.
  unfold pmax. destruct (Qltb a b) eqn:E.
  - left. split; [now apply Qltb_lt | reflexivity].
  - right. split; [now apply Qltb_ge | reflexivity].
Qed.

Lemma pmin_spec a b : (b < a /\ pmin a b = b) \/ (a <= b /\ pmin a b = a).
Proof.
  unfold pmin. destruct (Qltb b a) eqn:E.
  - left. split; [now apply Qltb_lt | reflexivity].
  - right. split; [now apply Qltb_ge | reflexivity].
Qed.

Lemma pmax_lb_l a b : a <= pmax a b.
Proof. destruct (pmax_spec a b) as [[H ->]|[H ->]]; lra. Qed.

Lemma pmax_lb_r a b : b <= pmax a b.
Proof. destruct (pmax_spec a b) as [[H ->]|[H ->]]; lra. Qed.

Lemma pmin_ub_l a b : pmin a b <= a.
Proof. destruct (pmin_spec a b) as [[H ->]|[H ->]]; lra. Qed.

Lemma pmin_ub_r a b : pmin a b <= b.
Proof. destruct (pmin_spec a b) as [[H ->]|[H ->]]; lra. Qed.

Lemma EPS_pos : 0 < EPS.
Proof. reflexivity. Qed.

Lemma pmax_EPS_pos x : 0 < pmax EPS x.
Proof. pose proof (pmax_lb_l EPS x). pose proof EPS_pos. lra. Qed.

Lemma pmax_Qeq e x y : x == y -> pmax e x == pmax e y.
Proof.
  intros H. unfold pmax, Qltb. rewrite (Qleb_comp _ _ H e e (Qeq_refl e)).
  destruct (Qle_bool y e); [reflexivity | exact H].
Qed.

Lemma pmax_mono_r a b c : b <= c -> pmax a b <= pmax a c.
Proof.
  intros H.
  destruct (pmax_spec a b) as [[H1 ->]|[H1 ->]];
    destruct (pmax_spec a c) as [[H2 ->]|[H2 ->]]; lra.
Qed.

Lemma Qdiv_le_mono a b d : 0 < d -> a <= b -> a / d <= b / d.
Proof.
  intros Hd Hab. unfold Qdiv. apply Qmult_le_compat_r; [exact Hab|].
  apply Qlt_le_weak, Qinv_lt_0_compat, Hd.
Qed.
End NumFacts.
Import NumFacts.

(** ** Lists *)

Module ListFacts.

Lemma SSorted_app_inv {A} (R : A -> A -> Prop) l1 l2 :
  StronglySorted R (l1 ++ l2) ->
  StronglySorted R l1 /\ StronglySorted R l2
  /\ (forall a b, In a l1 -> In b l2 -> R a b).
Proof.
  induction l1 as [|x l1 IH]; cbn; intros H.
  - repeat split; [constructor | exact H | intros a b []].
  - inversion H as [|? ? Hs Hf]; subst.
    destruct (IH Hs) as (H1 & H2 & H3).
    repeat split; [| exact H2 |].
    + constructor; [exact H1|].
      rewrite List.Forall_forall in *. intros y Hy. apply Hf, in_or_app. now left.
    + intros a b [<-|Ha] Hb.
      * rewrite List.Forall_forall in Hf. apply Hf, in_or_app. now right.
      * now apply H3.
Qed.

Lemma SSorted_snoc {A} (R : A -> A -> Prop) l x :
  StronglySorted R l -> (forall a, In a l -> R a x) ->
  StronglySorted R (l ++ [x]).
Proof.
  induction l as [|y l IH]; cbn; intros Hs Hx.
  - repeat constructor.
  - inversion Hs as [|? ? Hs' Hf]; subst. constructor.
    + apply IH; [exact Hs'|]. intros a Ha. apply Hx. now right.
    + rewrite List.Forall_forall in *. intros a Ha.
      apply in_app_or in Ha as [Ha|[<-|[]]]; [now apply Hf|].
      apply Hx. now left.
Qed.

Lemma SSorted_skipn {A} (R : A -> A -> Prop) n l :
  StronglySorted R l -> StronglySorted R (skipn n l).
Proof.
  revert l. induction n as [|n IH]; intros l Hs; [exact Hs|].
  destruct l as [|x l]; [constructor|].
  cbn. apply IH. now inversion Hs.
Qed.

Lemma In_skipn {A} n (l : list A) x : In x (skipn n l) -> In x l.
Proof.
  revert l. induction n as [|n IH]; intros l H; [exact H|].
  destruct l as [|y l]; [destruct H|]. right. now apply IH.
Qed.

Lemma last_opt_snoc {A} (l : list A) x : Py.last_opt (l ++ [x]) = Some x.
Proof. unfold Py.last_opt. now rewrite rev_app_distr. Qed.

Lemma last_opt_In {A} (l : list A) x : Py.last_opt l = Some x -> In x l.
Proof.
  unfold Py.last_opt. intros H. apply in_rev.
  destruct (rev l); inversion H. now left.
Qed.

Lemma last_opt_None {A} (l : list A) : Py.last_opt l = None -> l = [].
Proof.
  unfold Py.last_opt. intros H. destruct (rev l) eqn:E; [|discriminate].
  rewrite <- (rev_involutive l), E. reflexivity.
Qed.

Lemma SSorted_app {A} (R : A -> A -> Prop) l1 l2 :
  StronglySorted R l1 -> StronglySorted R l2 ->
  (forall a b, In a l1 -> In b l2 -> R a b) ->
  StronglySorted R (l1 ++ l2).
Proof.
  induction l1 as [|x l1 IH]; cbn; intros H1 H2 Hc; [exact H2|].
  inversion H1 as [|? ? Hs Hf]; subst. constructor.
  - apply IH; [exact Hs | exact H2 |]. intros a b Ha Hb. apply Hc; [now right | exact Hb].
  - rewrite List.Forall_forall in *. intros y Hy.
    apply in_app_or in Hy as [Hy|Hy]; [now apply Hf|].
    apply Hc; [now left | exact Hy].
Qed.

Lemma best_by_In {A} (better : A -> A -> bool) l : forall cur,
  In (Py.best_by better cur l) (cur :: l).
Proof.
  induction l as [|x l IH]; intros cur; cbn; [now left|].
  destruct (IH (if better x cur then x else cur)) as [H|H].
  - destruct (better x cur); rewrite <- H; [right; now left | now left].
  - right. now right.
Qed.


Lemma first_some_inv {A B} (f : A -> option B) l b :
  Py.first_some f l = Some b -> exists x, In x l /\ f x = Some b.
Proof.
  induction l as [|y l IH]; cbn; [discriminate|].
  destruct (f y) as [b0|] eqn:E; intros H.
  - inversion H; subst. exists y. split; [now left | exact E].
  - destruct (IH H) as (x & H1 & H2). exists x. split; [now right | exact H2].
Qed.

Lemma insert_by_In {A} (leb : A -> A -> bool) x l y :
  In y (Py.insert_by leb x l) <-> y = x \/ In y l.
Proof.
  induction l as [|z l IH]; cbn.
  - split; [intros [<-|[]]; now left | intros [->|[]]; now left].
  - destruct (leb x z); cbn.
    + split; [intros [<-|H]; [now left | now right] | intros [->|H]; [now left | now right]].
    + rewrite IH. split.
      * intros [<-|[->|H]]; [right; now left | now left | right; now right].
      * intros [->|[<-|H]]; [right; now left | now left | right; now right].
Qed.

Lemma sort_by_In {A} (leb : A -> A -> bool) l y :
  In y (Py.sort_by leb l) <-> In y l.
Proof.
  induction l as [|x l IH]; cbn; [reflexivity|].
  rewrite insert_by_In, IH. split; intros [H|H]; auto.
Qed.



(** *** order of the lists the loops run over *)







End ListFacts.

(** ** Tick rounding *)

Module RoundFacts.

Import NumFacts.

Lemma decimals_from_ge fuel : forall d tick, (d <= decimals_from fuel d tick)%Z.
Proof.
  induction fuel as [|k IH]; intros d tick; cbn; [lia|].
  destruct (is_integral _); [lia|]. specialize (IH (d + 1)%Z tick). lia.
Qed.

Lemma decimals_nonneg tick : (0 <= decimals_for_tick tick)%Z.
Proof. apply decimals_from_ge. Qed.

Lemma pow10_pos d : (0 <= d)%Z -> 0 < pow10 d.
Proof.
  intros H. unfold pow10.
  change 0 with (inject_Z 0). rewrite <- Zlt_Qlt. now apply Z.pow_pos_nonneg.
Qed.

Lemma is_integral_spec x : is_integral x = true <-> inject_Z (Qfloor x) == x.
Proof. unfold is_integral. apply Qeq_bool_iff. Qed.

Lemma is_integral_scale m x :
  is_integral x = true -> is_integral (inject_Z m * x) = true.
Proof.
  rewrite !is_integral_spec. intros H.
  assert (E : inject_Z m * x == inject_Z (m * Qfloor x)).
  { rewrite inject_Z_mult, H. reflexivity. }
  rewrite (Qfloor_comp _ _ E), Qfloor_Z. now rewrite E.
Qed.

Lemma is_integral_Qeq x y : x == y -> is_integral x = is_integral y.
Proof.
  intros E. unfold is_integral. rewrite (Qfloor_comp _ _ E).
  destruct (Qeq_bool (inject_Z (Qfloor y)) x) eqn:A,
           (Qeq_bool (inject_Z (Qfloor y)) y) eqn:B; try reflexivity.
  - apply Qeq_bool_iff in A.
    assert (B' : inject_Z (Qfloor y) == y) by (now rewrite A).
    apply Qeq_bool_iff in B'. congruence.
  - apply Qeq_bool_iff in B.
    assert (A' : inject_Z (Qfloor y) == x) by (rewrite B; now symmetry).
    apply Qeq_bool_iff in A'. congruence.
Qed.

Lemma round_half_even_integral y :
  is_integral y = true -> round_half_even y = Qfloor y.
Proof.
  rewrite is_integral_spec. intros H. unfold round_half_even.
  assert (E : y - inject_Z (Qfloor y) == 0) by (rewrite H; ring).
  assert (C : Qcompare (y - inject_Z (Qfloor y)) (1 # 2) = Lt).
  { rewrite <- Qlt_alt. rewrite E. reflexivity. }
  now rewrite C.
Qed.

(** rounding to [d] decimals leaves a number with at most [d] decimals
    unchanged *)
Lemma round_integral x d :
  (0 <= d)%Z -> is_integral (x * pow10 d) = true -> round x d == x.
Proof.
  intros Hd Hi. unfold round. rewrite Qred_correct.
  rewrite (round_half_even_integral _ Hi).
  apply is_integral_spec in Hi. rewrite Hi.
  pose proof (pow10_pos d Hd). field. lra.
Qed.

Lemma pmax_EPS_tick tick : EPS < tick -> pmax EPS tick = tick.
Proof. intros H. unfold pmax. apply Qltb_lt in H. now rewrite H. Qed.

Lemma tick_pos tick : decimal_tick tick -> 0 < tick.
Proof. intros [H _]. pose proof EPS_pos. lra. Qed.

Lemma tick_not_le0 tick : decimal_tick tick -> Qle_bool tick 0 = false.
Proof.
  intros H. pose proof (tick_pos tick H).
  destruct (Qle_bool tick 0) eqn:E; [|reflexivity].
  apply Qle_bool_iff in E. lra.
Qed.

(** on a decimal tick [side_round] is the floor or the ceiling to the
    tick grid *)
Lemma side_round_grid price tick side favor :
  decimal_tick tick ->
  side_round price tick side favor ==
  match side, favor with
  | buy, entry | sell, protection => inject_Z (floor (price / tick)) * tick
  | buy, protection | sell, entry => inject_Z (ceil (price / tick)) * tick
  end.
Proof.
  intros Ht. unfold side_round. rewrite (tick_not_le0 _ Ht).
  destruct Ht as [He Hi]. rewrite (pmax_EPS_tick _ He).
  destruct side, favor; apply round_integral;
    try apply decimals_nonneg;
    rewrite (is_integral_Qeq _ _ (Qeq_sym _ _ (Qmult_assoc _ _ _)));
    now apply is_integral_scale.
Qed.

End RoundFacts.

(** ** Daily guardrail *)

Module GuardFacts.

Import Guard Samples.

Lemma blocked_iff st cfg :
  daily_guardrails_blocked st cfg = true <->
  (max_trades_per_day cfg <= trades_today st)%Z \/
  max_daily_loss_pct cfg <= loss_fraction st.
Proof.
  unfold daily_guardrails_blocked, loss_fraction.
  destruct (Z.leb_spec (max_trades_per_day cfg) (trades_today st)) as [Ht|Ht].
  - split; [intros _; left; exact Ht | reflexivity].
  - destruct (Qle_bool _ _) eqn:E.
    + split; [intros _; right; now apply Qle_bool_iff | reflexivity].
    + split; [discriminate|].
      intros [H|H]; [lia|]. apply Qle_bool_iff in H. congruence.
Qed.

Lemma loss_fraction_mono st st' :
  day_start_equity st' = day_start_equity st ->
  realized_today st' <= realized_today st ->
  loss_fraction st <= loss_fraction st'.
Proof.
  intros He Hr. unfold loss_fraction. rewrite He.
  apply Qdiv_le_mono; [apply pmax_EPS_pos|].
  apply pmax_mono_r. lra.
Qed.

(** C5, as the code has it: the guardrail blocks exactly when the trade
    count reached the maximum or the NET realized loss of the day
    ([max(0, -realized_today)], where [realized_today] sums gains and
    losses) over [max(EPS, day_start_equity)] reached the maximum loss
    fraction; once the loss condition holds, the block persists in every
    later state of the same day whose [realized_today] is not higher. *)
Theorem daily_guardrails_net_loss st cfg :
  (daily_guardrails_blocked st cfg = true <->
   (max_trades_per_day cfg <= trades_today st)%Z \/
   max_daily_loss_pct cfg <= loss_fraction st)
  /\ (forall st',
        max_daily_loss_pct cfg <= loss_fraction st ->
        day_start_equity st' = day_start_equity st ->
        realized_today st' <= realized_today st ->
        daily_guardrails_blocked st' cfg = true).
Proof.
  split; [apply blocked_iff|].
  intros st' Hl He Hr. apply blocked_iff. right.
  pose proof (loss_fraction_mono st st' He Hr). lra.
Qed.

(** the persistence part at a concrete day: a loss of 40 on 1000 of
    equity, then a further loss *)
Lemma daily_guardrails_net_loss_witness :
  daily_guardrails_blocked
    (run_updates (run_updates st_day evs_loss)
       [(1762214404000%Z, [mkPosUpdate "BTCUSDT" (Some (- (55)))])])
    Config0 = true.
Proof.
  apply (proj2 (daily_guardrails_net_loss (run_updates st_day evs_loss) Config0)).
  - vm_compute. discriminate.
  - reflexivity.
  - vm_compute. discriminate.
Defined.

(** C5 as stated fails: after a realized loss of 4 percent of day-start
    equity the guardrail blocks, with no trade counted; a realized gain
    later the same day nets the loss down to 1 percent and the guardrail
    lets candidates through again. *)
Lemma daily_guardrails_gain_unblocks :
  daily_guardrails_blocked (run_updates st_day evs_loss) Config0 = true
  /\ trades_today (run_updates st_day evs_loss) = 0%Z
  /\ Qle_bool (max_daily_loss_pct Config0)
              (loss_fraction (run_updates st_day evs_loss)) = true
  /\ daily_guardrails_blocked
       (run_updates (run_updates st_day evs_loss) evs_gain) Config0 = false.
Proof. vm_compute. repeat split. Qed.

End GuardFacts.

(** ** Funding gate *)

Module FundingFacts.

Import Funding Samples.

(** C6, as the code has it: with funding awareness on and a reply from
    the premium-index endpoint, the gate blocks (reason time_unknown, no
    penalty, risk multiplier 1) when the next funding time is unknown or
    when no server-time sample exists. *)
Theorem funding_gate_unknown_time_blocks st cfg v j v' :
  funding_aware_enable cfg = true ->
  premium_index (symbol cfg) v = (Ok j, v') ->
  nft_of j = None \/ last_server_ms st = None ->
  funding_gate st cfg v
  = (Ok (true, 0, 1, mkFundMeta (Some "time_unknown"%string) None None), v').
Proof.
  intros Hen Hpi Hunk.
  unfold funding_gate. rewrite Hen. cbn [negb].
  unfold current_funding_info, bind. rewrite Hpi.
  unfold nft_of in Hunk.
  destruct (parse_funding j) as [[r nft]|]; unfold ret.
  - destruct nft as [t|]; [|reflexivity].
    destruct Hunk as [H|H]; [discriminate|]. rewrite H. reflexivity.
  - reflexivity.
Qed.

Lemma funding_gate_unknown_time_blocks_witness :
  funding_gate RunState0 Config0 venue_funding
  = (Ok (true, 0, 1, mkFundMeta (Some "time_unknown"%string) None None),
     snd (premium_index (symbol Config0) venue_funding)).
Proof.
  apply (funding_gate_unknown_time_blocks RunState0 Config0 venue_funding
           (v_premium venue_funding)).
  - reflexivity.
  - reflexivity.
  - right. reflexivity.
Defined.

(** C6 as stated fails: the venue reports the next funding time, the bot
    has no server-time sample, and the gate blocks. *)
Lemma funding_gate_blocks_without_server_time :
  last_server_ms RunState0 = None
  /\ nft_of (v_premium venue_funding) = Some 1762243200000%Z
  /\ blocked (fst (funding_gate RunState0 Config0 venue_funding)) = Some true.
Proof. vm_compute. repeat split. Qed.

End FundingFacts.

(** ** Pattern detector *)

Module DetectorFacts.

Import Detector Samples NumFacts ListFacts RoundFacts.




(** *** the close-back bar *)






(** *** the imbalance *)















End DetectorFacts.

(** ** Level builder *)

Module PoolsFacts.

Import Pools Samples NumFacts ListFacts.

(** *** the insertion sort *)

Lemma insert_sorted x l :
  StronglySorted Qle l -> StronglySorted Qle (Py.insert_by Qle_bool x l).
Proof.
  induction l as [|y l IH]; cbn; intros Hs.
  - repeat constructor.
  - inversion Hs as [|? ? Hs' Hf]; subst.
    destruct (Qle_bool x y) eqn:E.
    + apply Qle_bool_iff in E. constructor; [exact Hs|].
      constructor; [exact E|].
      rewrite List.Forall_forall in *. intros z Hz. specialize (Hf z Hz). lra.
    + assert (Hyx : y <= x).
      { destruct (Qlt_le_dec y x) as [H|H]; [lra|].
        apply Qle_bool_iff in H. congruence. }
      constructor; [now apply IH|].
      rewrite List.Forall_forall in *. intros z Hz.
      apply insert_by_In in Hz as [->|Hz]; [exact Hyx | now apply Hf].
Qed.

Lemma sorted_sorted l : StronglySorted Qle (Py.sorted l).
Proof.
  unfold Py.sorted, Py.sort_by. induction l as [|x l IH]; cbn.
  - constructor.
  - now apply insert_sorted.
Qed.

(** *** grouping *)

Lemma group_bps_concat tol lv : forall cur done,
  concat (group_bps tol cur done lv) = concat (rev done) ++ rev cur ++ lv.
Proof.
  induction lv as [|p r IH]; intros cur done; cbn [group_bps].
  - change (rev (rev cur :: done)) with (rev done ++ [rev cur]).
    rewrite concat_app. cbn. now rewrite !app_nil_r.
  - destruct cur as [|prev cur'].
    + rewrite IH. reflexivity.
    + destruct (within_bps p prev tol); rewrite IH.
      * cbn [rev]. now rewrite <- !app_assoc.
      * cbn [rev]. rewrite concat_app. cbn. now rewrite app_nil_r, <- !app_assoc.
Qed.

Lemma group_rep_In g x : In x (group_rep g) -> In x g.
Proof.
  unfold group_rep, Py.min_by. destruct g as [|y g]; [intros []|].
  intros [<-|[]]. apply best_by_In.
Qed.

Lemma group_rep_short g : (length (group_rep g) <= 1)%nat.
Proof. unfold group_rep. destruct (Py.min_by _ g); cbn; lia. Qed.

Lemma short_sorted {A} (R : A -> A -> Prop) l :
  (length l <= 1)%nat -> StronglySorted R l.
Proof.
  destruct l as [|x [|y l]]; cbn; intros H; [constructor| |lia].
  repeat constructor.
Qed.

Lemma reps_sorted gs :
  StronglySorted Qle (concat gs) -> StronglySorted Qle (flat_map group_rep gs).
Proof.
  induction gs as [|g gs IH]; cbn; intros H; [constructor|].
  apply SSorted_app_inv in H as (_ & H2 & Hc).
  apply SSorted_app; [apply short_sorted, group_rep_short | now apply IH |].
  intros a b Ha Hb. apply Hc; [now apply group_rep_In|].
  apply in_flat_map in Hb as (g' & Hg' & Hb).
  apply in_concat. exists g'. split; [exact Hg' | now apply group_rep_In].
Qed.

Lemma cluster_levels_sorted levels tol :
  StronglySorted Qle (cluster_levels_bps levels tol).
Proof.
  unfold cluster_levels_bps. pose proof (sorted_sorted levels) as Hs.
  destruct (Py.sorted levels) as [|p0 r]; [constructor|].
  apply reps_sorted. rewrite group_bps_concat. exact Hs.
Qed.

(** *** the pick of one level per kept price *)











(** *** the representative of a group *)



(** *** the level picked for a kept price *)





















End PoolsFacts.

(** ** Candle buffers *)

Module FeedFacts.

Import Feed Samples ListFacts.

Lemma run_cons cfg st m msgs :
  run cfg st (m :: msgs) = run cfg (on_message cfg (fst m) st (snd m)) msgs.
Proof. reflexivity. Qed.

Lemma on_message_1m cfg now st msg :
  kl_1m (on_message cfg now st msg) = feed (kl_1m st) (accepted cfg true msg).
Proof.
  unfold on_message, accepted.
  destruct (data msg) as [[s x k|s b a|]|]; try reflexivity.
  - destruct (x && _); [|reflexivity].
    destruct (Str.endswith (stream msg) "kline_1m"); [reflexivity|].
    destruct (Str.endswith (stream msg) "kline_5m"); reflexivity.
  - destruct (String.eqb _ _); [|reflexivity].
    destruct b, a; reflexivity.
Qed.

Lemma on_message_5m cfg now st msg :
  kl_5m (on_message cfg now st msg) = feed (kl_5m st) (accepted cfg false msg).
Proof.
  unfold on_message, accepted.
  destruct (data msg) as [[s x k|s b a|]|]; try reflexivity.
  - destruct (x && _); [|reflexivity].
    destruct (Str.endswith (stream msg) "kline_1m"); [reflexivity|].
    destruct (Str.endswith (stream msg) "kline_5m"); reflexivity.
  - destruct (String.eqb _ _); [|reflexivity].
    destruct b, a; reflexivity.
Qed.

Lemma feed_app buf ks1 ks2 : feed buf (ks1 ++ ks2) = feed (feed buf ks1) ks2.
Proof. apply fold_left_app. Qed.

Lemma run_1m cfg msgs : forall st,
  kl_1m (run cfg st msgs) = feed (kl_1m st) (delivered_1m cfg msgs).
Proof.
  induction msgs as [|m msgs IH]; intros st; [reflexivity|].
  rewrite run_cons, IH, on_message_1m. unfold delivered_1m. cbn [flat_map].
  now rewrite feed_app.
Qed.

Lemma run_5m cfg msgs : forall st,
  kl_5m (run cfg st msgs) = feed (kl_5m st) (delivered_5m cfg msgs).
Proof.
  induction msgs as [|m msgs IH]; intros st; [reflexivity|].
  rewrite run_cons, IH, on_message_5m. unfold delivered_5m. cbn [flat_map].
  now rewrite feed_app.
Qed.

(** the last entry of a strictly increasing buffer is its largest *)
Lemma last_is_max buf l :
  StronglySorted Z.lt (open_times buf) -> Py.last_opt buf = Some l ->
  forall b, In b buf -> (k_time b <= k_time l)%Z.
Proof.
  intros Hs Hl b Hb.
  destruct (exists_last (l:=buf)) as (buf' & l' & ->).
  { intros ->. discriminate. }
  rewrite last_opt_snoc in Hl. inversion Hl; subst l'.
  apply in_app_or in Hb as [Hb|[<-|[]]]; [|lia].
  unfold open_times in Hs. rewrite map_app in Hs.
  apply SSorted_app_inv in Hs as (_ & _ & H).
  apply Z.lt_le_incl, H; [now apply in_map | now left].
Qed.

(** one append keeps a strictly increasing buffer strictly increasing
    when the candle is not older than the buffer *)
Lemma append_dedup_sorted buf k :
  StronglySorted Z.lt (open_times buf) ->
  (forall b, In b buf -> (k_time b <= k_time k)%Z) ->
  StronglySorted Z.lt (open_times (append_dedup buf k))
  /\ (forall b, In b (append_dedup buf k) -> (k_time b <= k_time k)%Z).
Proof.
  intros Hs Hle. unfold append_dedup.
  assert (Hstep :
    (forall b, In b buf -> (k_time b < k_time k)%Z) ->
    StronglySorted Z.lt (open_times (deque_append buf k))
    /\ (forall b, In b (deque_append buf k) -> (k_time b <= k_time k)%Z)).
  { intros Hlt. unfold deque_append. split.
    - unfold open_times. rewrite <- skipn_map, map_app. cbn [map].
      apply SSorted_skipn, SSorted_snoc; [exact Hs|].
      intros a Ha. apply in_map_iff in Ha as (b & <- & Hb). now apply Hlt.
    - intros b Hb. apply In_skipn in Hb.
      apply in_app_or in Hb as [Hb|[<-|[]]]; [now apply Hle | lia]. }
  destruct (Py.last_opt buf) as [l|] eqn:El.
  - destruct (Z.eqb_spec (k_time l) (k_time k)) as [E|N].
    + split; [exact Hs | exact Hle].
    + apply Hstep. intros b Hb.
      pose proof (last_is_max buf l Hs El b Hb).
      pose proof (Hle l (last_opt_In _ _ El)). lia.
  - apply last_opt_None in El. subst buf. apply Hstep. intros b [].
Qed.

Lemma feed_sorted ks : forall buf,
  StronglySorted Z.lt (open_times buf) ->
  StronglySorted Z.le (open_times ks) ->
  (forall b k, In b buf -> In k ks -> (k_time b <= k_time k)%Z) ->
  StronglySorted Z.lt (open_times (feed buf ks)).
Proof.
  induction ks as [|k ks IH]; intros buf Hs Hks Hcross; [exact Hs|].
  cbn [feed fold_left]. fold (feed (append_dedup buf k) ks).
  cbn [open_times map] in Hks.
  inversion Hks as [|? ? Hks' Hk]; subst.
  destruct (append_dedup_sorted buf k Hs) as [Hs' Hle'].
  { intros b Hb. apply Hcross; [exact Hb | now left]. }
  apply IH; [exact Hs' | exact Hks' |].
  intros b k' Hb Hk'. specialize (Hle' b Hb).
  rewrite List.Forall_forall in Hk.
  specialize (Hk (k_time k') (in_map k_time _ _ Hk')). lia.
Qed.

Lemma adjacent_distinct_snoc l x y :
  adjacent_distinct (l ++ [x]) -> x <> y -> adjacent_distinct ((l ++ [x]) ++ [y]).
Proof.
  induction l as [|a l IH]; cbn; intros H N.
  - split; [exact N | exact I].
  - destruct l as [|b l]; cbn in *.
    + destruct H as [H _]. repeat split; assumption.
    + destruct H as [H1 H2]. split; [exact H1|]. now apply IH.
Qed.

Lemma adjacent_distinct_skipn n l :
  adjacent_distinct l -> adjacent_distinct (skipn n l).
Proof.
  revert l. induction n as [|n IH]; intros l H; [exact H|].
  destruct l as [|a l]; [exact I|]. cbn [skipn]. apply IH.
  destruct l; [exact I | apply H].
Qed.

Lemma append_dedup_adjacent buf k :
  adjacent_distinct (open_times buf) ->
  adjacent_distinct (open_times (append_dedup buf k)).
Proof.
  intros H. unfold append_dedup, deque_append.
  destruct (Py.last_opt buf) as [l|] eqn:El.
  - destruct (Z.eqb_spec (k_time l) (k_time k)) as [E|N]; [exact H|].
    unfold open_times. rewrite <- skipn_map. apply adjacent_distinct_skipn.
    destruct (exists_last (l:=buf)) as (buf' & l' & ->).
    { intros ->. discriminate. }
    rewrite last_opt_snoc in El. inversion El; subst l'.
    rewrite !map_app. cbn [map]. apply adjacent_distinct_snoc; [|exact N].
    unfold open_times in H. now rewrite map_app in H.
  - apply last_opt_None in El. subst buf. cbn. exact I.
Qed.

Lemma feed_adjacent ks : forall buf,
  adjacent_distinct (open_times buf) ->
  adjacent_distinct (open_times (feed buf ks)).
Proof.
  induction ks as [|k ks IH]; intros buf H; [exact H|].
  cbn [feed fold_left]. apply IH, append_dedup_adjacent, H.
Qed.

Lemma deque_append_length buf k :
  (length buf <= maxlen)%nat -> (length (deque_append buf k) <= maxlen)%nat.
Proof.
  intros H. unfold deque_append. rewrite length_skipn, length_app. cbn. lia.
Qed.

Lemma feed_length ks : forall buf,
  (length buf <= maxlen)%nat -> (length (feed buf ks) <= maxlen)%nat.
Proof.
  induction ks as [|k ks IH]; intros buf H; [exact H|].
  cbn [feed fold_left]. apply IH. unfold append_dedup.
  destruct (Py.last_opt buf) as [l|]; [destruct (_ =? _)%Z|];
    auto using deque_append_length.
Qed.

(** C9, as the code has it: whatever the feed delivers, a buffer never
    holds two neighbouring candles with the same open time and never more
    than 500 candles; and when the accepted candles of a timeframe arrive
    in non-decreasing open-time order, none older than the buffered ones,
    the buffer stays strictly increasing in open time (ordered, unique). *)
Theorem buffer_integrity cfg st msgs :
  (adjacent_distinct (open_times (kl_1m st)) ->
   adjacent_distinct (open_times (kl_1m (run cfg st msgs))))
  /\ ((length (kl_1m st) <= maxlen)%nat ->
      (length (kl_1m (run cfg st msgs)) <= maxlen)%nat)
  /\ (StronglySorted Z.lt (open_times (kl_1m st)) ->
      StronglySorted Z.le
        (open_times (kl_1m st) ++ open_times (delivered_1m cfg msgs)) ->
      StronglySorted Z.lt (open_times (kl_1m (run cfg st msgs))))
  /\ (adjacent_distinct (open_times (kl_5m st)) ->
      adjacent_distinct (open_times (kl_5m (run cfg st msgs))))
  /\ ((length (kl_5m st) <= maxlen)%nat ->
      (length (kl_5m (run cfg st msgs)) <= maxlen)%nat)
  /\ (StronglySorted Z.lt (open_times (kl_5m st)) ->
      StronglySorted Z.le
        (open_times (kl_5m st) ++ open_times (delivered_5m cfg msgs)) ->
      StronglySorted Z.lt (open_times (kl_5m (run cfg st msgs)))).
Proof.
  rewrite run_1m, run_5m.
  repeat split; intros.
  - now apply feed_adjacent.
  - now apply feed_length.
  - match goal with H : StronglySorted Z.le _ |- _ =>
      apply SSorted_app_inv in H as (_ & Hk & Hc) end.
    apply feed_sorted; [assumption | exact Hk |].
    intros b k Hb Hk'. apply Hc; now apply in_map.
  - now apply feed_adjacent.
  - now apply feed_length.
  - match goal with H : StronglySorted Z.le _ |- _ =>
      apply SSorted_app_inv in H as (_ & Hk & Hc) end.
    apply feed_sorted; [assumption | exact Hk |].
    intros b k Hb Hk'. apply Hc; now apply in_map.
Qed.

Lemma buffer_integrity_witness :
  StronglySorted Z.lt (open_times (kl_1m (run Config0 RunState0 msgs_in_order))).
Proof.
  apply (proj1 (proj2 (proj2 (buffer_integrity Config0 RunState0 msgs_in_order)))).
  - constructor.
  - replace (open_times (kl_1m RunState0)
             ++ open_times (delivered_1m Config0 msgs_in_order))
      with [60000; 60000; 120000]%Z by (vm_compute; reflexivity).
    repeat constructor; lia.
Defined.

(** C9 as stated fails: with bar 120000 delivered before bar 60000 the
    buffer is out of order, and with bar 60000 delivered, then bar
    120000, then bar 60000 again, the buffer holds bar 60000 twice. *)
Lemma buffer_corrupted_by_reordering :
  open_times (kl_1m (run Config0 RunState0 msgs_out_of_order))
    = [120000; 60000]%Z
  /\ strictly_increasing
       (open_times (kl_1m (run Config0 RunState0 msgs_out_of_order))) = false
  /\ open_times (kl_1m (run Config0 RunState0 msgs_repeated))
     = [60000; 120000; 60000]%Z
  /\ has_duplicate
       (open_times (kl_1m (run Config0 RunState0 msgs_repeated))) = true.
Proof. vm_compute. repeat split. Qed.

End FeedFacts.

(** ** Signal identity *)

Module SignalIdFacts.

Import SignalId Samples.

Lemma repr_float_Qeq x y : x == y -> repr_float x = repr_float y.
Proof. intros H. unfold repr_float. now rewrite (Qred_complete x y H). Qed.

(** C10, as the code has it: two candidates get the same identity when
    they agree on the side, on the imbalance bounds after rounding to the
    tick's decimals, on the quantized nearby-level price (fine and coarse
    bin), on the bar index, on the count of levels ahead and on the
    shortened nearby-level tag, and their instants fall on the same day of
    the session time zone; the wall clock does not matter otherwise. *)
Theorem make_signal_id_stable db now1 now2 p1 p2 :
  sid_side p1 = sid_side p2 ->
  id_gl p1 == id_gl p2 ->
  id_gh p1 == id_gh p2 ->
  id_pr_q p1 == id_pr_q p2 ->
  id_pr_bin p1 == id_pr_bin p2 ->
  sid_bar_index p1 = sid_bar_index p2 ->
  id_pc p1 = id_pc p2 ->
  id_tag_short p1 = id_tag_short p2 ->
  tz_name p1 = tz_name p2 ->
  local_day (get_zone db (tz_name p1)) (id_instant p1 now1)
  = local_day (get_zone db (tz_name p1)) (id_instant p2 now2) ->
  make_signal_id db now1 p1 = make_signal_id db now2 p2.
Proof.
  intros Hs Hgl Hgh Hq Hb Hi Hc Ht Hz Hd. unfold make_signal_id, daykey.
  rewrite <- Hz, Hd, Hs, Hi, Hc, Ht.
  rewrite (repr_float_Qeq _ _ Hgl), (repr_float_Qeq _ _ Hgh),
          (repr_float_Qeq _ _ Hq), (repr_float_Qeq _ _ Hb).
  reflexivity.
Qed.

Lemma make_signal_id_stable_witness :
  make_signal_id utc_db 1762214400999 sid_a
  = make_signal_id utc_db 1762250000999 sid_w.
Proof.
  apply make_signal_id_stable; vm_compute; reflexivity.
Defined.

(** C10 as stated fails: same side, same tag, same day, bounds that
    differ by a fifth of a tick, and the identities differ; and the same
    setup seen one bar later, at another position of the buffer, gets
    another identity too. *)
Lemma signal_id_differs_within_one_tick :
  sid_side sid_a = sid_side sid_b
  /\ pool_tag sid_a = pool_tag sid_b
  /\ Qabs (gap_low (sid_fvg sid_a) - gap_low (sid_fvg sid_b)) < sid_tick sid_a
  /\ gap_high (sid_fvg sid_a) = gap_high (sid_fvg sid_b)
  /\ daykey (get_zone utc_db "UTC") (id_instant sid_a 0)
     = daykey (get_zone utc_db "UTC") (id_instant sid_b 0)
  /\ make_signal_id utc_db 1762214400999 sid_a
     = "20251104|long|100.4-101.6|30025.0|b17|n3|q30025.0|tEQH"%string
  /\ make_signal_id utc_db 1762214700999 sid_b
     = "20251104|long|100.5-101.6|30025.0|b17|n3|q30025.0|tEQH"%string
  /\ make_signal_id utc_db 1762214460999 sid_c
     = "20251104|long|100.4-101.6|30025.0|b16|n3|q30025.0|tEQH"%string.
Proof. vm_compute. repeat split. Qed.

End SignalIdFacts.

(** ** Trailing stop manager *)

Module TrailingFacts.

Import Trailing Samples NumFacts.

Lemma position_gate_total cfg v :
  exists b v', position_gate cfg v = (Ok b, v').
Proof.
  unfold position_gate. destruct (position_check_before_trail cfg).
  - unfold try_catch, bind, ret.
    destruct (position_net_and_gross (symbol cfg) v) as [[ng|e] v1]; eauto.
  - unfold ret. eauto.
Qed.

Lemma replace_stop_total st cfg req v :
  exists b v', replace_stop st cfg req v = (Ok b, v').
Proof.
  unfold replace_stop, try_catch, bind, ret.
  destruct (new_order req v) as [[[]|e] v1].
  - destruct (cancel_tracked st cfg v1) as [[[]|e] v2]; eauto.
  - destruct (cancel_tracked st cfg v1) as [[[]|e'] v2]; [|eauto].
    destruct (new_order req v2) as [[[]|e'] v3]; eauto.
Qed.

Lemma cleanup_extra_total cfg cid v :
  exists v', cleanup_extra cfg cid v = (Ok tt, v').
Proof.
  unfold cleanup_extra, try_catch.
  match goal with |- context [match ?m v with _ => _ end] =>
    destruct (m v) as [[[]|e] v1] end; unfold ret; eauto.
Qed.

(** one call: the state comes back unchanged, or with the new target
    tracked after the improvement test passed *)
Lemma update_trailing_sl_cases st cfg params cid v :
  exists st' v',
    update_trailing_sl st cfg params cid v = (Ok st', v')
    /\ (st' = st
        \/ exists new_sl,
             target cfg params = Some new_sl
             /\ trailing_improvement_ok st (tp_side params) new_sl
                  (trail_min_tick_improve cfg) = true
             /\ st' = Upd.trailing st (Some new_sl) (Some (tp_side params))
                                   (Some cid) None).
Proof.
  unfold update_trailing_sl, bind.
  destruct (position_gate_total cfg v) as (go & v1 & ->).
  destruct go; cbn [negb]; [|unfold ret; eauto].
  destruct (target cfg params) as [new_sl|] eqn:Et; [|unfold ret; eauto].
  destruct (trailing_improvement_ok st (tp_side params) new_sl
              (trail_min_tick_improve cfg)) eqn:Ei;
    cbn [negb]; [|unfold ret; eauto].
  destruct (replace_stop_total st cfg
              (stop_request st cfg (tp_side params) new_sl cid) v1)
    as (placed & v2 & ->).
  destruct placed; [|unfold ret; eauto].
  destruct (cleanup_extra_total cfg cid v2) as (v3 & ->).
  unfold ret. do 2 eexists. split; [reflexivity|]. right. eauto.
Qed.

Lemma min_improve_pos st mti : 0 < min_improve st mti.
Proof.
  unfold min_improve. apply Qmult_lt_0_compat; [|apply pmax_EPS_pos].
  unfold Zmaxp. change 0 with (inject_Z 0). rewrite <- Zlt_Qlt.
  destruct (Z.ltb_spec 1 mti); lia.
Qed.

Lemma Side_eqb_refl s : Side_eqb s s = true.
Proof. now destruct s. Qed.

(** the improvement test on a stop tracked for the same side *)
Lemma improvement_same_side st side x new_sl mti :
  last_trailing_sl st = Some x ->
  last_trailing_side st = Some side ->
  trailing_improvement_ok st side new_sl mti = true ->
  match side with
  | long => x + min_improve st mti < new_sl
  | short => new_sl < x - min_improve st mti
  end.
Proof.
  unfold trailing_improvement_ok. intros -> ->.
  rewrite Side_eqb_refl. cbn [negb].
  destruct side; intros H; now apply Qltb_lt in H.
Qed.

Lemma one_call_step st cfg params cid v side :
  tp_side params = side ->
  last_trailing_sl st = None \/ last_trailing_side st = Some side ->
  exists st' v',
    update_trailing_sl st cfg params cid v = (Ok st', v')
    /\ tick st' = tick st
    /\ (last_trailing_sl st' = None \/ last_trailing_side st' = Some side)
    /\ ratchet_step side (last_trailing_sl st) (last_trailing_sl st')
    /\ improves (min_improve st (trail_min_tick_improve cfg)) side
         (last_trailing_sl st) (last_trailing_sl st').
Proof.
  intros Hs Hinv.
  destruct (update_trailing_sl_cases st cfg params cid v)
    as (st' & v' & Hrun & [->|(new_sl & _ & Hok & ->)]);
    exists st', v' || (do 2 eexists); (split; [exact Hrun|]).
  - repeat split; [exact Hinv | | now left].
    unfold ratchet_step. destruct (last_trailing_sl st); [|exact I].
    destruct side; lra.
  - rewrite Hs in *. cbn [Upd.trailing tick last_trailing_sl last_trailing_side].
    repeat split; [now right | |].
    + unfold ratchet_step. destruct (last_trailing_sl st) as [x|] eqn:Ex; [|exact I].
      destruct Hinv as [H|H]; [discriminate|].
      pose proof (improvement_same_side st side x new_sl _ Ex H Hok) as Himp.
      pose proof (min_improve_pos st (trail_min_tick_improve cfg)).
      destruct side; lra.
    + right. destruct (last_trailing_sl st) as [x|] eqn:Ex; [|exact I].
      destruct Hinv as [H|H]; [discriminate|].
      exact (improvement_same_side st side x new_sl _ Ex H Hok).
Qed.

Lemma run_calls_chain cfg side mti calls : forall st v,
  mti = trail_min_tick_improve cfg ->
  Forall (fun c => tp_side (fst c) = side) calls ->
  last_trailing_sl st = None \/ last_trailing_side st = Some side ->
  chain (fun a b => ratchet_step side a b /\ improves (min_improve st mti) side a b)
        (last_trailing_sl st) (fst (fst (run_calls st cfg calls v))).
Proof.
  induction calls as [|[params cid] calls IH]; intros st v Hm Hall Hinv;
    [exact I|].
  pose proof (List.Forall_inv Hall) as Hp.
  pose proof (List.Forall_inv_tail Hall) as Hall'. cbn [fst] in Hp.
  destruct (one_call_step st cfg params cid v _ Hp Hinv)
    as (st' & v' & Hrun & Htick & Hinv' & Hstep & Himp).
  cbn [run_calls]. rewrite Hrun. cbn [snd].
  specialize (IH st' v' Hm Hall' Hinv').
  destruct (run_calls st' cfg calls v') as [[tr st2] v2]. cbn [fst] in *.
  split; [split; [assumption | now rewrite Hm]|].
  unfold min_improve in *. rewrite Htick in IH. exact IH.
Qed.

(** C4: over any sequence of [update_trailing_sl] calls for one side,
    started with no tracked stop or with a stop tracked for that side, and
    whatever the venue answers, the tracked stop never moves against the
    position (non-decreasing for a long, non-increasing for a short); each
    call leaves it as it is or moves it by more than the minimum tick
    improvement. *)
Theorem trailing_ratchet cfg side calls st v :
  Forall (fun c => tp_side (fst c) = side) calls ->
  last_trailing_sl st = None \/ last_trailing_side st = Some side ->
  chain (fun a b =>
           ratchet_step side a b
           /\ improves (min_improve st (trail_min_tick_improve cfg)) side a b)
        (last_trailing_sl st) (fst (fst (run_calls st cfg calls v))).
Proof. intros. now apply run_calls_chain. Qed.

Lemma trailing_ratchet_witness :
  chain (fun a b =>
           ratchet_step long a b
           /\ improves (min_improve st_long (trail_min_tick_improve Config0)) long a b)
        (last_trailing_sl st_long)
        (fst (fst (run_calls st_long Config0 trail_calls venue_long))).
Proof.
  apply (trailing_ratchet Config0 long trail_calls st_long venue_long).
  - repeat constructor.
  - right. reflexivity.
Defined.

(** C1 fails on the code: the venue rejects the first placement, the old
    stop is cancelled by its tracked client id, the retry times out.  The
    call returns with the state still tracking the old stop, and the
    venue holds no open protective stop: one before the call, none after. *)
Lemma replace_leaves_position_unprotected :
  map o_clientOrderId (protective_stops Config0 venue_replace_fails)
    = [Some "stop_1"%string]
  /\ fst (update_trailing_sl st_long Config0 (trail_params (1012 # 10))
            "trail_1" venue_replace_fails) = Ok st_long
  /\ protective_stops Config0
       (snd (update_trailing_sl st_long Config0 (trail_params (1012 # 10))
               "trail_1" venue_replace_fails)) = []
  /\ map call_name
       (v_log (snd (update_trailing_sl st_long Config0 (trail_params (1012 # 10))
                      "trail_1" venue_replace_fails)))
     = ["positions"; "new_order"; "cancel"; "new_order"]%string.
Proof. vm_compute. repeat split. Qed.

End TrailingFacts.

(** ** Idempotent market entry *)

Module EntryFacts.

Import Entry SignalId Samples.

Lemma land_count cid v r :
  booked cid (land v r) = (booked cid v + (if tagged cid r then 1 else 0))%nat
  /\ v_inflight (land v r) = v_inflight v
  /\ v_log (land v r) = v_log v.
Proof.
  unfold land, orders_with_cid, tagged. cbn.
  rewrite List.filter_app, length_app. cbn.
  destruct (String.eqb (r_newClientOrderId r) cid); cbn; repeat split; try reflexivity; lia.
Qed.

Lemma land_fold_count cid rs : forall v,
  booked cid (fold_left land rs v)
    = (booked cid v + length (List.filter (tagged cid) rs))%nat
  /\ v_inflight (fold_left land rs v) = v_inflight v
  /\ v_log (fold_left land rs v) = v_log v.
Proof.
  induction rs as [|r rs IH]; intros v; cbn [fold_left List.filter].
  - cbn [length]. repeat split; try reflexivity; lia.
  - destruct (IH (land v r)) as (H1 & H2 & H3).
    destruct (land_count cid v r) as (L1 & L2 & L3).
    rewrite H1, H2, H3, L1, L2, L3.
    destruct (tagged cid r); cbn; repeat split; try reflexivity; lia.
Qed.

Lemma land_all_count cid v :
  booked cid (land_all v) = copies cid v
  /\ copies cid (land_all v) = copies cid v
  /\ v_log (land_all v) = v_log v.
Proof.
  unfold land_all, copies, pending_with_cid.
  match goal with |- context [fold_left land _ ?v0] =>
    destruct (land_fold_count cid (v_inflight v) v0) as (H1 & H2 & H3) end.
  rewrite H1, H2, H3. unfold booked, orders_with_cid. cbn.
  repeat split; try reflexivity; lia.
Qed.

Ltac count_cid :=
  unfold copies, pending_with_cid, booked, orders_with_cid in *; cbn in *.

Lemma begin_call_forward cid c v :
  forward cid c v (snd (begin_call c v)).
Proof.
  unfold begin_call, forward. destruct (v_script v) as [|f s]; cbn [snd].
  - count_cid. repeat split; try reflexivity; lia.
  - destruct (flush f).
    + match goal with |- context [land_all ?v1] =>
        destruct (land_all_count cid v1) as (H1 & H2 & H3) end.
      rewrite H1, H2, H3. count_cid. repeat split; try reflexivity; lia.
    + count_cid. repeat split; try reflexivity; lia.
Qed.

Lemma new_order_spec cid r v :
  tagged cid r = true ->
  (booked cid v <= booked cid (snd (new_order r v)))%nat
  /\ (copies cid (snd (new_order r v)) <= copies cid v + 1)%nat
  /\ v_log (snd (new_order r v)) = v_log v ++ [CNewOrder r]
  /\ (fst (new_order r v) = Ok tt -> (1 <= booked cid (snd (new_order r v)))%nat)
  /\ (fst (new_order r v) = Ok tt \/ exists e, fst (new_order r v) = Raise e).
Proof.
  intros Ht. unfold new_order.
  pose proof (begin_call_forward cid (CNewOrder r) v) as (F1 & F2 & F3).
  destruct (begin_call (CNewOrder r) v) as [oc v1]. cbn [snd] in *.
  destruct (land_count cid v1 r) as (L1 & L2 & L3). rewrite Ht in L1.
  destruct oc; cbn [fst snd].
  - unfold copies, pending_with_cid in *. rewrite L1, L2, L3.
    repeat split; try lia; auto.
  - repeat split; try lia; try discriminate; eauto.
  - repeat split; try lia; try discriminate; eauto.
  - unfold copies, pending_with_cid in *. rewrite L1, L2, L3.
    repeat split; try lia; try discriminate; eauto.
  - unfold copies, pending_with_cid, booked, orders_with_cid in *. cbn.
    rewrite List.filter_app, length_app. cbn. rewrite Ht. cbn.
    repeat split; try lia; try discriminate; eauto.
Qed.

Lemma find_filter {A} (f : A -> bool) l x :
  find f l = Some x -> In x (List.filter f l).
Proof.
  intros H. apply find_some in H as [H1 H2]. apply filter_In. now split.
Qed.

Lemma get_order_spec sym cid v :
  exists x,
    get_order sym cid v = (Ok x, snd (begin_call (CGetOrder cid) v))
    /\ (forall o, x = Some o ->
          In o (orders_with_cid cid (snd (begin_call (CGetOrder cid) v)))).
Proof.
  unfold get_order, try_catch, bind, read, ret, raise.
  destruct (begin_call (CGetOrder cid) v) as [oc v1]. cbn [snd].
  destruct oc; try (exists None; split; [reflexivity | discriminate]).
  destruct (find (key_matches (ByClientId cid)) (v_orders v1)) as [o|] eqn:E.
  - destruct (String.eqb (o_symbol o) sym).
    + exists (Some o). split; [reflexivity|]. intros o' [= <-].
      now apply find_filter.
    + exists None. split; [reflexivity | discriminate].
  - exists None. split; [reflexivity | discriminate].
Qed.

Lemma In_length {A} (l : list A) x : In x l -> (1 <= length l)%nat.
Proof. destruct l; [intros [] | cbn; lia]. Qed.

(** the query loop: it never raises, issues at most [n] queries by the
    client id, all [n] when it gives up, and answers [true] only when an
    order with the id is at the venue *)
Lemma detect_loop_spec cfg cid n : forall v,
  exists b status queries,
    detect_loop cfg cid n v = (Ok (b, status), snd (detect_loop cfg cid n v))
    /\ v_log (snd (detect_loop cfg cid n v)) = v_log v ++ queries
    /\ Forall (fun c => is_query_of cid c = true) queries
    /\ (length queries <= n)%nat
    /\ (n <> 0%nat -> (1 <= length queries)%nat)
    /\ (b = false -> length queries = n)
    /\ (booked cid v <= booked cid (snd (detect_loop cfg cid n v)))%nat
    /\ copies cid (snd (detect_loop cfg cid n v)) = copies cid v
    /\ (b = true -> (1 <= booked cid (snd (detect_loop cfg cid n v)))%nat).
Proof.
  induction n as [|n IH]; intros v.
  - exists false, None, []. cbn. rewrite app_nil_r.
    repeat split; auto; try discriminate. congruence.
  - cbn [detect_loop]. unfold bind.
    destruct (get_order_spec (symbol cfg) cid v) as (x & -> & Hx).
    pose proof (begin_call_forward cid (CGetOrder cid) v) as (F1 & F2 & F3).
    set (v1 := snd (begin_call (CGetOrder cid) v)) in *.
    assert (Hq : is_query_of cid (CGetOrder cid) = true)
      by (cbn; apply String.eqb_refl).
    assert (Hloop :
      exists b status queries,
        detect_loop cfg cid n v1 = (Ok (b, status), snd (detect_loop cfg cid n v1))
        /\ v_log (snd (detect_loop cfg cid n v1)) = v_log v ++ CGetOrder cid :: queries
        /\ Forall (fun c => is_query_of cid c = true) (CGetOrder cid :: queries)
        /\ (length (CGetOrder cid :: queries) <= S n)%nat
        /\ (S n <> 0%nat -> (1 <= length (CGetOrder cid :: queries))%nat)
        /\ (b = false -> length (CGetOrder cid :: queries) = S n)
        /\ (booked cid v <= booked cid (snd (detect_loop cfg cid n v1)))%nat
        /\ copies cid (snd (detect_loop cfg cid n v1)) = copies cid v
        /\ (b = true -> (1 <= booked cid (snd (detect_loop cfg cid n v1)))%nat)).
    { destruct (IH v1) as (b & status & qs & H1 & H2 & H3 & H4 & _ & H5 & H6 & H7 & H8).
      exists b, status, qs. rewrite H2, F3, <- app_assoc. cbn.
      repeat split; auto; try lia;
        try (intros Hb; specialize (H5 Hb); cbn; lia). }
    destruct x as [o|].
    + destruct (order_status_ok o) as [ok status] eqn:Eo. destruct ok.
      * exists true, status, [CGetOrder cid]. unfold ret. cbn [snd fst].
        repeat split; auto; try (cbn; lia); try discriminate.
        intros _. apply (In_length _ o), Hx. reflexivity.
      * destruct Hloop as (b & st' & qs & H1 & H).
        exists b, st', (CGetOrder cid :: qs). split; [exact H1 | exact H].
    + destruct Hloop as (b & st' & qs & H1 & H).
      exists b, st', (CGetOrder cid :: qs). split; [exact H1 | exact H].
Qed.

Lemma entry_request_tagged cfg side qty step cid :
  tagged cid (entry_request cfg side qty step cid) = true.
Proof. unfold tagged. cbn. apply String.eqb_refl. Qed.

(** the status test of the code is the membership test of the
    specification *)
Lemma order_status_ok_spec o :
  fst (order_status_ok o) = true <-> In (Str.upper (o_status o)) placed_statuses.
Proof.
  unfold order_status_ok, placed_statuses. cbn [fst In].
  rewrite !orb_true_iff, !String.eqb_eq. split.
  - intros [[H|H]|H]; rewrite H; auto.
  - intros [H|[H|[H|[]]]]; rewrite <- H; auto.
Qed.

(** the answer of the query loop in terms of its two queries *)
Lemma detect_two cfg cid v :
  let q1 := get_order (symbol cfg) cid v in
  let q2 := get_order (symbol cfg) cid (snd q1) in
  forall b status v',
    detect_loop cfg cid 2 v = (Ok (b, status), v') ->
    (b = true <-> answers_placed q1 \/ answers_placed q2).
Proof.
  intros q1 q2 b status v'. cbn [detect_loop]. unfold bind.
  subst q2.
  destruct (get_order_spec (symbol cfg) cid v) as (x1 & E1 & _).
  subst q1. rewrite E1. cbn [snd].
  set (v1 := snd (begin_call (CGetOrder cid) v)).
  destruct (get_order_spec (symbol cfg) cid v1) as (x2 & E2 & _).
  rewrite E2. unfold answers_placed. cbn [fst].
  assert (Y : forall o, fst (order_status_ok o) = true ->
    exists o', @Ok (option Order) (Some o) = Ok (Some o')
               /\ In (Str.upper (o_status o')) placed_statuses).
  { intros o Ho. exists o. split; [reflexivity | now apply order_status_ok_spec]. }
  assert (Kno : forall o s, order_status_ok o = (false, s) ->
    ~ exists o', @Ok (option Order) (Some o) = Ok (Some o')
                 /\ In (Str.upper (o_status o')) placed_statuses).
  { intros o s Eo (o' & Ho & Hok). inversion Ho; subst o'.
    apply order_status_ok_spec in Hok. rewrite Eo in Hok. discriminate Hok. }
  assert (Knone :
    ~ exists o', @Ok (option Order) None = Ok (Some o')
                 /\ In (Str.upper (o_status o')) placed_statuses).
  { intros (o' & Ho & _). discriminate Ho. }
  assert (Eb : forall b0 s0 w,
    (@Ok (bool * option string) (b0, s0), w) = (Ok (b, status), v') -> b = b0).
  { intros b0 s0 w E. inversion E. reflexivity. }
  destruct x1 as [o1|].
  - destruct (order_status_ok o1) as [ok1 s1] eqn:Eo1. destruct ok1.
    + unfold ret. intros E. apply Eb in E. subst b. split; [|reflexivity].
      intros _. left. apply Y. now rewrite Eo1.
    + cbn beta iota. rewrite ?E2. cbn beta iota. destruct x2 as [o2|].
      * destruct (order_status_ok o2) as [ok2 s2] eqn:Eo2. destruct ok2.
        -- unfold ret. intros E. apply Eb in E. subst b. split; [|reflexivity].
           intros _. right. apply Y. now rewrite Eo2.
        -- unfold ret. intros E. apply Eb in E. subst b.
           split; [discriminate|].
           intros [H|H]; exfalso; [apply (Kno _ _ Eo1 H) | apply (Kno _ _ Eo2 H)].
      * unfold ret. intros E. apply Eb in E. subst b. split; [discriminate|].
        intros [H|H]; exfalso; [apply (Kno _ _ Eo1 H) | apply (Knone H)].
  - cbn beta iota. rewrite ?E2. cbn beta iota. destruct x2 as [o2|].
    + destruct (order_status_ok o2) as [ok2 s2] eqn:Eo2. destruct ok2.
      * unfold ret. intros E. apply Eb in E. subst b. split; [|reflexivity].
        intros _. right. apply Y. now rewrite Eo2.
      * unfold ret. intros E. apply Eb in E. subst b. split; [discriminate|].
        intros [H|H]; exfalso; [apply (Knone H) | apply (Kno _ _ Eo2 H)].
    + unfold ret. intros E. apply Eb in E. subst b. split; [discriminate|].
      intros [H|H]; exfalso; apply (Knone H).
Qed.

Lemma queries_repeat cid qs :
  Forall (fun c => is_query_of cid c = true) qs ->
  qs = repeat (CGetOrder cid) (length qs).
Proof.
  induction 1 as [|c qs Hc _ IH]; [reflexivity|].
  cbn. rewrite <- IH. f_equal.
  destruct c; try discriminate Hc. cbn in Hc. apply String.eqb_eq in Hc. now subst.
Qed.

(** *** the client id *)

Lemma sapp_cons c s1 s2 : (String c s1 ++ s2)%string = String c (s1 ++ s2)%string.
Proof. reflexivity. Qed.

Lemma sapp_assoc s1 s2 s3 : ((s1 ++ s2) ++ s3)%string = (s1 ++ s2 ++ s3)%string.
Proof.
  induction s1 as [|c s1 IH]; [reflexivity|]. rewrite !sapp_cons. now rewrite IH.
Qed.

Lemma sapp_nil s : (s ++ EmptyString)%string = s.
Proof. induction s as [|c s IH]; [reflexivity|]. rewrite sapp_cons. now rewrite IH. Qed.

Lemma slength_app s1 s2 :
  String.length (s1 ++ s2) = (String.length s1 + String.length s2)%nat.
Proof.
  induction s1 as [|c s1 IH]; [reflexivity|]. rewrite sapp_cons. cbn [String.length].
  now rewrite IH.
Qed.

Lemma read_digits_app s1 : forall a s2,
  read_digits a (s1 ++ s2) = read_digits (read_digits a s1) s2.
Proof.
  induction s1 as [|c s1 IH]; intros a s2; [reflexivity|].
  change (String c s1 ++ s2)%string with (String c (s1 ++ s2)%string).
  cbn [read_digits]. apply IH.
Qed.

Lemma all_digits_app s1 s2 :
  all_digits (s1 ++ s2) = all_digits s1 && all_digits s2.
Proof.
  induction s1 as [|c s1 IH]; [reflexivity|].
  change (String c s1 ++ s2)%string with (String c (s1 ++ s2)%string).
  cbn [all_digits]. now rewrite IH, andb_assoc.
Qed.

Lemma digit_char d :
  (0 <= d < 10)%Z ->
  is_digit (ascii_of_nat (48 + Z.to_nat d)) = true
  /\ Z.of_nat (nat_of_ascii (ascii_of_nat (48 + Z.to_nat d)) - 48) = d.
Proof.
  intros H. unfold is_digit.
  rewrite nat_ascii_embedding by lia.
  split; [apply andb_true_iff; split; apply Nat.leb_le; lia | lia].
Qed.

Lemma digits_fuel_spec k : forall n acc,
  (0 <= n < 10 ^ Z.of_nat k)%Z ->
  exists ds, digits_fuel k n acc = (ds ++ acc)%string
    /\ all_digits ds = true
    /\ forall a, read_digits a ds = (a * 10 ^ Z.of_nat (String.length ds) + n)%Z.
Proof.
  induction k as [|k IH]; intros n acc Hn.
  - exists EmptyString. cbn in *. repeat split. intros a. lia.
  - cbn [digits_fuel].
    assert (Hd : (0 <= n mod 10 < 10)%Z) by (apply Z.mod_pos_bound; lia).
    destruct (digit_char _ Hd) as [D1 D2].
    set (d := ascii_of_nat (48 + Z.to_nat (n mod 10))) in *.
    destruct (Z.ltb_spec n 10) as [Hlt|Hge].
    + exists (String d EmptyString). change (String d EmptyString ++ acc)%string with (String d acc).
      cbn [all_digits read_digits String.length].
      rewrite D1. repeat split. intros a. rewrite D2, Z.mod_small by lia.
      change (Z.of_nat 1) with 1%Z. lia.
    + assert (Hq : (0 <= n / 10 < 10 ^ Z.of_nat k)%Z).
      { split; [apply Z.div_pos; lia|].
        apply Z.div_lt_upper_bound; [lia|].
        rewrite Nat2Z.inj_succ, Z.pow_succ_r in Hn by lia. lia. }
      destruct (IH (n / 10)%Z (String d acc) Hq) as (ds & E & A & R).
      exists (ds ++ String d EmptyString)%string. rewrite E. split.
      { now rewrite sapp_assoc. }
      split.
      { rewrite all_digits_app, A. cbn. now rewrite D1. }
      intros a. rewrite read_digits_app, R. cbn [read_digits]. rewrite D2.
      rewrite slength_app. cbn [String.length].
      rewrite Nat2Z.inj_add. change (Z.of_nat 1) with 1%Z.
      rewrite Z.pow_add_r, Z.pow_1_r by lia.
      pose proof (Z.div_mod n 10 ltac:(lia)). lia.
Qed.

Lemma str_int_spec n :
  (0 <= n)%Z ->
  all_digits (str_int n) = true /\ read_digits 0%Z (str_int n) = n.
Proof.
  intros Hn. unfold str_int. destruct (Z.ltb_spec n 0) as [|_]; [lia|].
  unfold str_nat.
  destruct (digits_fuel_spec (S (Z.to_nat (Z.log2 n))) n EmptyString) as (ds & E & A & R).
  { split; [exact Hn|]. rewrite Nat2Z.inj_succ, Z2Nat.id by apply Z.log2_nonneg.
    destruct (Z.eq_dec n 0%Z) as [->|Hz]; [cbn; lia|].
    pose proof (Z.log2_spec n ltac:(lia)) as [_ H].
    assert (2 ^ Z.succ (Z.log2 n) <= 10 ^ Z.succ (Z.log2 n))%Z.
    { apply Z.pow_le_mono_l. pose proof (Z.log2_nonneg n). lia. }
    lia. }
  rewrite E.
  rewrite sapp_nil. split; [exact A|]. rewrite R. lia.
Qed.

Lemma str_int_inj n m :
  (0 <= n)%Z -> (0 <= m)%Z -> str_int n = str_int m -> n = m.
Proof.
  intros Hn Hm E. rewrite <- (proj2 (str_int_spec n Hn)), E.
  apply (proj2 (str_int_spec m Hm)).
Qed.

Lemma append_inj_l p : forall a b, (p ++ a)%string = (p ++ b)%string -> a = b.
Proof. induction p as [|c p IH]; cbn; intros a b H; [exact H|]. inversion H. auto. Qed.

Lemma digits_split s1 : forall s2 t1 t2,
  all_digits s1 = true -> all_digits s2 = true ->
  (s1 ++ "_" ++ t1)%string = (s2 ++ "_" ++ t2)%string ->
  s1 = s2 /\ t1 = t2.
Proof.
  induction s1 as [|c s1 IH]; intros s2 t1 t2 H1 H2 E; destruct s2 as [|c2 s2];
    cbn in *.
  - inversion E. auto.
  - inversion E as [[Hc Ht]]. subst c2. discriminate H2.
  - inversion E as [[Hc Ht]]. subst c. discriminate H1.
  - inversion E as [[Hc Ht]]. subst c2.
    apply andb_true_iff in H1 as [_ H1]. apply andb_true_iff in H2 as [_ H2].
    destruct (IH s2 t1 t2 H1 H2 Ht) as [-> ->]. auto.
Qed.

(** ids drawn at different clock readings or with different random
    numbers differ, and an entry id differs from every id drawn for a
    stop or a trailing stop *)
Lemma unique_cid_inj pfx t r t' r' :
  In pfx ["entry"; "trail"; "stop"]%string ->
  (0 <= t)%Z -> (0 <= r)%Z -> (0 <= t')%Z -> (0 <= r')%Z ->
  unique_cid pfx t' r' = unique_cid "entry" t r ->
  pfx = "entry"%string /\ t' = t /\ r' = r.
Proof.
  intros Hp Ht Hr Ht' Hr' E. unfold unique_cid in E.
  destruct Hp as [<-|[<-|[<-|[]]]]; [|discriminate E|discriminate E].
  apply append_inj_l in E.
  change ("_" ++ ?x)%string with (String "_" x) in E. inversion E as [E1]. clear E.
  destruct (digits_split _ _ _ _ (proj1 (str_int_spec t' Ht'))
              (proj1 (str_int_spec t Ht)) E1) as [E2 E3].
  split; [reflexivity|]. split; now apply str_int_inj.
Qed.

(** C2: the entry function never raises and submits exactly one order,
    first of all its requests: the market order of the entry (symbol,
    side, type MARKET, quantity written with the decimals of the step)
    tagged with the client id it drew.  It queries exactly when that
    submission fails, by the same client id and nothing else: at most
    two queries, and exactly two before it reports failure.  It reports the
    entry as placed exactly when the submission was acknowledged or one
    of the two queries is answered with an order in status NEW,
    PARTIALLY_FILLED or FILLED; a positive report is backed by an order
    with that id at the venue.  The id spells the clock reading and the
    random number of its draw, so ids of different draws differ and an
    entry id differs from every stop and trailing-stop id; and when no
    order or pending submission at the venue carries the id, the venue
    never holds more than one order with it, whatever the faults and
    whenever the submission is delivered. *)
Theorem entry_idempotent cfg side qty step t r v :
  let cid := unique_cid "entry" t r in
  let run := place_market_entry_idempotent cfg side qty step t r v in
  exists req b queries,
    market_order cfg side qty step cid req
    /\ fst run = Ok (b, cid)
    /\ v_log (snd run) = v_log v ++ CNewOrder req :: queries
    /\ queries = repeat (CGetOrder cid) (length queries)
    /\ (length queries <= 2)%nat
    /\ (fst (new_order req v) = Ok tt <-> queries = [])
    /\ (b = false -> length queries = 2%nat)
    /\ (let q1 := get_order (symbol cfg) cid (snd (new_order req v)) in
        let q2 := get_order (symbol cfg) cid (snd q1) in
        b = true <->
        fst (new_order req v) = Ok tt \/ answers_placed q1 \/ answers_placed q2)
    /\ (b = true -> (1 <= booked cid (snd run))%nat)
    /\ (forall pfx t' r',
          In pfx ["entry"; "trail"; "stop"]%string ->
          (0 <= t)%Z -> (0 <= r)%Z -> (0 <= t')%Z -> (0 <= r')%Z ->
          unique_cid pfx t' r' = cid -> pfx = "entry"%string /\ t' = t /\ r' = r)
    /\ (copies cid v = 0%nat ->
        (copies cid (snd run) <= 1)%nat
        /\ (booked cid (land_all (snd run)) <= 1)%nat).
Proof.
  intros cid run. subst run.
  set (req := entry_request cfg side qty step cid).
  exists req.
  pose proof (new_order_spec cid req v (entry_request_tagged cfg side qty step cid))
    as (S1 & S2 & S3 & S4 & S5).
  assert (Hreq : market_order cfg side qty step cid req) by (repeat split).
  assert (Hinj : forall pfx t' r',
          In pfx ["entry"; "trail"; "stop"]%string ->
          (0 <= t)%Z -> (0 <= r)%Z -> (0 <= t')%Z -> (0 <= r')%Z ->
          unique_cid pfx t' r' = cid -> pfx = "entry"%string /\ t' = t /\ r' = r).
  { intros pfx t' r' Hp Ht Hr Ht' Hr' E. now apply (unique_cid_inj pfx t r t' r'). }
  unfold place_market_entry_idempotent, try_catch, bind. fold cid. fold req.
  destruct (new_order req v) as [[[]|e] v1] eqn:En; cbn [fst snd] in *.
  - (* acknowledged *)
    exists true, []. unfold ret. cbn [fst snd length repeat].
    split; [exact Hreq|]. split; [reflexivity|]. split; [exact S3|].
    split; [reflexivity|]. split; [lia|]. split; [split; reflexivity|].
    split; [discriminate|]. split; [split; auto|]. split; [intros _; now apply S4|].
    split; [exact Hinj|].
    intros H0. split; [lia|].
    destruct (land_all_count cid v1) as (-> & _ & _). lia.
  - (* the submission raised: query by the same id *)
    unfold detect_order_by_cid. change (Z.to_nat (Z.max 0 2)) with 2%nat.
    destruct (detect_loop_spec cfg cid 2 v1)
      as (b & status & qs & Hrun & Hlog & Hq & Hlen & Hone & Hall & Hmono & Hcop & Hbook).
    pose proof (detect_two cfg cid v1 b status _ Hrun) as Hiff.
    rewrite Hrun. cbn [fst]. exists b, qs.
    assert (Hres : forall w,
      (if b then ret (true, cid) else ret (false, cid)) w = (Ok (b, cid), w)).
    { intros w. destruct b; reflexivity. }
    rewrite Hres. cbn [fst snd].
    split; [exact Hreq|]. split; [reflexivity|].
    split; [rewrite Hlog, S3, <- app_assoc; reflexivity|].
    split; [now apply queries_repeat|]. split; [exact Hlen|].
    split.
    { split; [discriminate|]. intros ->. specialize (Hone ltac:(discriminate)).
      cbn in Hone. lia. }
    split; [exact Hall|].
    split.
    { cbv zeta. split.
      - intros Hb. right. now apply Hiff.
      - intros [H|H]; [discriminate | now apply Hiff]. }
    split; [exact Hbook|]. split; [exact Hinj|].
    intros H0. split; [lia|].
    destruct (land_all_count cid (snd (detect_loop cfg cid 2 v1))) as (-> & _ & _).
    lia.
Qed.

Lemma entry_idempotent_witness :
  (copies "entry_1700000000000_123"
     (snd (place_market_entry_idempotent Config0 long (1 # 100) (Some (1 # 1000))
             1700000000000 123 venue_entry_delayed)) <= 1)%nat
  /\ (booked "entry_1700000000000_123"
        (land_all (snd (place_market_entry_idempotent Config0 long (1 # 100)
                          (Some (1 # 1000)) 1700000000000 123 venue_entry_delayed)))
      <= 1)%nat.
Proof.
  destruct (entry_idempotent Config0 long (1 # 100) (Some (1 # 1000))
              1700000000000 123 venue_entry_delayed)
    as (req & b & qs & _ & _ & _ & _ & _ & _ & _ & _ & _ & _ & H).
  apply H. vm_compute. reflexivity.
Defined.

End EntryFacts.

(** ** Startup reconciliation *)

Module ReconcileFacts.

Import Reconcile Samples.

(** C3: with a long position of 1 and three sell-side reduce-only
    take-profits resting at the same stop price 110 (order ids 11, 12 and
    13), [reconcile_startup_orders] returns normally, asks the venue only
    for the positions and the open orders, issues no cancel, and leaves
    all three take-profits open: more than two, and not at distinct
    prices.  Only the first order seen at a price enters [uniq]; the
    later ones are neither kept nor cancelled. *)
Lemma reconcile_keeps_duplicate_take_profits :
  let run := reconcile_startup_orders RunState0 Config0 venue_three_tps in
  (exists st', fst run = Ok st')
  /\ v_log (snd run) = [CPositions; COpenOrders]
  /\ map o_orderId (open_tps Config0 (snd run)) = [Some 11; Some 12; Some 13]%Z
  /\ map o_stopPrice (open_tps Config0 (snd run)) = [Some 110; Some 110; Some 110]
  /\ map o_orderId (open_prot Config0 (snd run)) = [Some 1%Z].
Proof.
  cbv zeta. split; [eexists; vm_compute; reflexivity|].
  repeat split; vm_compute; reflexivity.
Qed.

End ReconcileFacts.

(** ** Basis-point distance and rounding helpers *)

Module PriceFacts.

Import NumFacts RoundFacts.

Lemma Qabs_sub_sym a b : Qabs (a - b) == Qabs (b - a).
Proof.
  assert (E : a - b == - (b - a)) by ring. rewrite E. apply Qabs_opp.
Qed.

Lemma bps_distance_sym a b : bps_distance a b == bps_distance b a.
Proof.
  unfold bps_distance. cbv zeta.
  assert (E : (Qabs a + Qabs b) / 2 == (Qabs b + Qabs a) / 2) by (field).
  rewrite (pmax_Qeq EPS _ _ E), (Qabs_sub_sym a b). reflexivity.
Qed.

Lemma bps_distance_range a b : 0 <= bps_distance a b <= 20000.
Proof.
  unfold bps_distance. cbv zeta.
  set (d := pmax EPS ((Qabs a + Qabs b) / 2)).
  assert (Hd : 0 < d) by apply pmax_EPS_pos.
  assert (Hd2 : (Qabs a + Qabs b) / 2 <= d) by apply pmax_lb_r.
  assert (Ht : Qabs (a - b) <= Qabs a + Qabs b).
  { assert (E : a - b == a + - b) by ring. rewrite E.
    pose proof (Qabs_triangle a (- b)) as H. rewrite Qabs_opp in H. exact H. }
  pose proof (Qabs_nonneg (a - b)) as Hn.
  assert (H0 : 0 <= Qabs (a - b) / d).
  { apply Qle_shift_div_l; [exact Hd | lra]. }
  assert (H2 : Qabs (a - b) / d <= 2).
  { apply Qle_shift_div_r; [exact Hd|].
    assert (E : Qabs a + Qabs b == 2 * ((Qabs a + Qabs b) / 2)) by field.
    revert E Hd2 Ht. generalize ((Qabs a + Qabs b) / 2), (Qabs a + Qabs b), (Qabs (a - b)).
    intros; lra. }
  revert H0 H2. generalize (Qabs (a - b) / d). intros; lra.
Qed.

(** X1: the basis-point distance is symmetric, zero between a price and
    itself, never negative and never above 20000 (two hundred percent):
    a tolerance of 20000 basis points or more matches any two prices.
    [within_bps] is symmetric as well. *)
Theorem bps_distance_metric a b tol :
  bps_distance a b == bps_distance b a
  /\ bps_distance a a == 0
  /\ 0 <= bps_distance a b <= 20000
  /\ within_bps a b tol = within_bps b a tol
  /\ (20000 <= tol -> within_bps a b tol = true).
Proof.
  split; [apply bps_distance_sym|].
  split.
  { unfold bps_distance. cbv zeta.
    assert (E : a - a == 0) by ring. rewrite E.
    change (Qabs 0) with 0. unfold Qdiv. ring. }
  split; [apply bps_distance_range|].
  split.
  { unfold within_bps.
    apply Qleb_comp; [apply bps_distance_sym | reflexivity]. }
  intros Ht. unfold within_bps. apply Qle_bool_iff.
  pose proof (bps_distance_range a b). lra.
Qed.

Lemma bps_distance_metric_witness :
  within_bps 100 (- (7)) 25000 = true.
Proof.
  apply (bps_distance_metric 100 (- (7)) 25000). vm_compute. discriminate.
Defined.

End PriceFacts.

(** ** Candle analytics *)

Module CandleFacts.

Import NumFacts ListFacts.

Lemma fold_plus_nonneg l : forall acc,
  0 <= acc -> Forall (fun x => 0 <= x) l -> 0 <= fold_left Qplus l acc.
Proof.
  induction l as [|x l IH]; intros acc Ha Hl; cbn [fold_left]; [exact Ha|].
  inversion Hl; subst. apply IH; [lra | assumption].
Qed.

Lemma qsum_nonneg l : Forall (fun x => 0 <= x) l -> 0 <= Py.qsum l.
Proof. intros H. apply fold_plus_nonneg; [lra | exact H]. Qed.

Lemma true_ranges_nonneg df : Forall (fun x => 0 <= x) (true_ranges df).
Proof.
  induction df as [|p df IH]; [constructor|].
  destruct df as [|c tl]; [constructor|].
  cbn [true_ranges]. constructor; [|exact IH].
  eapply Qle_trans; [apply Qabs_nonneg | apply pmax_lb_r].
Qed.

Lemma Forall_skipn {A} (P : A -> Prop) n l : Forall P l -> Forall P (skipn n l).
Proof.
  intros H. apply List.Forall_forall. intros x Hx.
  apply (proj1 (List.Forall_forall P l) H). eapply In_skipn; eassumption.
Qed.

Lemma atr_nonneg df period : (0 < period)%nat -> 0 <= atr df period.
Proof.
  intros Hp. unfold atr.
  destruct (length df <? period + 1)%nat; [lra|].
  destruct (length (true_ranges df) <? period)%nat; [lra|].
  apply Qle_shift_div_l.
  - change 0 with (inject_Z 0). rewrite <- Zlt_Qlt. lia.
  - assert (E : 0 * inject_Z (Z.of_nat period) == 0) by ring. rewrite E.
    apply qsum_nonneg. unfold Py.lastn. apply Forall_skipn, true_ranges_nonneg.
Qed.

(** X3: the average true range is never negative, whatever the candles
    (also malformed ones with a high under the low), and is zero on a
    frame of at most [period] rows; hence the divisor [atr(df, 14) or EPS]
    used across the detector is always positive. *)
Theorem atr_sign df period :
  (0 < period)%nat ->
  0 <= atr df period
  /\ ((length df <= period)%nat -> atr df period = 0)
  /\ 0 < Py.or_else (atr df period) EPS.
Proof.
  intros Hp. pose proof (atr_nonneg df period Hp) as Hn.
  split; [exact Hn|]. split.
  - intros Hl. unfold atr.
    destruct (Nat.ltb_spec (length df) (period + 1)) as [_|H]; [reflexivity | lia].
  - unfold Py.or_else. destruct (Qeq_bool (atr df period) 0) eqn:E.
    + apply EPS_pos.
    + apply Qeq_bool_neq in E. lra.
Qed.

Lemma atr_sign_witness :
  0 <= atr [] 14 /\ atr [] 14 = 0 /\ 0 < Py.or_else (atr [] 14) EPS.
Proof.
  destruct (atr_sign [] 14 ltac:(lia)) as (H1 & H2 & H3).
  split; [exact H1|]. split; [apply H2; cbn; lia | exact H3].
Defined.

Lemma fvg_at_inv cfg tick i a c x :
  In x (fvg_at cfg tick i a c) ->
  bar_index x = i
  /\ gap_low x <= gap_high x
  /\ match dir x with
     | bullish => gap_low x = k_high a /\ gap_high x = k_low c
     | bearish => gap_low x = k_high c /\ gap_high x = k_low a
     end.
Proof.
  unfold fvg_at. cbv zeta. intros H. apply in_app_or in H.
  destruct H as [H|H].
  - match type of H with In _ (if ?b then _ else _) => destruct b eqn:E end;
      [|destruct H].
    destruct H as [<-|[]]. cbn. apply Qle_bool_iff in E.
    repeat split; try reflexivity.
    revert E. match goal with |- context [pmax 0 ?t] =>
      pose proof (pmax_lb_l 0 t); generalize dependent (pmax 0 t) end.
    intros; lra.
  - match type of H with In _ (if ?b then _ else _) => destruct b eqn:E end;
      [|destruct H].
    destruct H as [<-|[]]. cbn. apply Qle_bool_iff in E.
    repeat split; try reflexivity.
    revert E. match goal with |- context [pmax 0 ?t] =>
      pose proof (pmax_lb_l 0 t); generalize dependent (pmax 0 t) end.
    intros; lra.
Qed.

Lemma fvg_scan_inv cfg tick df : forall i x,
  In x (fvg_scan cfg tick i df) ->
  exists k a c,
    nth_error df k = Some a /\ nth_error df (k + 2) = Some c
    /\ In x (fvg_at cfg tick (i + Z.of_nat k) a c).
Proof.
  induction df as [|a tl IH]; intros i x H; [destruct H|].
  cbn [fvg_scan] in H.
  destruct tl as [|b [|c r]]; try destruct H.
  apply in_app_or in H. destruct H as [H|H].
  - exists 0%nat, a, c. cbn. rewrite Z.add_0_r. auto.
  - destruct (IH (i + 1)%Z x H) as (k & a' & c' & Ha & Hc & Hx).
    exists (S k), a', c'. cbn [nth_error Nat.add].
    repeat split; try assumption.
    replace (i + Z.of_nat (S k))%Z with (i + 1 + Z.of_nat k)%Z by lia. exact Hx.
Qed.

(** X4: every gap [detect_fvgs] reports is well formed: its bar index [i]
    lies in [2, len(df) - 1], its lower bound is not above its upper
    bound, and the bounds are the high of bar [i-2] and the low of bar
    [i] for a bullish gap, the high of bar [i] and the low of bar [i-2]
    for a bearish one.  A frame of fewer than five rows has no gap. *)
Theorem detect_fvgs_wellformed df cfg tick :
  ((length df < 5)%nat -> detect_fvgs df cfg tick = [])
  /\ (forall x, In x (detect_fvgs df cfg tick) ->
       exists k a c,
         nth_error df k = Some a /\ nth_error df (k + 2) = Some c
         /\ bar_index x = Z.of_nat (k + 2)
         /\ gap_low x <= gap_high x
         /\ match dir x with
            | bullish => gap_low x = k_high a /\ gap_high x = k_low c
            | bearish => gap_low x = k_high c /\ gap_high x = k_low a
            end).
Proof.
  unfold detect_fvgs. split.
  - intros H. destruct (Nat.ltb_spec (length df) 5); [reflexivity | lia].
  - intros x H. destruct (length df <? 5)%nat; [destruct H|].
    destruct (fvg_scan_inv cfg tick df 2 x H) as (k & a & c & Ha & Hc & Hx).
    destruct (fvg_at_inv _ _ _ _ _ _ Hx) as (Hi & Hg & Hd).
    exists k, a, c. repeat split; try assumption. lia.
Qed.

Lemma detect_fvgs_wellformed_witness :
  exists k a c,
    nth_error Samples2.kl_gap k = Some a
    /\ nth_error Samples2.kl_gap (k + 2) = Some c
    /\ bar_index (mkFvg bullish 11 12 2) = Z.of_nat (k + 2)
    /\ gap_low (mkFvg bullish 11 12 2) <= gap_high (mkFvg bullish 11 12 2)
    /\ match dir (mkFvg bullish 11 12 2) with
       | bullish => gap_low (mkFvg bullish 11 12 2) = k_high a
                    /\ gap_high (mkFvg bullish 11 12 2) = k_low c
       | bearish => gap_low (mkFvg bullish 11 12 2) = k_high c
                    /\ gap_high (mkFvg bullish 11 12 2) = k_low a
       end.
Proof.
  apply (proj2 (detect_fvgs_wellformed Samples2.kl_gap Config0 (1 # 10))).
  vm_compute. left. reflexivity.
Defined.

Lemma clamp_range x lo hi : lo <= hi -> lo <= clamp x lo hi /\ clamp x lo hi <= hi.
Proof.
  intros H. unfold clamp.
  destruct (pmax_spec lo (pmin hi x)) as [[H1 ->]|[H1 ->]];
    pose proof (pmin_ub_l hi x); split; lra.
Qed.

Lemma overlap_depth L H lo hi :
  L <= H -> lo <= hi -> lo <= H -> L <= hi -> 0 <= pmin H hi - pmax L lo.
Proof.
  intros. destruct (pmin_spec H hi) as [[? ->]|[? ->]];
    destruct (pmax_spec L lo) as [[? ->]|[? ->]]; lra.
Qed.

Lemma fill_loop_one ok df :
  fill_loop ok 1 0 df = existsb ok df.
Proof.
  induction df as [|row r IH]; [reflexivity|].
  cbn [fill_loop existsb]. destruct (ok row); [reflexivity | exact IH].
Qed.

(** X5: with the default fill rule (touch, wicks count, no minimum
    penetration, one bar enough) and well-formed candles, a gap
    [low <= high] counts as filled exactly when some bar of the frame
    overlaps it: its high reaches [low] and its low reaches [high]. *)
Theorem fvg_filled_touch df low high :
  low <= high ->
  Forall (fun row => k_low row <= k_high row) df ->
  (fvg_filled df low high "touch" false 0 1 = true
   <-> exists row, In row df /\ low <= k_high row /\ k_low row <= high).
Proof.
  intros Hlh Hwf. unfold fvg_filled.
  destruct df as [|k r] eqn:Edf.
  { split; [discriminate | intros (row & [] & _)]. }
  rewrite <- Edf in *. clear Edf k r. cbv zeta.
  assert (Elo : Qltb high low = false) by (apply Qltb_ge; exact Hlh).
  rewrite Elo. change (Zmaxp 1 1) with 1%Z. rewrite fill_loop_one.
  set (a := Py.or_else (atr df 14) EPS).
  assert (Hrow : forall row, k_low row <= k_high row ->
            (fill_row low high ((low + high) / 2) (pmax 0 0 * a) "touch" false row = true
             <-> low <= k_high row /\ k_low row <= high)).
  { intros row Hw. unfold fill_row. cbv zeta. cbn [String.eqb Ascii.eqb Bool.eqb].
    change (pmax 0 0) with 0.
    destruct (Qle_bool low (k_high row)) eqn:E1;
      destruct (Qle_bool (k_low row) high) eqn:E2; cbn [andb];
      try (split; [discriminate|]; intros [H1 H2];
           apply Qle_bool_iff in H1; apply Qle_bool_iff in H2; congruence).
    apply Qle_bool_iff in E1. apply Qle_bool_iff in E2.
    split; [intros _; split; assumption|]. intros _.
    apply Qle_bool_iff.
    pose proof (overlap_depth _ _ _ _ Hw Hlh E1 E2) as Hd.
    assert (E0 : 0 * a == 0) by ring. rewrite E0. exact Hd. }
  rewrite existsb_exists. split.
  - intros (row & Hin & Hok). exists row. split; [exact Hin|].
    apply Hrow; [|exact Hok]. exact (proj1 (List.Forall_forall _ _) Hwf row Hin).
  - intros (row & Hin & H1 & H2). exists row. split; [exact Hin|].
    apply Hrow; [|split; assumption].
    exact (proj1 (List.Forall_forall _ _) Hwf row Hin).
Qed.

Lemma fvg_filled_touch_witness :
  fvg_filled Samples2.kl_gap (23 # 2) (25 # 2) "touch" false 0 1 = true.
Proof.
  apply (proj2 (fvg_filled_touch Samples2.kl_gap
                  (23 # 2) (25 # 2) ltac:(vm_compute; discriminate)
                  ltac:(repeat constructor; vm_compute; discriminate))).
  exists (Samples.bar 60000 10 12 10 12). split; [right; left; reflexivity|].
  split; vm_compute; discriminate.
Defined.

End CandleFacts.

(** ** Level sources *)

Module LevelFacts.

Import Pools NumFacts ListFacts PoolsFacts.

Lemma best_by_max l : forall cur x,
  In x (cur :: l) -> x <= Py.best_by (fun a b => Qltb b a) cur l.
Proof.
  induction l as [|y l IH]; intros cur x Hx; cbn [Py.best_by].
  - destruct Hx as [<-|[]]. lra.
  - destruct (Qltb cur y) eqn:E.
    + apply Qltb_lt in E. destruct Hx as [<-|Hx].
      * pose proof (IH y y (or_introl eq_refl)). lra.
      * apply IH. exact Hx.
    + apply Qltb_ge in E. destruct Hx as [<-|[<-|Hx]].
      * apply IH. now left.
      * pose proof (IH cur cur (or_introl eq_refl)). lra.
      * apply IH. now right.
Qed.

Lemma best_by_min l : forall cur x,
  In x (cur :: l) -> Py.best_by (fun a b => Qltb a b) cur l <= x.
Proof.
  induction l as [|y l IH]; intros cur x Hx; cbn [Py.best_by].
  - destruct Hx as [<-|[]]. lra.
  - destruct (Qltb y cur) eqn:E.
    + apply Qltb_lt in E. destruct Hx as [<-|Hx].
      * pose proof (IH y y (or_introl eq_refl)). lra.
      * apply IH. exact Hx.
    + apply Qltb_ge in E. destruct Hx as [<-|[<-|Hx]].
      * apply IH. now left.
      * pose proof (IH cur cur (or_introl eq_refl)). lra.
      * apply IH. now right.
Qed.

Lemma qmax_list_spec l m :
  Py.qmax_list l = Some m -> In m l /\ forall x, In x l -> x <= m.
Proof.
  destruct l as [|c r]; [discriminate|]. cbn. intros [= <-].
  split; [apply best_by_In | apply best_by_max].
Qed.

Lemma qmin_list_spec l m :
  Py.qmin_list l = Some m -> In m l /\ forall x, In x l -> m <= x.
Proof.
  destruct l as [|c r]; [discriminate|]. cbn. intros [= <-].
  split; [apply best_by_In | apply best_by_min].
Qed.

(** X6: [rolling_range_edges] answers nothing on a history shorter than
    [max(window, 25)] candles; when it answers, the edges are the highest
    high and the lowest low of the last [window] candles, and the height
    of that range is at most [atr_frac_max * 2] average true ranges. *)
Theorem rolling_range_edges_spec exec_kl window min_touches atr_frac_max :
  ((Z.of_nat (length exec_kl) < Z.max window 25)%Z ->
   rolling_range_edges exec_kl window min_touches atr_frac_max = None)
  /\ (forall hi lo,
        rolling_range_edges exec_kl window min_touches atr_frac_max = Some (hi, lo) ->
        let seg := tail_window window exec_kl in
        (Z.max window 25 <= Z.of_nat (length exec_kl))%Z
        /\ In hi (highs seg) /\ In lo (lows seg)
        /\ (forall k, In k seg -> k_high k <= hi /\ lo <= k_low k)
        /\ hi - lo <= atr_frac_max * 2 * Py.or_else (atr exec_kl 20) EPS).
Proof.
  unfold rolling_range_edges. split.
  - intros H. destruct (Z.ltb_spec (Z.of_nat (length exec_kl)) (Z.max window 25));
      [reflexivity | lia].
  - intros hi lo.
    destruct (Z.ltb_spec (Z.of_nat (length exec_kl)) (Z.max window 25)) as [|Hlen];
      [discriminate|].
    cbv zeta.
    destruct (Py.qmax_list (highs (tail_window window exec_kl))) as [h|] eqn:Eh;
      [|discriminate].
    destruct (Py.qmin_list (lows (tail_window window exec_kl))) as [l|] eqn:El;
      [|discriminate].
    destruct (Qle_bool (h - l) _) eqn:Er; [|discriminate].
    destruct (_ || _)%bool; [|discriminate].
    intros [= <- <-].
    apply qmax_list_spec in Eh as [Hh1 Hh2].
    apply qmin_list_spec in El as [Hl1 Hl2].
    apply Qle_bool_iff in Er.
    repeat split; try assumption.
    + apply Hh2. unfold highs. now apply in_map.
    + apply Hl2. unfold lows. now apply in_map.
Qed.

Lemma rolling_range_edges_spec_witness :
  (1001 # 10) - (999 # 10)
  <= (6 # 10) * 2 * Py.or_else (atr Samples2.kl_range 20) EPS.
Proof.
  destruct (proj2 (rolling_range_edges_spec Samples2.kl_range 30 3 (6 # 10))
              (1001 # 10) (999 # 10) ltac:(vm_compute; reflexivity))
    as (_ & _ & _ & _ & H).
  exact H.
Defined.

Lemma insert_by_length {A} (leb : A -> A -> bool) x l :
  length (Py.insert_by leb x l) = S (length l).
Proof.
  induction l as [|y l IH]; cbn; [reflexivity|].
  destruct (leb x y); cbn; [reflexivity | now rewrite IH].
Qed.

Lemma sort_by_length {A} (leb : A -> A -> bool) l :
  length (Py.sort_by leb l) = length l.
Proof.
  unfold Py.sort_by. induction l as [|x l IH]; cbn; [reflexivity|].
  now rewrite insert_by_length, IH.
Qed.

Lemma group_bps_nonempty tol lv : forall cur done,
  cur <> [] -> Forall (fun g => g <> []) done ->
  Forall (fun g => g <> []) (group_bps tol cur done lv).
Proof.
  assert (Hrev : forall l : list Q, l <> [] -> rev l <> []).
  { intros l Hl E. apply Hl. rewrite <- (rev_involutive l), E. reflexivity. }
  induction lv as [|p r IH]; intros cur done Hc Hd; cbn [group_bps].
  - apply Forall_rev. constructor; [now apply Hrev | exact Hd].
  - destruct cur as [|prev cur']; [congruence|].
    destruct (within_bps p prev tol).
    + apply IH; [discriminate | exact Hd].
    + apply IH; [discriminate|]. constructor; [now apply Hrev | exact Hd].
Qed.

Lemma group_rep_one g : g <> [] -> length (group_rep g) = 1%nat.
Proof.
  unfold group_rep, Py.min_by. destruct g; [congruence | reflexivity].
Qed.

Lemma reps_length gs :
  Forall (fun g => g <> []) gs ->
  length (flat_map group_rep gs) = length gs
  /\ (length gs <= length (concat gs))%nat.
Proof.
  induction 1 as [|g gs Hg _ [IH1 IH2]]; cbn; [split; reflexivity|].
  rewrite !length_app, (group_rep_one g Hg), IH1.
  split; [reflexivity|]. destruct g; [congruence | cbn; lia].
Qed.

(** X7: [_cluster_levels_bps] returns its representatives in ascending
    order; each is one of the given levels; there are no more of them
    than levels, none for an empty input and at least one otherwise. *)
Theorem cluster_levels_bps_spec levels tol :
  StronglySorted Qle (cluster_levels_bps levels tol)
  /\ (forall x, In x (cluster_levels_bps levels tol) -> In x levels)
  /\ (length (cluster_levels_bps levels tol) <= length levels)%nat
  /\ (cluster_levels_bps levels tol = [] <-> levels = []).
Proof.
  split; [apply cluster_levels_sorted|].
  unfold cluster_levels_bps.
  pose proof (sort_by_length Qle_bool levels) as Hlen.
  pose proof (fun y => sort_by_In Qle_bool levels y) as Hin.
  fold (Py.sorted levels) in Hlen, Hin.
  destruct (Py.sorted levels) as [|p0 r] eqn:Es.
  - destruct levels; [|discriminate Hlen].
    repeat split; auto; cbn; try lia.
  - pose proof (group_bps_nonempty tol r [p0] [] ltac:(discriminate) (List.Forall_nil _))
      as Hne.
    pose proof (group_bps_concat tol r [p0] []) as Hc. cbn in Hc.
    destruct (reps_length _ Hne) as [L1 L2]. rewrite Hc in L2.
    split; [|split].
    + intros x Hx. apply Hin. apply in_flat_map in Hx as (g & Hg & Hx).
      apply group_rep_In in Hx.
      rewrite <- Hc.
      apply in_concat. exists g. split; assumption.
    + rewrite L1. cbn [length] in Hlen, L2. lia.
    + split; intros H.
      * apply (f_equal (@length Q)) in H. rewrite L1 in H.
        destruct (group_bps tol [p0] [] r); [|discriminate H].
        cbn in Hc. discriminate Hc.
      * subst levels. discriminate Hlen.
Qed.

End LevelFacts.

(** ** Requests sent to the venue *)

Module VenueFacts.

Lemma land_log v r : v_log (land v r) = v_log v.
Proof. reflexivity. Qed.

Lemma land_fold_log rs : forall v, v_log (fold_left land rs v) = v_log v.
Proof.
  induction rs as [|r rs IH]; intros v; cbn [fold_left]; [reflexivity|].
  now rewrite IH.
Qed.

Lemma land_all_log v : v_log (land_all v) = v_log v.
Proof. unfold land_all. now rewrite land_fold_log. Qed.

Lemma begin_call_log c v : v_log (snd (begin_call c v)) = v_log v ++ [c].
Proof.
  unfold begin_call. destruct (v_script v) as [|f s]; cbn [snd]; [reflexivity|].
  destruct (flush f); [now rewrite land_all_log | reflexivity].
Qed.

Lemma new_order_log r v : v_log (snd (new_order r v)) = v_log v ++ [CNewOrder r].
Proof.
  unfold new_order. pose proof (begin_call_log (CNewOrder r) v) as H.
  destruct (begin_call (CNewOrder r) v) as [oc v1]. cbn [snd] in H.
  destruct oc; cbn [snd]; exact H.
Qed.

Lemma cancel_order_log sym k v :
  v_log (snd (cancel_order sym k v)) = v_log v ++ [CCancel k].
Proof.
  unfold cancel_order. pose proof (begin_call_log (CCancel k) v) as H.
  destruct (begin_call (CCancel k) v) as [oc v1]. cbn [snd] in H.
  destruct (cancel_in sym k (v_orders v1)); destruct oc; cbn [snd]; exact H.
Qed.

Lemma read_log {A} c (f : Venue -> A) v :
  v_log (snd (read c f v)) = v_log v ++ [c].
Proof.
  unfold read. pose proof (begin_call_log c v) as H.
  destruct (begin_call c v) as [oc v1]. cbn [snd] in H.
  destruct oc; cbn [snd]; exact H.
Qed.

Lemma read_value {A} c (f : Venue -> A) v a v' :
  read c f v = (Ok a, v') -> a = f v'.
Proof.
  unfold read. destruct (begin_call c v) as [oc v1].
  destruct oc; intros H; inversion H; reflexivity.
Qed.

End VenueFacts.

(** ** Requests of composed runs *)

Module TrafficFacts.

Import Traffic VenueFacts.

Lemma submissions_app a b : submissions (a ++ b) = submissions a ++ submissions b.
Proof. unfold submissions. apply flat_map_app. Qed.

Lemma submissions_new r c : submissions (CNewOrder r :: c) = r :: submissions c.
Proof. reflexivity. Qed.

Lemma cancels_app a b : cancels (a ++ b) = cancels a ++ cancels b.
Proof. unfold cancels. apply flat_map_app. Qed.

Lemma sn_ret {A} (a : A) : submits_nothing (ret a).
Proof. intros v. exists []. unfold sends, ret. cbn. now rewrite app_nil_r. Qed.

Lemma sn_raise {A} e : submits_nothing (@raise A e).
Proof. intros v. exists []. unfold sends, raise. cbn. now rewrite app_nil_r. Qed.

Lemma sn_bind {A B} (m : ExM A) (k : A -> ExM B) :
  submits_nothing m -> (forall a, submits_nothing (k a)) -> submits_nothing (bind m k).
Proof.
  intros Hm Hk v. destruct (Hm v) as (c1 & S1 & Q1). unfold sends, bind in *.
  destruct (m v) as [[a|e] v1]; cbn [snd] in *.
  - destruct (Hk a v1) as (c2 & S2 & Q2). unfold sends in S2.
    exists (c1 ++ c2). rewrite S2, S1, submissions_app, Q1, Q2, app_assoc. auto.
  - exists c1. auto.
Qed.

Lemma sn_try {A} (m : ExM A) (h : exn -> ExM A) :
  submits_nothing m -> (forall e, submits_nothing (h e)) ->
  submits_nothing (try_catch m h).
Proof.
  intros Hm Hh v. destruct (Hm v) as (c1 & S1 & Q1). unfold sends, try_catch in *.
  destruct (m v) as [[a|e] v1]; cbn [snd] in *.
  - exists c1. auto.
  - destruct (Hh e v1) as (c2 & S2 & Q2). unfold sends in S2.
    exists (c1 ++ c2). rewrite S2, S1, submissions_app, Q1, Q2, app_assoc. auto.
Qed.

Lemma sn_read {A} c (f : Venue -> A) :
  (forall r, c <> CNewOrder r) -> submits_nothing (read c f).
Proof.
  intros Hc v. exists [c]. split; [apply read_log|].
  destruct c; try reflexivity. now destruct (Hc r).
Qed.

Lemma sn_cancel sym k : submits_nothing (cancel_order sym k).
Proof. intros v. exists [CCancel k]. split; [apply cancel_order_log | reflexivity]. Qed.

Lemma sn_for_each {A} (f : A -> ExM unit) l :
  (forall x, submits_nothing (f x)) -> submits_nothing (for_each f l).
Proof.
  intros Hf. induction l as [|x l IH]; cbn [for_each]; [apply sn_ret|].
  apply sn_bind; [apply Hf | intros _; exact IH].
Qed.

Lemma sn_open_orders sym : submits_nothing (open_orders sym).
Proof. apply sn_read. discriminate. Qed.

Lemma sn_positions sym : submits_nothing (position_net_and_gross sym).
Proof. apply sn_read. discriminate. Qed.

End TrafficFacts.

(** ** Trailing stop: target and requests *)

Module TrailFacts.

Import Trailing Traffic NumFacts VenueFacts TrafficFacts TrailingFacts.

Lemma or_else_nonzero x d : ~ x == 0 -> Py.or_else x d = x.
Proof.
  intros H. unfold Py.or_else. destruct (Qeq_bool x 0) eqn:E; [|reflexivity].
  apply Qeq_bool_iff in E. contradiction.
Qed.

Lemma or_else_cases x d : Py.or_else x d = x \/ (x == 0 /\ Py.or_else x d = d).
Proof.
  unfold Py.or_else. destruct (Qeq_bool x 0) eqn:E; [|now left].
  apply Qeq_bool_iff in E. now right.
Qed.

(** X9: a target computed by [_compute_trail_target] never loosens the
    initial stop (not below it for a long, not above it for a short) and
    comes without skip reason; with positive prices and a move of at
    least 1R it is at break-even or better.  When the move has reached
    the activation threshold while the average true range is not
    positive, no target is returned at all (reason atr_zero), not even
    the break-even one. *)
Theorem trail_target_never_loosens side entry_px stop cur r a cfg :
  (forall t reason,
     compute_trail_target side entry_px stop cur r a cfg = (Some t, reason) ->
     reason = None
     /\ match side with long => stop <= t | short => t <= stop end
     /\ (1 <= r -> 0 < entry_px -> 0 < stop ->
         match side with long => entry_px <= t | short => t <= entry_px end))
  /\ (trail_activation_R cfg <= r -> a <= 0 ->
      compute_trail_target side entry_px stop cur r a cfg
      = (None, Some "atr_zero"%string)).
Proof.
  unfold compute_trail_target. cbv zeta. split.
  - intros t reason.
    destruct (Qle_bool 1 r) eqn:E1;
      destruct (Qle_bool (trail_activation_R cfg) r) eqn:E2;
      [destruct (Qltb 0 a) eqn:E3; [|discriminate] | |
       destruct (Qltb 0 a) eqn:E3; [|discriminate] | discriminate].
    + (* break-even and trail *)
      destruct side; intros [= <- <-]; (split; [reflexivity|]).
      * pose proof (pmax_lb_l stop entry_px). pose proof (pmax_lb_r stop entry_px).
        match goal with |- context [pmax ?b (cur - ?d)] =>
          pose proof (pmax_lb_l b (cur - d)) as Hb end.
        destruct (or_else_cases (pmax stop entry_px) stop) as [E|[Ez E]];
          rewrite E in *; split; try lra.
      * pose proof (pmin_ub_l stop entry_px). pose proof (pmin_ub_r stop entry_px).
        match goal with |- context [pmin ?b (cur + ?d)] =>
          pose proof (pmin_ub_l b (cur + d)) as Hb end.
        destruct (or_else_cases (pmin stop entry_px) stop) as [E|[Ez E]];
          rewrite E in *; split; try lra.
        all: intros _ Hp Hs; destruct (pmin_spec stop entry_px) as [[? Em]|[? Em]];
          rewrite Em in *; lra.
    + (* break-even only *)
      destruct side; intros [= <- <-]; (split; [reflexivity|]).
      * pose proof (pmax_lb_l stop entry_px). pose proof (pmax_lb_r stop entry_px).
        split; [lra | intros; lra].
      * pose proof (pmin_ub_l stop entry_px). pose proof (pmin_ub_r stop entry_px).
        split; [lra | intros; lra].
    + (* trail from the initial stop *)
      destruct side; intros [= <- <-]; (split; [reflexivity|]).
      * match goal with |- context [pmax ?b (cur - ?d)] =>
          pose proof (pmax_lb_l b (cur - d)) as Hb end.
        split; [lra|]. intros H1. apply Qle_bool_iff in H1. congruence.
      * match goal with |- context [pmin ?b (cur + ?d)] =>
          pose proof (pmin_ub_l b (cur + d)) as Hb end.
        split; [lra|]. intros H1. apply Qle_bool_iff in H1. congruence.
  - intros H1 H2. apply Qle_bool_iff in H1. rewrite H1.
    apply Qltb_ge in H2. rewrite H2. reflexivity.
Qed.

Lemma trail_target_never_loosens_witness :
  compute_trail_target long 100 99 102 2 0 Config0
  = (None, Some "atr_zero"%string).
Proof.
  apply (proj2 (trail_target_never_loosens long 100 99 102 2 0 Config0));
    vm_compute; discriminate.
Defined.

Lemma position_gate_sn cfg : submits_nothing (position_gate cfg).
Proof.
  unfold position_gate. destruct (position_check_before_trail cfg); [|apply sn_ret].
  apply sn_try; [|intros; apply sn_ret].
  apply sn_bind; [apply sn_positions | intros; apply sn_ret].
Qed.

Lemma cancel_tracked_sn st cfg : submits_nothing (cancel_tracked st cfg).
Proof.
  unfold cancel_tracked.
  destruct (last_trailing_client_id st) as [c|];
    [destruct (negb (String.eqb c EmptyString))|];
    try destruct (last_trailing_order_id st);
    first [apply sn_cancel | apply sn_ret].
Qed.

Lemma cleanup_extra_sn cfg cid : submits_nothing (cleanup_extra cfg cid).
Proof.
  unfold cleanup_extra. apply sn_try; [|intros; apply sn_ret].
  apply sn_bind; [apply sn_open_orders|]. intros oo.
  apply sn_for_each. intros o. apply sn_try; [|intros; apply sn_ret].
  destruct (is_close_stop o && negb (cid_is o cid)); [|apply sn_ret].
  destruct (o_orderId o); [apply sn_cancel | apply sn_ret].
Qed.

(** the replace protocol never raises and submits the request once or
    twice *)
Lemma replace_stop_sends st cfg req v :
  exists b v' calls,
    replace_stop st cfg req v = (Ok b, v')
    /\ v_log v' = v_log v ++ calls
    /\ (submissions calls = [req] \/ submissions calls = [req; req]).
Proof.
  unfold replace_stop, try_catch, bind, ret.
  pose proof (new_order_log req v) as L1.
  destruct (new_order req v) as [[[]|e] v1]; cbn [snd] in L1.
  - destruct (cancel_tracked_sn st cfg v1) as (c2 & S2 & Q2). unfold sends in S2.
    destruct (cancel_tracked st cfg v1) as [[[]|e] v2]; cbn [snd] in S2;
      exists true, v2, (CNewOrder req :: c2);
      (split; [reflexivity|]); rewrite S2, L1, <- app_assoc;
      (split; [reflexivity|]); left; now rewrite submissions_new, Q2.
  - destruct (cancel_tracked_sn st cfg v1) as (c2 & S2 & Q2). unfold sends in S2.
    destruct (cancel_tracked st cfg v1) as [[[]|e'] v2]; cbn [snd] in S2.
    + pose proof (new_order_log req v2) as L3.
      destruct (new_order req v2) as [[[]|e'] v3]; cbn [snd] in L3;
        [exists true, v3, (CNewOrder req :: c2 ++ [CNewOrder req])
        |exists false, v3, (CNewOrder req :: c2 ++ [CNewOrder req])];
        (split; [reflexivity|]); rewrite L3, S2, L1, <- !app_assoc;
        (split; [reflexivity|]); right;
        now rewrite submissions_new, submissions_app, Q2.
    + exists false, v2, (CNewOrder req :: c2).
      split; [reflexivity|]. rewrite S2, L1, <- app_assoc.
      split; [reflexivity|]. left. now rewrite submissions_new, Q2.
Qed.

(** X10: [update_trailing_sl] never raises, whatever the venue answers.
    It submits at most two orders, each the close-position stop request
    for the computed target under this call's client id, and it comes
    back with the state unchanged or with the new target tracked under
    that client id; the new target is tracked only after a submission. *)
Theorem update_trailing_sl_requests st cfg params cid v :
  exists st' v' calls,
    update_trailing_sl st cfg params cid v = (Ok st', v')
    /\ v_log v' = v_log v ++ calls
    /\ (submissions calls = []
        \/ exists new_sl,
             target cfg params = Some new_sl
             /\ trailing_improvement_ok st (tp_side params) new_sl
                  (trail_min_tick_improve cfg) = true
             /\ (submissions calls
                   = [stop_request st cfg (tp_side params) new_sl cid]
                 \/ submissions calls
                    = [stop_request st cfg (tp_side params) new_sl cid;
                       stop_request st cfg (tp_side params) new_sl cid])
             /\ (st' = st
                 \/ st' = Upd.trailing st (Some new_sl) (Some (tp_side params))
                                       (Some cid) None))
    /\ (submissions calls = [] -> st' = st).
Proof.
  unfold update_trailing_sl, bind.
  destruct (position_gate_sn cfg v) as (c1 & S1 & Q1). unfold sends in S1.
  destruct (position_gate_total cfg v) as (go & v1 & Eg). rewrite Eg in *.
  cbn [snd] in S1.
  destruct go; cbn [negb];
    [|exists st, v1, c1; unfold ret; repeat split; auto].
  destruct (target cfg params) as [new_sl|] eqn:Et;
    [|exists st, v1, c1; unfold ret; repeat split; auto].
  destruct (trailing_improvement_ok st (tp_side params) new_sl
              (trail_min_tick_improve cfg)) eqn:Ei; cbn [negb];
    [|exists st, v1, c1; unfold ret; repeat split; auto].
  destruct (replace_stop_sends st cfg
              (stop_request st cfg (tp_side params) new_sl cid) v1)
    as (placed & v2 & c2 & -> & S2 & Q2).
  assert (Hsub : submissions (c1 ++ c2) = submissions c2)
    by (now rewrite submissions_app, Q1).
  destruct placed.
  - destruct (cleanup_extra_sn cfg cid v2) as (c3 & S3 & Q3). unfold sends in S3.
    destruct (cleanup_extra_total cfg cid v2) as (v3 & E3). rewrite E3 in *.
    cbn [snd] in S3. unfold ret.
    exists (Upd.trailing st (Some new_sl) (Some (tp_side params)) (Some cid) None),
           v3, (c1 ++ c2 ++ c3).
    assert (Hs : submissions (c1 ++ c2 ++ c3) = submissions c2).
    { rewrite !submissions_app, Q1, Q3. cbn. now rewrite app_nil_r. }
    split; [reflexivity|]. split; [now rewrite S3, S2, S1, <- !app_assoc|].
    rewrite Hs. split.
    + right. exists new_sl. repeat split; auto.
    + intros H. destruct Q2 as [Q2|Q2]; rewrite Q2 in H; discriminate H.
  - unfold ret. exists st, v2, (c1 ++ c2).
    split; [reflexivity|]. split; [now rewrite S2, S1, <- app_assoc|].
    rewrite Hsub. split.
    + right. exists new_sl. repeat split; auto.
    + intros H. reflexivity.
Qed.

(** X11: with the position check on, when the position query fails or
    reports a gross position of at most [EPS] (flat), [update_trailing_sl]
    returns the state unchanged after that one query: no order is placed
    and none is cancelled. *)
Theorem update_trailing_sl_flat st cfg params cid v :
  position_check_before_trail cfg = true ->
  (forall ng v1, position_net_and_gross (symbol cfg) v = (Ok ng, v1) -> snd ng <= EPS) ->
  fst (update_trailing_sl st cfg params cid v) = Ok st
  /\ v_log (snd (update_trailing_sl st cfg params cid v)) = v_log v ++ [CPositions].
Proof.
  intros Hc Hflat. unfold update_trailing_sl, bind, position_gate.
  rewrite Hc. unfold try_catch, bind, ret.
  pose proof (read_log CPositions
                (fun v => fold_left (fun ng row =>
                     match row with
                     | Some amt => (fst ng + amt, snd ng + Qabs amt)
                     | None => ng
                     end) (v_positions v) (0, 0)) v) as L.
  fold (position_net_and_gross (symbol cfg)) in L.
  destruct (position_net_and_gross (symbol cfg) v) as [[ng|e] v1] eqn:E;
    cbn [snd] in L.
  - specialize (Hflat ng v1 eq_refl). apply Qle_bool_iff in Hflat.
    rewrite Hflat. cbn. auto.
  - cbn. auto.
Qed.

Lemma update_trailing_sl_flat_witness :
  fst (update_trailing_sl Samples.st_long Config0 (Samples.trail_params (1012 # 10))
         "trail_1" (quiet_venue [Samples.stop_order 1 "stop_1" "SELL" 99 10] [Some 0]))
  = Ok Samples.st_long
  /\ v_log (snd (update_trailing_sl Samples.st_long Config0
                   (Samples.trail_params (1012 # 10)) "trail_1"
                   (quiet_venue [Samples.stop_order 1 "stop_1" "SELL" 99 10] [Some 0])))
     = v_log (quiet_venue [Samples.stop_order 1 "stop_1" "SELL" 99 10] [Some 0])
       ++ [CPositions].
Proof.
  apply update_trailing_sl_flat; [reflexivity|].
  intros ng v1 H. vm_compute in H. inversion H. vm_compute. discriminate.
Defined.

End TrailFacts.

(** ** Startup reconciliation: requests and state *)

Module ReconcileMore.

Import Reconcile Traffic NumFacts ListFacts VenueFacts TrafficFacts.

Lemma cancel__spec cfg o v :
  exists v', cancel_ cfg o v = (Ok tt, v') /\ v_log v' = v_log v ++ cancel_call o.
Proof.
  unfold cancel_, cancel_call. destruct (o_orderId o) as [oid|].
  - unfold try_catch, ret.
    pose proof (cancel_order_log (symbol cfg) (ByOrderId oid) v) as L.
    destruct (cancel_order (symbol cfg) (ByOrderId oid) v) as [[[]|e] v1];
      cbn [snd] in L; eauto.
  - exists v. unfold ret. now rewrite app_nil_r.
Qed.

(** a loop whose body never raises runs to its end and sends what its
    bodies send *)
Lemma for_each_log {A} (f : A -> ExM unit) (g : A -> list Call) l :
  (forall x v, exists v', f x v = (Ok tt, v') /\ v_log v' = v_log v ++ g x) ->
  forall v, exists v',
    for_each f l v = (Ok tt, v') /\ v_log v' = v_log v ++ flat_map g l.
Proof.
  intros Hf. induction l as [|x l IH]; intros v; cbn [for_each flat_map].
  - exists v. unfold ret. now rewrite app_nil_r.
  - unfold bind. destruct (Hf x v) as (v1 & -> & L1).
    destruct (IH v1) as (v2 & -> & L2).
    exists v2. split; [reflexivity|]. now rewrite L2, L1, app_assoc.
Qed.

Lemma cancel_call_quiet l : submissions (flat_map cancel_call l) = [].
Proof.
  induction l as [|o l IH]; [reflexivity|]. cbn [flat_map].
  rewrite submissions_app, IH. unfold cancel_call. now destruct (o_orderId o).
Qed.

(** the in-position branch never raises *)
Lemma reconcile_in_position_total st cfg sd prot tps v :
  exists v' calls,
    reconcile_in_position st cfg sd prot tps v
    = (Ok match pick_keep (List.filter
                  (fun io => side_is (snd io)
                     match sd with long => "SELL" | short => "BUY" end)
                  (indexed prot)) with
          | Some (_, k) =>
              Upd.trailing st (o_stopPrice k) (Some sd) (o_clientOrderId k) (o_orderId k)
          | None => clear_trailing_cache st (Some sd)
          end, v')
    /\ v_log v' = v_log v ++ calls /\ submissions calls = [].
Proof.
  unfold reconcile_in_position. cbv zeta. unfold bind.
  set (want := match sd with long => "SELL"%string | short => "BUY"%string end).
  set (cands := List.filter (fun io => side_is (snd io) want) (indexed prot)).
  set (keep := pick_keep cands).
  destruct (for_each_log
              (fun io => if is_not (fst io) keep then cancel_ cfg (snd io) else ret tt)
              (fun io => if is_not (fst io) keep then cancel_call (snd io) else [])
              cands) with (v := v) as (v1 & -> & L1).
  { intros x w. destruct (is_not (fst x) keep); [apply cancel__spec|].
    exists w. unfold ret. now rewrite app_nil_r. }
  destruct (for_each_log
              (fun io => if is_not (fst io) keep && negb (side_is (snd io) want)
                         then cancel_ cfg (snd io) else ret tt)
              (fun io => if is_not (fst io) keep && negb (side_is (snd io) want)
                         then cancel_call (snd io) else [])
              (indexed prot)) with (v := v1) as (v2 & -> & L2).
  { intros x w. destruct (is_not (fst x) keep && negb (side_is (snd x) want));
      [apply cancel__spec|].
    exists w. unfold ret. now rewrite app_nil_r. }
  match goal with |- context [for_each ?f (skipn 2 ?l) v2] =>
    destruct (for_each_log f (fun kv => cancel_call (snd kv)) (skipn 2 l))
      with (v := v2) as (v3 & -> & L3) end.
  { intros x w. apply cancel__spec. }
  destruct (for_each_log
              (fun o => if negb (side_is o want) then cancel_ cfg o else ret tt)
              (fun o => if negb (side_is o want) then cancel_call o else [])
              tps) with (v := v3) as (v4 & -> & L4).
  { intros x w. destruct (negb (side_is x want)); [apply cancel__spec|].
    exists w. unfold ret. now rewrite app_nil_r. }
  unfold ret. do 2 eexists. split; [reflexivity|].
  split; [rewrite L4, L3, L2, L1, <- !app_assoc; reflexivity|].
  rewrite !submissions_app.
  assert (Hq : forall {A} (c : A -> bool) (p : A -> Order) l,
            submissions (flat_map (fun x => if c x then cancel_call (p x) else []) l) = []).
  { intros A c p l. induction l as [|x l IH]; [reflexivity|]. cbn [flat_map].
    rewrite submissions_app, IH. destruct (c x); [|reflexivity].
    unfold cancel_call. now destruct (o_orderId (p x)). }
  rewrite (Hq _ (fun io => is_not (fst io) keep) snd),
          (Hq _ (fun io => is_not (fst io) keep && negb (side_is (snd io) want)) snd),
          (Hq _ (fun o => negb (side_is o want)) (fun o => o)).
  rewrite (Hq _ (fun _ => true) snd). reflexivity.
Qed.

(** the run of the reconciliation over the modelled replies: it returns,
    and it sends no submission *)
Lemma reconcile_run st cfg v :
  exists st' v' calls,
    reconcile_startup_orders st cfg v = (Ok st', v')
    /\ v_log v' = v_log v ++ calls
    /\ submissions calls = []
    /\ ((forall ng v1, position_net_and_gross (symbol cfg) v <> (Ok ng, v1)) ->
        st' = st /\ calls = [CPositions])
    /\ (forall ng v1,
          position_net_and_gross (symbol cfg) v = (Ok ng, v1) ->
          (forall os v2, open_orders (symbol cfg) v1 <> (Ok os, v2)) ->
          st' = st /\ calls = [CPositions; COpenOrders]).
Proof.
  unfold reconcile_startup_orders, try_catch. unfold bind at 1.
  pose proof (read_log CPositions
                (fun v => fold_left (fun ng row =>
                     match row with
                     | Some amt => (fst ng + amt, snd ng + Qabs amt)
                     | None => ng
                     end) (v_positions v) (0, 0)) v) as L1.
  fold (position_net_and_gross (symbol cfg)) in L1.
  destruct (position_net_and_gross (symbol cfg) v) as [[ng|e] v1] eqn:Ep;
    cbn [snd] in L1.
  2:{ exists st, v1, [CPositions]. unfold ret.
      split; [reflexivity|]. split; [exact L1|]. split; [reflexivity|].
      split; [auto | intros ng0 v0 H; discriminate H]. }
  unfold bind at 1.
  pose proof (read_log COpenOrders
                (fun v => List.filter
                            (fun o => String.eqb (o_symbol o) (symbol cfg) && is_open o)
                            (v_orders v)) v1) as L2.
  fold (open_orders (symbol cfg)) in L2.
  destruct (open_orders (symbol cfg) v1) as [[os|e] v2] eqn:Eo; cbn [snd] in L2.
  2:{ exists st, v2, [CPositions; COpenOrders]. unfold ret.
      split; [reflexivity|]. split; [now rewrite L2, L1, <- app_assoc|].
      split; [reflexivity|]. split.
      - intros H. now destruct (H ng v1).
      - intros ng' v1' [= <- <-] _. auto. }
  unfold partition_open_orders.
  set (prot := List.filter is_prot os).
  set (tps := List.filter (fun o => negb (is_prot o) && is_tp o) os).
  assert (Hflat : exists v3 calls,
            (for_each (cancel_ cfg) (prot ++ tps) >>
             ret (clear_trailing_cache st None))%exm v2
            = (Ok (clear_trailing_cache st None), v3)
            /\ v_log v3 = v_log v2 ++ calls /\ submissions calls = []).
  { unfold bind.
    destruct (for_each_log (cancel_ cfg) cancel_call (prot ++ tps)
                (cancel__spec cfg) v2) as (v3 & -> & L3).
    unfold ret. do 2 eexists. split; [reflexivity|]. split; [exact L3|].
    apply cancel_call_quiet. }
  assert (Hend : forall m : ExM RunState,
            (exists st3 v3 calls, m v2 = (Ok st3, v3)
               /\ v_log v3 = v_log v2 ++ calls /\ submissions calls = []) ->
            exists st' v' calls,
              match m v2 with
              | (Ok a, v') => (Ok a, v')
              | (Raise _, v') => ret st v'
              end = (Ok st', v')
              /\ v_log v' = v_log v ++ calls /\ submissions calls = []
              /\ ((forall ng0 v0, (Ok ng, v1) <> (Ok ng0, v0)) ->
                  st' = st /\ calls = [CPositions])
              /\ (forall ng0 v0, (Ok ng, v1) = (Ok ng0, v0) ->
                    (forall os0 v4, open_orders (symbol cfg) v0 <> (Ok os0, v4)) ->
                    st' = st /\ calls = [CPositions; COpenOrders])).
  { intros m (st3 & v3 & calls & -> & L3 & Q3).
    exists st3, v3, ([CPositions; COpenOrders] ++ calls).
    split; [reflexivity|].
    split; [rewrite L3, L2, L1, <- !app_assoc; reflexivity|].
    split; [rewrite submissions_app, Q3; reflexivity|]. split.
    - intros H. now destruct (H ng v1).
    - intros ng0 v0 [= <- <-] H. now destruct (H os v2). }
  destruct (side_live_of (fst ng)) as [sd|];
    [destruct (Qle_bool (Qabs (snd ng)) EPS)|];
    match goal with |- context [let (_, _) := ?m v2 in _] => apply (Hend m) end.
  - destruct Hflat as (v3 & calls & H). do 3 eexists. exact H.
  - destruct (reconcile_in_position_total st cfg sd prot tps v2)
      as (v3 & calls & H). do 3 eexists. exact H.
  - destruct Hflat as (v3 & calls & H). do 3 eexists. exact H.
Qed.

Lemma reconcile_after_reads st cfg v ng v1 os v2 :
  position_net_and_gross (symbol cfg) v = (Ok ng, v1) ->
  open_orders (symbol cfg) v1 = (Ok os, v2) ->
  reconcile_startup_orders st cfg v
  = try_catch
      (let prot := List.filter is_prot os in
       let tps := List.filter (fun o => negb (is_prot o) && is_tp o) os in
       match side_live_of (fst ng) with
       | Some sd =>
           if Qle_bool (Qabs (snd ng)) EPS then
             for_each (cancel_ cfg) (prot ++ tps) >> ret (clear_trailing_cache st None)
           else reconcile_in_position st cfg sd prot tps
       | None =>
           for_each (cancel_ cfg) (prot ++ tps) >> ret (clear_trailing_cache st None)
       end)
      (fun _ => ret st) v2.
Proof.
  intros Hp Ho. unfold reconcile_startup_orders, try_catch. unfold bind at 1.
  rewrite Hp. unfold bind at 1. rewrite Ho. reflexivity.
Qed.

(** X12: [reconcile_startup_orders] never submits an order.  When the
    position query fails it returns after that one request, and when the
    open-orders query fails it returns after these two requests, in both
    cases without raising, with no cancel sent and the state as it
    was. *)
Theorem reconcile_never_submits st cfg v :
  (exists calls,
     sends (reconcile_startup_orders st cfg) v calls /\ submissions calls = [])
  /\ ((forall ng v1, position_net_and_gross (symbol cfg) v <> (Ok ng, v1)) ->
      fst (reconcile_startup_orders st cfg v) = Ok st
      /\ sends (reconcile_startup_orders st cfg) v [CPositions])
  /\ (forall ng v1,
        position_net_and_gross (symbol cfg) v = (Ok ng, v1) ->
        (forall os v2, open_orders (symbol cfg) v1 <> (Ok os, v2)) ->
        fst (reconcile_startup_orders st cfg v) = Ok st
        /\ sends (reconcile_startup_orders st cfg) v [CPositions; COpenOrders]).
Proof.
  destruct (reconcile_run st cfg v) as (st' & v' & calls & E & L & S & F1 & F2).
  unfold sends. rewrite E. cbn [fst snd]. split; [|split].
  - now exists calls.
  - intros H. destruct (F1 H) as [-> ->]. auto.
  - intros ng v1 H1 H2. destruct (F2 ng v1 H1 H2) as [-> ->]. auto.
Qed.

(** X13: when the venue reports no net position, or a gross position of
    at most [EPS], [reconcile_startup_orders] clears the trailing cache
    and sends one cancel for every open close-position stop and every
    open reduce-only take-profit that carries an order id (stops first),
    whatever the venue answers to these cancels. *)
Theorem reconcile_flat st cfg v ng v1 os v2 :
  position_net_and_gross (symbol cfg) v = (Ok ng, v1) ->
  open_orders (symbol cfg) v1 = (Ok os, v2) ->
  fst ng == 0 \/ Qabs (snd ng) <= EPS ->
  fst (reconcile_startup_orders st cfg v) = Ok (clear_trailing_cache st None)
  /\ v_log (snd (reconcile_startup_orders st cfg v))
     = v_log v ++ [CPositions; COpenOrders]
       ++ flat_map cancel_call
            (List.filter is_prot os
             ++ List.filter (fun o => negb (is_prot o) && is_tp o) os).
Proof.
  intros Hp Ho Hflat. rewrite (reconcile_after_reads st cfg v ng v1 os v2 Hp Ho).
  cbv zeta.
  set (l := List.filter is_prot os
            ++ List.filter (fun o => negb (is_prot o) && is_tp o) os).
  assert (L12 : v_log v2 = v_log v ++ [CPositions; COpenOrders]).
  { pose proof (read_log COpenOrders
                  (fun v => List.filter
                     (fun o => String.eqb (o_symbol o) (symbol cfg) && is_open o)
                     (v_orders v)) v1) as L2.
    fold (open_orders (symbol cfg)) in L2. rewrite Ho in L2. cbn [snd] in L2.
    pose proof (read_log CPositions
                  (fun v => fold_left (fun ng row =>
                     match row with
                     | Some amt => (fst ng + amt, snd ng + Qabs amt)
                     | None => ng
                     end) (v_positions v) (0, 0)) v) as L1.
    fold (position_net_and_gross (symbol cfg)) in L1. rewrite Hp in L1.
    cbn [snd] in L1. now rewrite L2, L1, <- app_assoc. }
  assert (Hrun : try_catch
            (for_each (cancel_ cfg) l >> ret (clear_trailing_cache st None))%exm
            (fun _ => ret st) v2
          = (Ok (clear_trailing_cache st None),
             snd (try_catch
                    (for_each (cancel_ cfg) l >> ret (clear_trailing_cache st None))%exm
                    (fun _ => ret st) v2))
          /\ v_log (snd (try_catch
                    (for_each (cancel_ cfg) l >> ret (clear_trailing_cache st None))%exm
                    (fun _ => ret st) v2))
             = v_log v2 ++ flat_map cancel_call l).
  { unfold try_catch, bind.
    destruct (for_each_log (cancel_ cfg) cancel_call l (cancel__spec cfg) v2)
      as (v3 & -> & L3).
    unfold ret. cbn [snd]. auto. }
  destruct Hrun as [R1 R2].
  assert (Hbranch :
    match side_live_of (fst ng) with
    | Some sd =>
        if Qle_bool (Qabs (snd ng)) EPS
        then (for_each (cancel_ cfg) l >> ret (clear_trailing_cache st None))%exm
        else reconcile_in_position st cfg sd (List.filter is_prot os)
               (List.filter (fun o => negb (is_prot o) && is_tp o) os)
    | None => (for_each (cancel_ cfg) l >> ret (clear_trailing_cache st None))%exm
    end = (for_each (cancel_ cfg) l >> ret (clear_trailing_cache st None))%exm).
  { destruct Hflat as [H|H].
    - unfold side_live_of.
      assert (E1 : Qltb 0 (fst ng) = false) by (apply Qltb_ge; lra).
      assert (E2 : Qltb (fst ng) 0 = false) by (apply Qltb_ge; lra).
      now rewrite E1, E2.
    - apply Qle_bool_iff in H. rewrite H. now destruct (side_live_of (fst ng)). }
  fold l. rewrite Hbranch, R1. cbn [fst snd]. split; [reflexivity|].
  rewrite R2, L12, <- app_assoc. reflexivity.
Qed.

Lemma reconcile_flat_witness :
  fst (reconcile_startup_orders RunState0 Config0 Samples2.venue_flat)
  = Ok (clear_trailing_cache RunState0 None)
  /\ v_log (snd (reconcile_startup_orders RunState0 Config0 Samples2.venue_flat))
     = v_log Samples2.venue_flat ++ [CPositions; COpenOrders]
       ++ flat_map cancel_call
            (List.filter is_prot Samples2.orders_flat
             ++ List.filter (fun o => negb (is_prot o) && is_tp o) Samples2.orders_flat).
Proof.
  apply (reconcile_flat RunState0 Config0 Samples2.venue_flat (0, 0)
           (snd (position_net_and_gross "BTCUSDT" Samples2.venue_flat))
           Samples2.orders_flat
           (snd (open_orders "BTCUSDT"
                   (snd (position_net_and_gross "BTCUSDT" Samples2.venue_flat))))).
  - vm_compute. reflexivity.
  - vm_compute. reflexivity.
  - left. vm_compute. reflexivity.
Defined.

Lemma combine_filter_snd {A} (p : A -> bool) l : forall s,
  map snd (List.filter (fun io : nat * A => p (snd io)) (combine (seq s (length l)) l))
  = List.filter p l.
Proof.
  induction l as [|x l IH]; intros s; [reflexivity|].
  cbn [length seq combine List.filter snd]. destruct (p x); cbn [map snd];
    now rewrite IH.
Qed.

Lemma best_by_latest (l : list (nat * Order)) : forall cur x,
  In x (cur :: l) ->
  (update_key (snd x)
   <= update_key (snd (Py.best_by
        (fun a b => (update_key (snd b) <? update_key (snd a))%Z) cur l)))%Z.
Proof.
  induction l as [|y l IH]; intros cur x Hx; cbn [Py.best_by].
  - destruct Hx as [<-|[]]. lia.
  - destruct (Z.ltb_spec (update_key (snd cur)) (update_key (snd y))) as [E|E].
    + destruct Hx as [<-|Hx].
      * pose proof (IH y y (or_introl eq_refl)). lia.
      * apply IH. exact Hx.
    + destruct Hx as [<-|[<-|Hx]].
      * apply IH. now left.
      * pose proof (IH cur cur (or_introl eq_refl)). lia.
      * apply IH. now right.
Qed.

Lemma pick_keep_latest cands :
  match pick_keep cands with
  | None => cands = []
  | Some k => In k cands
              /\ forall x, In x cands -> (update_key (snd x) <= update_key (snd k))%Z
  end.
Proof.
  destruct cands as [|c r]; cbn [pick_keep]; [reflexivity|].
  split; [apply best_by_In | apply best_by_latest].
Qed.

(** X14: with a live position, once the two queries are answered,
    [reconcile_startup_orders] comes back with the trailing cache
    rehydrated from the open close-position stop on the exit side of the
    position that was updated last (price, client id and order id), or
    with the cache cleared for that side when there is no such stop; the
    answers to the cancels it sends do not matter. *)
Theorem reconcile_rehydrates st cfg v ng v1 os v2 sd :
  position_net_and_gross (symbol cfg) v = (Ok ng, v1) ->
  open_orders (symbol cfg) v1 = (Ok os, v2) ->
  side_live_of (fst ng) = Some sd ->
  EPS < Qabs (snd ng) ->
  let stops :=
    List.filter (fun o => side_is o match sd with long => "SELL" | short => "BUY" end)
                (List.filter is_prot os) in
  exists st',
    fst (reconcile_startup_orders st cfg v) = Ok st'
    /\ match stops with
       | [] => st' = clear_trailing_cache st (Some sd)
       | _ :: _ =>
           exists k, In k stops
             /\ (forall o, In o stops -> (update_key o <= update_key k)%Z)
             /\ st' = Upd.trailing st (o_stopPrice k) (Some sd)
                                   (o_clientOrderId k) (o_orderId k)
       end.
Proof.
  intros Hp Ho Hs Hg stops.
  rewrite (reconcile_after_reads st cfg v ng v1 os v2 Hp Ho). cbv zeta.
  rewrite Hs.
  assert (Eg : Qle_bool (Qabs (snd ng)) EPS = false).
  { destruct (Qle_bool (Qabs (snd ng)) EPS) eqn:E; [|reflexivity].
    apply Qle_bool_iff in E. lra. }
  rewrite Eg. unfold try_catch.
  destruct (reconcile_in_position_total st cfg sd (List.filter is_prot os)
              (List.filter (fun o => negb (is_prot o) && is_tp o) os) v2)
    as (v3 & calls & -> & _ & _).
  cbn [fst]. eexists. split; [reflexivity|].
  set (want := match sd with long => "SELL"%string | short => "BUY"%string end) in *.
  set (cands := List.filter (fun io => side_is (snd io) want)
                            (indexed (List.filter is_prot os))).
  assert (Hc : map snd cands = stops).
  { subst cands stops. unfold indexed.
    apply (combine_filter_snd (fun o => side_is o want)). }
  pose proof (pick_keep_latest cands) as Hk.
  destruct (pick_keep cands) as [[i k]|].
  - destruct Hk as [Hin Hmax].
    assert (Hks : In k stops).
    { rewrite <- Hc. change k with (snd (i, k)). now apply in_map. }
    destruct stops as [|s0 r] eqn:Es; [destruct Hks|]. rewrite <- Es in *.
    exists k. split; [exact Hks|]. split; [|reflexivity].
    intros o Hin'. rewrite <- Hc in Hin'. apply in_map_iff in Hin' as (x & <- & Hx).
    exact (Hmax x Hx).
  - rewrite Hk in Hc. cbn in Hc. now rewrite <- Hc.
Qed.

Lemma reconcile_rehydrates_witness :
  let stops :=
    List.filter (fun o => side_is o "SELL") (List.filter is_prot Samples2.orders_two_stops) in
  exists st',
    fst (reconcile_startup_orders RunState0 Config0 Samples2.venue_two_stops) = Ok st'
    /\ match stops with
       | [] => st' = clear_trailing_cache RunState0 (Some long)
       | _ :: _ =>
           exists k, In k stops
             /\ (forall o, In o stops -> (update_key o <= update_key k)%Z)
             /\ st' = Upd.trailing RunState0 (o_stopPrice k) (Some long)
                                   (o_clientOrderId k) (o_orderId k)
       end.
Proof.
  apply (reconcile_rehydrates RunState0 Config0 Samples2.venue_two_stops (1, 1)
           (snd (position_net_and_gross "BTCUSDT" Samples2.venue_two_stops))
           Samples2.orders_two_stops
           (snd (open_orders "BTCUSDT"
                   (snd (position_net_and_gross "BTCUSDT" Samples2.venue_two_stops))))
           long).
  - vm_compute. reflexivity.
  - vm_compute. reflexivity.
  - reflexivity.
  - vm_compute. reflexivity.
Defined.

End ReconcileMore.

(** ** Realized PnL from account updates *)

Module PnlFacts.

Import Guard NumFacts.

Lemma no_delta cr : Qltb 0 (Qabs (cr - cr)) = false.
Proof.
  apply Qltb_ge. assert (E : cr - cr == 0) by ring. rewrite E. exact (Qle_refl 0).
Qed.

(** X15: an entry of an ACCOUNT_UPDATE event that is delivered a second
    time changes nothing: the baseline already holds its cumulative
    realized value, so no delta is counted again and no loss is stamped
    again.  The first entry seen for a symbol only sets the baseline:
    [realized_today] and the loss stamp stay as they are. *)
Theorem account_update_redelivery now st p :
  account_update_one now (account_update_one now st p) p = account_update_one now st p
  /\ (forall cr, pu_cr p = Some cr -> account_cr st !! Str.upper (pu_s p) = None ->
        realized_today (account_update_one now st p) = realized_today st
        /\ last_loss_server_ms (account_update_one now st p) = last_loss_server_ms st
        /\ account_cr (account_update_one now st p) !! Str.upper (pu_s p) = Some cr).
Proof.
  assert (Hseed : forall s cr (st1 : RunState),
            pu_cr p = Some cr -> Str.upper (pu_s p) = s ->
            account_cr st1 !! s = Some cr ->
            account_update_one now st1 p = st1).
  { intros s cr st1 Hc Hs Hb. unfold account_update_one. rewrite Hc, Hs, Hb.
    cbv zeta. now rewrite no_delta. }
  assert (Hin : forall (m : gmap string Q) s cr, <[s := cr]> m !! s = Some cr).
  { intros m s cr. rewrite lookup_insert. destruct (decide (s = s)); congruence. }
  split.
  - destruct (pu_cr p) as [cr|] eqn:Hc.
    2:{ assert (E : account_update_one now st p = st)
          by (unfold account_update_one; now rewrite Hc).
        now rewrite !E. }
    destruct (account_cr st !! Str.upper (pu_s p)) as [prev|] eqn:Hb.
    + destruct (Qltb 0 (Qabs (cr - prev))) eqn:Hd.
      * assert (E : account_update_one now st p
                    = Upd.pnl st (realized_today st + (cr - prev))
                        (if Qltb (cr - prev) 0
                         then Some match last_server_ms st with
                                   | Some ms => ms
                                   | None => now
                                   end
                         else last_loss_server_ms st)
                        (<[Str.upper (pu_s p) := cr]> (account_cr st)) 0)
          by (unfold account_update_one; rewrite Hc, Hb; cbv zeta; now rewrite Hd).
        rewrite E.
        apply (Hseed (Str.upper (pu_s p)) cr); [reflexivity | reflexivity | apply Hin].
      * assert (E : account_update_one now st p = st)
          by (unfold account_update_one; rewrite Hc, Hb; cbv zeta; now rewrite Hd).
        now rewrite !E.
    + assert (E : account_update_one now st p
                  = Upd.pnl st (realized_today st) (last_loss_server_ms st)
                      (<[Str.upper (pu_s p) := cr]> (account_cr st)) (last_balance_ts st))
        by (unfold account_update_one; now rewrite Hc, Hb).
      rewrite E.
      apply (Hseed (Str.upper (pu_s p)) cr); [reflexivity | reflexivity | apply Hin].
  - intros cr Hc Hb. unfold account_update_one. rewrite Hc, Hb. cbn.
    repeat split. apply Hin.
Qed.

End PnlFacts.

(** ** Funding gate: requests and window *)

Module FundingMore.

Import Funding Traffic NumFacts VenueFacts.

Lemma funding_gate_reply st cfg v j v1 :
  funding_aware_enable cfg = true ->
  premium_index (symbol cfg) v = (Ok j, v1) ->
  exists r, funding_gate st cfg v = (Ok r, v1).
Proof.
  intros He Hp. unfold funding_gate. rewrite He. cbn [negb].
  unfold current_funding_info, bind. rewrite Hp.
  destruct (parse_funding j) as [[r nft]|]; unfold ret; cbv zeta.
  - destruct nft as [t|]; [destruct (last_server_ms st) as [ms|]|]; eauto.
    destruct (_ && funding_block_near cfg); eauto.
  - eauto.
Qed.

Lemma funding_gate_failure st cfg v e v1 :
  funding_aware_enable cfg = true ->
  premium_index (symbol cfg) v = (Raise e, v1) ->
  funding_gate st cfg v = (Raise e, v1).
Proof.
  intros He Hp. unfold funding_gate. rewrite He. cbn [negb].
  unfold current_funding_info, bind. now rewrite Hp.
Qed.

(** X16: with funding awareness off the gate lets the candidate pass
    (no penalty, risk multiplier 1) without asking the venue; with it on
    the gate sends exactly one premium-index request, and a failure of
    that request is not caught: the gate raises the same exception
    instead of answering. *)
Theorem funding_gate_requests st cfg v :
  (funding_aware_enable cfg = false ->
   funding_gate st cfg v = (Ok (false, 0, 1, mkFundMeta None None None), v))
  /\ (funding_aware_enable cfg = true ->
      sends (funding_gate st cfg) v [CPremiumIndex]
      /\ (forall e v', premium_index (symbol cfg) v = (Raise e, v') ->
            funding_gate st cfg v = (Raise e, v'))).
Proof.
  split.
  - intros He. unfold funding_gate. now rewrite He.
  - intros He. split.
    + unfold sends.
      pose proof (read_log CPremiumIndex v_premium v) as L.
      fold (premium_index (symbol cfg)) in L.
      destruct (premium_index (symbol cfg) v) as [[j|e] v1] eqn:Hp; cbn [snd] in L.
      * destruct (funding_gate_reply st cfg v j v1 He Hp) as (r & ->). exact L.
      * rewrite (funding_gate_failure st cfg v e v1 He Hp). exact L.
    + intros e v'. now apply funding_gate_failure.
Qed.

Lemma funding_gate_requests_witness :
  funding_gate RunState0 Config0
    (with_script Samples.venue_funding [mkFault false Dropped] [])
  = (Raise TransportError,
     snd (premium_index "BTCUSDT"
            (with_script Samples.venue_funding [mkFault false Dropped] []))).
Proof.
  apply (proj2 (funding_gate_requests RunState0 Config0
                  (with_script Samples.venue_funding [mkFault false Dropped] []))
               eq_refl).
  reflexivity.
Defined.

Lemma mins_le d w :
  inject_Z d / 60000 <= inject_Z w <-> (d <= w * 60000)%Z.
Proof.
  rewrite Zle_Qle, inject_Z_mult. change (inject_Z 60000) with 60000.
  split; intros H.
  - assert (E : inject_Z d == inject_Z d / 60000 * 60000) by field.
    rewrite E. apply Qmult_le_compat_r; [exact H | lra].
  - apply Qle_shift_div_r; [reflexivity | exact H].
Qed.

Lemma mins_ge d : 0 <= inject_Z d / 60000 <-> (0 <= d)%Z.
Proof.
  rewrite Zle_Qle. change (inject_Z 0) with 0. split; intros H.
  - assert (E : inject_Z d == inject_Z d / 60000 * 60000) by field.
    rewrite E. apply Qmult_le_0_compat; lra.
  - apply Qle_shift_div_l; [reflexivity | lra].
Qed.

Lemma mins_abs_le d w :
  Qabs (inject_Z d / 60000) <= inject_Z w <-> (Z.abs d <= w * 60000)%Z.
Proof.
  rewrite Qabs_Qle_condition.
  assert (En : - inject_Z w <= inject_Z d / 60000 <-> (- (w * 60000) <= d)%Z).
  { rewrite Zle_Qle, inject_Z_opp, inject_Z_mult. change (inject_Z 60000) with 60000.
    split; intros H.
    - assert (E : inject_Z d == inject_Z d / 60000 * 60000) by field.
      rewrite E.
      assert (- (inject_Z w * 60000) == - inject_Z w * 60000) as -> by ring.
      apply Qmult_le_compat_r; [exact H | lra].
    - apply Qle_shift_div_l; [reflexivity|]. lra. }
  rewrite En, mins_le. lia.
Qed.

Lemma bool_eq_iff (a b : bool) : (a = true <-> b = true) -> a = b.
Proof.
  destruct a, b; intros [H1 H2]; try reflexivity;
    [symmetry; now apply H1 | now apply H2].
Qed.

(** X17: with funding awareness and blocking near funding on, a known
    next funding time [nft] and a server-time sample [ms] (both in
    milliseconds), the gate blocks exactly inside the funding window
    of [w = max(1, funding_window_min)] minutes, bounds included: when
    [|nft - ms| <= w * 60000] for the symmetric window, when
    [0 <= nft - ms <= w * 60000] for the pre-funding one. *)
Theorem funding_gate_window st cfg v j v1 r nft ms :
  funding_aware_enable cfg = true ->
  funding_block_near cfg = true ->
  premium_index (symbol cfg) v = (Ok j, v1) ->
  parse_funding j = Some (r, Some nft) ->
  last_server_ms st = Some ms ->
  blocked (fst (funding_gate st cfg v))
  = Some (if funding_window_symmetric cfg
          then (Z.abs (nft - ms) <=? Zmaxp 1 (funding_window_min cfg) * 60000)%Z
          else ((0 <=? nft - ms)
                && (nft - ms <=? Zmaxp 1 (funding_window_min cfg) * 60000))%Z).
Proof.
  intros He Hb Hp Hj Hm. unfold funding_gate. rewrite He. cbn [negb].
  unfold current_funding_info, bind. rewrite Hp, Hj. unfold ret at 1.
  rewrite Hm. cbv zeta. rewrite Hb, andb_true_r.
  set (d := (nft - ms)%Z). set (w := Zmaxp 1 (funding_window_min cfg)).
  assert (Hn : (if funding_window_symmetric cfg
                then Qle_bool (Qabs (inject_Z d / 60000)) (inject_Z w)
                else Qle_bool 0 (inject_Z d / 60000)
                     && Qle_bool (inject_Z d / 60000) (inject_Z w))
               = (if funding_window_symmetric cfg
                  then (Z.abs d <=? w * 60000)%Z
                  else ((0 <=? d) && (d <=? w * 60000))%Z)).
  { destruct (funding_window_symmetric cfg); apply bool_eq_iff.
    - rewrite Qle_bool_iff, Z.leb_le. apply mins_abs_le.
    - rewrite !andb_true_iff, !Qle_bool_iff, !Z.leb_le, mins_ge, mins_le.
      reflexivity. }
  rewrite Hn.
  generalize (if funding_window_symmetric cfg
              then (Z.abs d <=? w * 60000)%Z
              else ((0 <=? d) && (d <=? w * 60000))%Z).
  intros [|]; reflexivity.
Qed.

Lemma funding_gate_window_witness :
  blocked (fst (funding_gate Samples.st_day Config0 Samples.venue_funding))
  = Some false.
Proof.
  apply (funding_gate_window Samples.st_day Config0 Samples.venue_funding
           (v_premium Samples.venue_funding)
           (snd (premium_index "BTCUSDT" Samples.venue_funding))
           (1 # 10000) 1762243200000%Z 1762214400000%Z); reflexivity.
Defined.

End FundingMore.

(** ** Risk and sizing *)

Module RiskFacts.

Import Risk Guard NumFacts RoundFacts PriceFacts CandleFacts.

Lemma Qle_bool_false x y : Qle_bool x y = false <-> y < x.
Proof.
  split; intros H.
  - destruct (Qlt_le_dec y x) as [Hlt|Hle]; [exact Hlt|].
    apply Qle_bool_iff in Hle. congruence.
  - destruct (Qle_bool x y) eqn:E; [|reflexivity].
    apply Qle_bool_iff in E. lra.
Qed.

(** the drawdown of [throttle_risk], as the source computes it *)
Lemma drawdown_mono e r r' :
  r' <= r ->
  pmax 0 ((e - (e + r)) / pmax EPS e) <= pmax 0 ((e - (e + r')) / pmax EPS e).
Proof.
  intros H. apply pmax_mono_r. apply Qdiv_le_mono; [apply pmax_EPS_pos | lra].
Qed.

Lemma drawdown_no_loss e r :
  0 <= r -> pmax 0 ((e - (e + r)) / pmax EPS e) == 0.
Proof.
  intros H. pose proof (pmax_EPS_pos e) as Hd.
  assert (Hq : (e - (e + r)) / pmax EPS e <= 0).
  { apply Qle_shift_div_r; [exact Hd | lra]. }
  destruct (pmax_spec 0 ((e - (e + r)) / pmax EPS e)) as [[H1 ->]|[H1 ->]]; lra.
Qed.

(** X19: the risk fraction [throttle_risk] returns is the configured one
    or one of its two throttled tiers, and the equity argument is not
    read.  A day without net realized loss is never throttled when both
    drawdown thresholds are positive; and with tiers in order
    ([throttle_risk2 <= throttle_risk1 <= 1], a risk fraction that is not
    negative) more realized loss on the same day-start equity never
    raises the risk fraction. *)
Theorem throttle_risk_ladder equity st cfg :
  (throttle_risk equity st cfg = risk_pct cfg
   \/ throttle_risk equity st cfg = risk_pct cfg * throttle_risk1 cfg
   \/ throttle_risk equity st cfg = risk_pct cfg * throttle_risk2 cfg)
  /\ (forall equity', throttle_risk equity' st cfg = throttle_risk equity st cfg)
  /\ (0 <= realized_today st ->
      0 < throttle_drawdown1 cfg -> 0 < throttle_drawdown2 cfg ->
      throttle_risk equity st cfg = risk_pct cfg)
  /\ (forall st',
        day_start_equity st' = day_start_equity st ->
        realized_today st' <= realized_today st ->
        0 <= risk_pct cfg ->
        throttle_risk2 cfg <= throttle_risk1 cfg -> throttle_risk1 cfg <= 1 ->
        throttle_risk equity st' cfg <= throttle_risk equity st cfg).
Proof.
  split; [|split; [|split]].
  - unfold throttle_risk. cbv zeta.
    destruct (Qle_bool (throttle_drawdown2 cfg) _); [auto|].
    destruct (Qle_bool (throttle_drawdown1 cfg) _); auto.
  - reflexivity.
  - intros Hr H1 H2. unfold throttle_risk. cbv zeta.
    pose proof (drawdown_no_loss (day_start_equity st) (realized_today st) Hr) as E.
    set (dd := pmax 0 _) in *.
    assert (G2 : Qle_bool (throttle_drawdown2 cfg) dd = false)
      by (apply Qle_bool_false; lra).
    assert (G1 : Qle_bool (throttle_drawdown1 cfg) dd = false)
      by (apply Qle_bool_false; lra).
    now rewrite G2, G1.
  - intros st' He Hr Hp H21 H11. unfold throttle_risk. cbv zeta. rewrite He.
    pose proof (drawdown_mono (day_start_equity st) _ _ Hr) as Hm.
    set (dd := pmax 0 ((day_start_equity st - (day_start_equity st + realized_today st)) / _)) in *.
    set (dd' := pmax 0 ((day_start_equity st - (day_start_equity st + realized_today st')) / _)) in *.
    assert (P2 : risk_pct cfg * throttle_risk2 cfg <= risk_pct cfg * throttle_risk1 cfg).
    { rewrite !(Qmult_comm (risk_pct cfg)). now apply Qmult_le_compat_r. }
    assert (P1 : risk_pct cfg * throttle_risk1 cfg <= risk_pct cfg).
    { assert (E : risk_pct cfg == risk_pct cfg * 1) by ring. rewrite E at 2.
      rewrite !(Qmult_comm (risk_pct cfg)). now apply Qmult_le_compat_r. }
    destruct (Qle_bool (throttle_drawdown2 cfg) dd) eqn:A2.
    + apply Qle_bool_iff in A2.
      assert (B2 : Qle_bool (throttle_drawdown2 cfg) dd' = true)
        by (apply Qle_bool_iff; lra).
      rewrite B2. lra.
    + destruct (Qle_bool (throttle_drawdown1 cfg) dd) eqn:A1.
      * apply Qle_bool_iff in A1.
        destruct (Qle_bool (throttle_drawdown2 cfg) dd'); [lra|].
        assert (B1 : Qle_bool (throttle_drawdown1 cfg) dd' = true)
          by (apply Qle_bool_iff; lra).
        rewrite B1. lra.
      * destruct (Qle_bool (throttle_drawdown2 cfg) dd'); [lra|].
        destruct (Qle_bool (throttle_drawdown1 cfg) dd'); lra.
Qed.

Lemma throttle_risk_ladder_witness :
  throttle_risk 1000 (run_updates Samples.st_day Samples.evs_loss) Config2_0
  <= throttle_risk 1000 Samples.st_day Config2_0.
Proof.
  apply (proj2 (proj2 (proj2 (throttle_risk_ladder 1000 Samples.st_day Config2_0)))
           (run_updates Samples.st_day Samples.evs_loss)).
  - reflexivity.
  - vm_compute. discriminate.
  - vm_compute. discriminate.
  - vm_compute. discriminate.
  - vm_compute. discriminate.
Defined.

Lemma mins_lt d w :
  inject_Z d / 60000 < inject_Z w <-> (d < w * 60000)%Z.
Proof.
  rewrite Zlt_Qlt, inject_Z_mult. change (inject_Z 60000) with 60000.
  split; intros H.
  - assert (E : inject_Z d == inject_Z d / 60000 * 60000) by field.
    rewrite E. apply Qmult_lt_compat_r; [reflexivity | exact H].
  - apply Qlt_shift_div_r; [reflexivity | exact H].
Qed.

(** X22: a losing ACCOUNT_UPDATE entry (cumulative realized value below
    the baseline) stamps the loss with the latest server-time sample, or
    with the wall clock when there is none; from then on the cooldown is
    active exactly while the server-time sample is less than
    [cooldown_minutes_after_loss] minutes after that stamp, and it is
    never active while either time is missing. *)
Theorem cooldown_after_loss now st p s c0 cr cfg :
  Str.upper (pu_s p) = s -> pu_cr p = Some cr ->
  account_cr st !! s = Some c0 -> cr < c0 ->
  last_loss_server_ms (account_update_one now st p)
  = Some (match last_server_ms st with Some ms => ms | None => now end)
  /\ (forall st2 loss_ms t,
        last_loss_server_ms st2 = Some loss_ms -> last_server_ms st2 = Some t ->
        (cooldown_active st2 cfg = true
         <-> (t - loss_ms < cooldown_minutes_after_loss cfg * 60000)%Z))
  /\ (forall st2,
        last_loss_server_ms st2 = None \/ last_server_ms st2 = None ->
        cooldown_active st2 cfg = false).
Proof.
  intros Hs Hc Hb Hlt. split; [|split].
  - unfold account_update_one. rewrite Hc, Hs, Hb. cbv zeta.
    assert (Hd : cr - c0 < 0) by lra.
    assert (E1 : Qltb 0 (Qabs (cr - c0)) = true).
    { apply Qltb_lt. rewrite Qabs_neg by lra. lra. }
    assert (E2 : Qltb (cr - c0) 0 = true) by (apply Qltb_lt; exact Hd).
    rewrite E1, E2. reflexivity.
  - intros st2 loss_ms t Hl Ht. unfold cooldown_active. rewrite Hl, Ht.
    rewrite Qltb_lt. apply mins_lt.
  - intros st2 [H|H]; unfold cooldown_active; rewrite H;
      [reflexivity | now destruct (last_loss_server_ms st2)].
Qed.

Lemma cooldown_after_loss_witness :
  last_loss_server_ms
    (account_update_one 0
       (run_updates Samples.st_day [(0%Z, [mkPosUpdate "BTCUSDT" (Some 0)])])
       (mkPosUpdate "BTCUSDT" (Some (- (40)))))
  = Some 1762214400000%Z.
Proof.
  apply (proj1 (cooldown_after_loss 0
                  (run_updates Samples.st_day [(0%Z, [mkPosUpdate "BTCUSDT" (Some 0)])])
                  (mkPosUpdate "BTCUSDT" (Some (- (40)))) "BTCUSDT" 0 (- (40))
                  Config2_0 eq_refl eq_refl eq_refl ltac:(reflexivity))).
Defined.

End RiskFacts.

(** ** Targets and pool score *)

Module TargetFacts.

Import Targets Pools NumFacts RoundFacts PriceFacts CandleFacts RiskFacts.

Lemma floor_tick_mono a b tick :
  0 < tick -> a <= b ->
  inject_Z (floor (a / tick)) * tick <= inject_Z (floor (b / tick)) * tick.
Proof.
  intros Ht Hab. apply Qmult_le_compat_r; [|lra].
  rewrite <- Zle_Qle. apply Qfloor_resp_le.
  apply Qmult_le_compat_r; [exact Hab|]. apply Qlt_le_weak, Qinv_lt_0_compat, Ht.
Qed.

Lemma ceil_tick_mono a b tick :
  0 < tick -> a <= b ->
  inject_Z (ceil (a / tick)) * tick <= inject_Z (ceil (b / tick)) * tick.
Proof.
  intros Ht Hab. apply Qmult_le_compat_r; [|lra].
  rewrite <- Zle_Qle. apply Qceiling_resp_le.
  apply Qmult_le_compat_r; [exact Hab|]. apply Qlt_le_weak, Qinv_lt_0_compat, Ht.
Qed.

(** entries round down for a buy and up for a sell, and rounding keeps
    the order of prices *)
Lemma entry_round_mono tick side a b :
  decimal_tick tick -> a <= b ->
  side_round a tick side entry <= side_round b tick side entry.
Proof.
  intros Ht Hab. pose proof (tick_pos _ Ht) as Hp.
  rewrite (side_round_grid a tick side entry Ht),
          (side_round_grid b tick side entry Ht).
  destruct side; [now apply floor_tick_mono | now apply ceil_tick_mono].
Qed.

(** X24: when the nearest pool on the profit side qualifies (it is at
    least [min_rr_to_pool] stop distances from the entry), the partial
    target is that pool rounded to the tick, and whenever a partial
    target is then returned it lies strictly beyond the final target:
    above it for a long, below it for a short. *)
Theorem partial_at_pool_beyond_final entry_px stop side rr pools_up pools_dn cfg tick n p :
  decimal_tick tick ->
  nearest_pool entry_px side pools_up pools_dn = Some n ->
  pool_qualifies cfg entry_px (Qabs (entry_px - stop)) (Some n) = true ->
  snd (choose_tp_aligned_tuned entry_px stop side rr pools_up pools_dn cfg tick) = Some p ->
  p = side_round n tick (match side with long => buy | short => sell end) entry
  /\ match side with
     | long =>
         fst (choose_tp_aligned_tuned entry_px stop side rr pools_up pools_dn cfg tick) < p
     | short =>
         p < fst (choose_tp_aligned_tuned entry_px stop side rr pools_up pools_dn cfg tick)
     end.
Proof.
  intros Ht Hn Hq. pose proof (tick_pos _ Ht) as Hp.
  unfold choose_tp_aligned_tuned. cbv zeta. cbn [fst snd].
  rewrite Hn, Hq. rewrite (pmax_EPS_tick tick (proj1 Ht)).
  destruct side.
  - match goal with |- context [side_round (pmin (pmin ?b n) ?c) tick buy entry] =>
      set (capped := pmin (pmin b n) c);
      assert (Hc : capped <= n)
        by (pose proof (pmin_ub_l (pmin b n) c); pose proof (pmin_ub_r b n);
            subst capped; lra) end.
    pose proof (entry_round_mono tick buy capped n Ht Hc) as Hm.
    destruct (Qltb _ (tick / 2)) eqn:E; [discriminate|].
    intros [= <-]. split; [reflexivity|].
    apply Qltb_ge in E.
    assert (Hh : 0 < tick / 2) by (apply Qlt_shift_div_l; lra).
    rewrite Qabs_pos in E by lra. revert E Hh. generalize (tick / 2). intros; lra.
  - match goal with |- context [side_round (pmax (pmax ?b n) ?c) tick sell entry] =>
      set (capped := pmax (pmax b n) c);
      assert (Hc : n <= capped)
        by (pose proof (pmax_lb_l (pmax b n) c); pose proof (pmax_lb_r b n);
            subst capped; lra) end.
    pose proof (entry_round_mono tick sell n capped Ht Hc) as Hm.
    destruct (Qltb _ (tick / 2)) eqn:E; [discriminate|].
    intros [= <-]. split; [reflexivity|].
    apply Qltb_ge in E.
    assert (Hh : 0 < tick / 2) by (apply Qlt_shift_div_l; lra).
    rewrite Qabs_neg in E by lra. revert E Hh. generalize (tick / 2). intros; lra.
Qed.

Lemma partial_at_pool_beyond_final_witness :
  103 = side_round 103 (1 # 10) buy entry
  /\ fst (choose_tp_aligned_tuned 100 99 long 2 [(103, 1 # 2, "EQH"%string)] []
            Config2_0 (1 # 10)) < 103.
Proof.
  apply (partial_at_pool_beyond_final 100 99 long 2 [(103, 1 # 2, "EQH"%string)] []
           Config2_0 (1 # 10) 103 103).
  - split; vm_compute; reflexivity.
  - reflexivity.
  - reflexivity.
  - vm_compute. reflexivity.
Defined.

Lemma score_fold_bounds (term : Level -> Q) (m : Q) pools :
  (forall t, In t pools -> 0 <= term t /\ term t <= m * lv_weight t) ->
  forall acc accw,
    0 <= acc -> acc <= m * accw ->
    0 <= fold_left (fun s t => s + term t) pools acc
    /\ fold_left (fun s t => s + term t) pools acc
       <= m * fold_left Qplus (map lv_weight pools) accw.
Proof.
  induction pools as [|t pools IH]; intros Ht acc accw H0 H1; cbn [fold_left map].
  - split; assumption.
  - destruct (Ht t (or_introl eq_refl)) as [T0 T1].
    apply IH.
    + intros u Hu. apply Ht. now right.
    + lra.
    + assert (E : m * (accw + lv_weight t) == m * accw + m * lv_weight t) by ring.
      rewrite E. lra.
Qed.

Lemma term_bounds w c h m :
  0 <= w -> 0 <= c -> c <= 1 -> 1 <= m -> h = m \/ h = 1 ->
  0 <= w * c * h /\ w * c * h <= m * w.
Proof.
  intros Hw Hc0 Hc1 Hm Hh.
  assert (H1 : 0 <= w * c) by (apply Qmult_le_0_compat; assumption).
  assert (H2 : w * c <= w).
  { assert (E : w == 1 * w) by ring. rewrite E at 2. rewrite (Qmult_comm w c).
    apply Qmult_le_compat_r; assumption. }
  assert (Hh0 : 0 <= h /\ h <= m) by (destruct Hh as [->| ->]; split; lra).
  destruct Hh0 as [Hh0 Hh1].
  split; [apply Qmult_le_0_compat; assumption|].
  apply Qle_trans with (w * h).
  - apply Qmult_le_compat_r; assumption.
  - rewrite (Qmult_comm m w), (Qmult_comm w h), (Qmult_comm w m).
    apply Qmult_le_compat_r; assumption.
Qed.

(** X25: with weights that are not negative and a higher-timeframe
    multiplier of at least 1, the pool score is never negative and never
    above the multiplier times the sum of the weights; it is 0 for an
    empty list of pools. *)
Theorem pool_scoring_v2_bounded pools ref_price htf_mult prox_win_bps htf_tags :
  Forall (fun t => 0 <= lv_weight t) pools ->
  1 <= htf_mult ->
  0 <= pool_scoring_v2 pools ref_price htf_mult prox_win_bps htf_tags
  /\ pool_scoring_v2 pools ref_price htf_mult prox_win_bps htf_tags
     <= htf_mult * Py.qsum (map lv_weight pools)
  /\ pool_scoring_v2 [] ref_price htf_mult prox_win_bps htf_tags = 0.
Proof.
  intros Hw Hm.
  assert (Hmain :
    0 <= pool_scoring_v2 pools ref_price htf_mult prox_win_bps htf_tags
    /\ pool_scoring_v2 pools ref_price htf_mult prox_win_bps htf_tags
       <= htf_mult * Py.qsum (map lv_weight pools)).
  { unfold pool_scoring_v2. destruct pools as [|t0 r] eqn:Ep.
    - unfold Py.qsum. cbn. split; [lra|]. ring_simplify. lra.
    - rewrite <- Ep in *. clear Ep t0 r. cbv zeta. unfold Py.qsum.
      apply (score_fold_bounds
               (fun t =>
                  lv_weight t
                  * clamp (1 - bps_distance (lv_price t) ref_price
                               / pmax (1 # 1000000) prox_win_bps) 0 1
                  * (if existsb (String.eqb (Str.upper (Str.strip (lv_tag t))))
                                (map (fun t => Str.upper (Str.strip t)) htf_tags)
                     then htf_mult else 1))
               htf_mult pools).
      + intros t Ht. pose proof (proj1 (List.Forall_forall _ _) Hw t Ht) as W.
        cbv beta in W.
        destruct (clamp_range (1 - bps_distance (lv_price t) ref_price
                                   / pmax (1 # 1000000) prox_win_bps) 0 1
                    ltac:(lra)) as [C0 C1].
        apply term_bounds; try assumption.
        destruct (existsb _ _); auto.
      + lra.
      + ring_simplify. lra. }
  destruct Hmain as [H0 H1]. repeat split; assumption.
Qed.

Lemma pool_scoring_v2_bounded_witness :
  0 <= pool_scoring_v2 [(103, 1 # 2, "EQH"%string); (105, 1 # 5, "FIG"%string)]
         100 (5 # 4) 30 ["eqh"%string]
  /\ pool_scoring_v2 [(103, 1 # 2, "EQH"%string); (105, 1 # 5, "FIG"%string)]
        100 (5 # 4) 30 ["eqh"%string]
     <= (5 # 4) * Py.qsum (map lv_weight
                             [(103, 1 # 2, "EQH"%string); (105, 1 # 5, "FIG"%string)]).
Proof.
  destruct (pool_scoring_v2_bounded
              [(103, 1 # 2, "EQH"%string); (105, 1 # 5, "FIG"%string)]
              100 (5 # 4) 30 ["eqh"%string]) as (H0 & H1 & _).
  - repeat constructor; vm_compute; discriminate.
  - vm_compute. discriminate.
  - split; assumption.
Defined.

End TargetFacts.

(** ** Sessions *)

Module SessionFacts.

Import Sessions.

Ltac session_case :=
  repeat match goal with
  | |- context [decide (?X = ∅)] =>
      first [ rewrite (decide_True (P := X = ∅)) by set_solver
            | rewrite (decide_False (P := X = ∅)) by set_solver ]
  | |- context [decide (?x ∈ ?X)] =>
      first [ rewrite (decide_True (P := x ∈ X)) by set_solver
            | rewrite (decide_False (P := x ∈ X)) by set_solver ]
  end.

(** X26: [active_sessions_utc] never returns an empty set: it holds the
    marker "off" exactly when none of the three configured sessions
    contains the minute.  The session bonus of that set is 0 when no
    session is active, [session_active_bonus] when exactly one is, and
    the cross-session bonus on top when two or three overlap. *)
Theorem session_bonus_by_count mins cfg :
  active_sessions_utc mins cfg <> ∅
  /\ ("off"%string ∈ active_sessions_utc mins cfg <-> active_count mins cfg = 0%nat)
  /\ session_soft_bonus (active_sessions_utc mins cfg) cfg
     = match active_count mins cfg with
       | 0%nat => 0
       | 1%nat => session_active_bonus cfg
       | _ => session_active_bonus cfg + cross_session_bonus cfg
       end.
Proof.
  unfold active_sessions_utc, active_count, session_soft_bonus. cbv zeta.
  destruct (in_span mins (asia_session_start cfg) (asia_session_end cfg));
    destruct (in_span mins (fst (session_london_utc cfg)) (snd (session_london_utc cfg)));
    destruct (in_span mins (fst (session_newyork_utc cfg)) (snd (session_newyork_utc cfg)));
    session_case; cbn [Nat.add];
    (split; [set_solver|]);
    (split; [split; [try set_solver | try discriminate; set_solver]|]);
    try reflexivity;
    match goal with |- context [size ?X] =>
      let n := eval vm_compute in (size X) in
      replace (size X) with n by (vm_compute; reflexivity)
    end; reflexivity.
Qed.

End SessionFacts.

(** ** Signal book *)

Module BookFacts.

Import Book ListFacts.

(** sorting by descending value *)
Lemma insert_desc (x : string * Z) l :
  StronglySorted (fun a b => (snd b <= snd a)%Z) l ->
  StronglySorted (fun a b => (snd b <= snd a)%Z)
    (Py.insert_by (fun a b => (snd b <=? snd a)%Z) x l).
Proof.
  induction l as [|y l IH]; cbn; intros Hs.
  - repeat constructor.
  - inversion Hs as [|? ? Hs' Hf]; subst.
    destruct (Z.leb_spec (snd y) (snd x)) as [E|E].
    + constructor; [exact Hs|]. constructor; [exact E|].
      rewrite List.Forall_forall in *. intros z Hz. specialize (Hf z Hz). lia.
    + constructor; [now apply IH|].
      rewrite List.Forall_forall in *. intros z Hz.
      apply insert_by_In in Hz as [->|Hz]; [lia | now apply Hf].
Qed.

Lemma sort_desc l :
  StronglySorted (fun a b : string * Z => (snd b <= snd a)%Z)
    (Py.sort_by (fun a b => (snd b <=? snd a)%Z) l).
Proof.
  unfold Py.sort_by. induction l as [|x l IH]; cbn; [constructor|].
  now apply insert_desc.
Qed.

Lemma sorted_split {A} (R : A -> A -> Prop) n l x y :
  StronglySorted R l -> In x (firstn n l) -> In y (skipn n l) -> R x y.
Proof.
  intros Hs. rewrite <- (firstn_skipn n l) in Hs.
  apply SSorted_app_inv in Hs as (_ & _ & Hc). apply Hc.
Qed.

(** X27: for a limit [keep_latest >= 0], [_trim_dedupe_book] returns the
    book as it is when it has at most that many entries; otherwise it
    keeps exactly [keep_latest] entries of the book, the most recent
    ones: every entry it drops has a minute stamp not above that of any
    entry it keeps. *)
Theorem trim_dedupe_book_latest d keep_latest :
  (0 <= keep_latest)%Z ->
  ((Z.of_nat (length d) <= keep_latest)%Z -> trim_dedupe_book d keep_latest = d)
  /\ length (trim_dedupe_book d keep_latest) = Nat.min (length d) (Z.to_nat keep_latest)
  /\ (forall x, In x (trim_dedupe_book d keep_latest) -> In x d)
  /\ (forall x y,
        In x (trim_dedupe_book d keep_latest) ->
        In y d -> ~ In y (trim_dedupe_book d keep_latest) ->
        (snd y <= snd x)%Z).
Proof.
  intros Hk. unfold trim_dedupe_book.
  destruct (Z.leb_spec (Z.of_nat (length d)) keep_latest) as [Hle|Hgt].
  - split; [reflexivity|]. split; [lia|]. split; [auto|].
    intros x y _ Hy Hn. contradiction.
  - unfold Py.slice_to. destruct (Z.leb_spec 0 keep_latest) as [_|]; [|lia].
    set (s := Py.sort_by (fun a b => (snd b <=? snd a)%Z) d).
    assert (Hlen : length s = length d).
    { subst s. clear. unfold Py.sort_by.
      induction d as [|x l IH]; cbn; [reflexivity|].
      assert (L : forall (y : string * Z) l',
                length (Py.insert_by (fun a b => (snd b <=? snd a)%Z) y l')
                = S (length l')).
      { intros y l'. induction l' as [|z l' IH']; cbn; [reflexivity|].
        destruct (snd z <=? snd y)%Z; cbn; [reflexivity | now rewrite IH']. }
      now rewrite L, IH. }
    split; [lia|]. split; [rewrite length_firstn, Hlen; apply Nat.min_comm|]. split.
    + intros x Hx. apply (sort_by_In (fun a b => (snd b <=? snd a)%Z) d x).
      fold s. rewrite <- (firstn_skipn (Z.to_nat keep_latest) s).
      apply in_or_app. now left.
    + intros x y Hx Hy Hn.
      assert (Hys : In y s) by (apply sort_by_In; exact Hy).
      rewrite <- (firstn_skipn (Z.to_nat keep_latest) s) in Hys.
      apply in_app_or in Hys as [Hys|Hys]; [contradiction|].
      exact (sorted_split _ _ s x y (sort_desc d) Hx Hys).
Qed.

Lemma trim_dedupe_book_latest_witness :
  length (trim_dedupe_book [("a"%string, 5%Z); ("b"%string, 9%Z); ("c"%string, 7%Z)] 2)
  = Nat.min 3 (Z.to_nat 2).
Proof.
  apply (trim_dedupe_book_latest
           [("a"%string, 5%Z); ("b"%string, 9%Z); ("c"%string, 7%Z)] 2).
  lia.
Defined.

End BookFacts.

(** ** Exit hygiene *)

Module HygieneFacts.

Import Hygiene Reconcile Traffic VenueFacts TrafficFacts ReconcileMore.

Lemma flat_map_filter {A B} (c : A -> bool) (g : A -> list B) l :
  flat_map (fun x => if c x then g x else []) l = flat_map g (List.filter c l).
Proof.
  induction l as [|x l IH]; [reflexivity|]. cbn [flat_map List.filter].
  destruct (c x); cbn [flat_map]; now rewrite IH.
Qed.

(** a guarded sweep over the modelled replies: one query, then one
    cancel per selected order that carries an order id *)
Lemma sweep_requests cfg (sel : Order -> bool) (body : Order -> ExM unit) v :
  (forall o w, exists w',
     body o w = (Ok tt, w')
     /\ v_log w' = v_log w ++ (if sel o then cancel_call o else [])) ->
  exists v' calls,
    try_catch (let* oo := open_orders (symbol cfg) in for_each body oo)
              (fun _ => ret tt) v = (Ok tt, v')
    /\ v_log v' = v_log v ++ calls
    /\ ((forall oo v1, open_orders (symbol cfg) v <> (Ok oo, v1)) ->
        calls = [COpenOrders])
    /\ (forall oo v1, open_orders (symbol cfg) v = (Ok oo, v1) ->
        calls = COpenOrders :: flat_map cancel_call (List.filter sel oo)).
Proof.
  intros Hb. unfold try_catch, bind.
  pose proof (read_log COpenOrders
                (fun v => List.filter
                            (fun o => String.eqb (o_symbol o) (symbol cfg) && is_open o)
                            (v_orders v)) v) as L.
  fold (open_orders (symbol cfg)) in L.
  destruct (open_orders (symbol cfg) v) as [[oo|e] v1]; cbn [snd] in L.
  - destruct (for_each_log body (fun o => if sel o then cancel_call o else []) oo Hb v1)
      as (v2 & -> & L2).
    exists v2, (COpenOrders :: flat_map cancel_call (List.filter sel oo)).
    split; [reflexivity|]. split.
    + rewrite L2, L, flat_map_filter, <- app_assoc. reflexivity.
    + split; [intros H; now destruct (H oo v1)|].
      intros oo' v1' [= <- <-]. reflexivity.
  - exists v1, [COpenOrders]. unfold ret.
    split; [reflexivity|]. split; [exact L|].
    split; [reflexivity | intros oo v1' H; discriminate H].
Qed.

(** X28: each of the two exit-hygiene sweeps sends one open-orders
    query.  When the query fails the sweep returns after it, without
    raising and with no cancel sent.  When it is answered, the sweep sends
    one cancel by order id for every listed order it targets that carries
    an order id, whatever the venue answers to the cancels:
    [cancel_all_reduce_only_tps] targets the reduce-only take-profits,
    only those of the given side when one is given;
    [cancel_all_protective_stops] targets the close-position stops, and
    none at all when asked to keep them. *)
Theorem exit_hygiene_requests cfg keep_side keep_close_position v :
  ((forall oo v1, open_orders (symbol cfg) v <> (Ok oo, v1)) ->
   fst (cancel_all_reduce_only_tps cfg keep_side v) = Ok tt
   /\ sends (cancel_all_reduce_only_tps cfg keep_side) v [COpenOrders]
   /\ fst (cancel_all_protective_stops cfg keep_close_position v) = Ok tt
   /\ sends (cancel_all_protective_stops cfg keep_close_position) v [COpenOrders])
  /\ (forall oo v1, open_orders (symbol cfg) v = (Ok oo, v1) ->
      sends (cancel_all_reduce_only_tps cfg keep_side) v
        (COpenOrders :: flat_map cancel_call (tp_targets keep_side oo))
      /\ sends (cancel_all_protective_stops cfg keep_close_position) v
           (COpenOrders
            :: flat_map cancel_call
                 (List.filter (fun o => is_prot o && negb keep_close_position) oo))).
Proof.
  assert (T : exists v' calls,
     cancel_all_reduce_only_tps cfg keep_side v = (Ok tt, v')
     /\ v_log v' = v_log v ++ calls
     /\ ((forall oo v1, open_orders (symbol cfg) v <> (Ok oo, v1)) ->
         calls = [COpenOrders])
     /\ (forall oo v1, open_orders (symbol cfg) v = (Ok oo, v1) ->
         calls = COpenOrders :: flat_map cancel_call (tp_targets keep_side oo))).
  { unfold cancel_all_reduce_only_tps, tp_targets. apply sweep_requests.
    intros o w. destruct (is_tp o); cbn [andb].
    + destruct keep_side as [ks|]; [|apply cancel__spec].
      destruct (String.eqb ks EmptyString); cbn [negb andb orb];
        [apply cancel__spec|].
      destruct (String.eqb (Str.upper (o_side o)) (Str.upper ks)); cbn [negb];
        [apply cancel__spec|].
      exists w. unfold ret. now rewrite app_nil_r.
    + exists w. unfold ret. now rewrite app_nil_r. }
  assert (P : exists v' calls,
        cancel_all_protective_stops cfg keep_close_position v = (Ok tt, v')
        /\ v_log v' = v_log v ++ calls
        /\ ((forall oo v1, open_orders (symbol cfg) v <> (Ok oo, v1)) ->
            calls = [COpenOrders])
        /\ (forall oo v1, open_orders (symbol cfg) v = (Ok oo, v1) ->
            calls = COpenOrders
                    :: flat_map cancel_call
                         (List.filter (fun o => is_prot o && negb keep_close_position) oo))).
  { unfold cancel_all_protective_stops. apply sweep_requests.
    intros o w. destruct (is_prot o); cbn [andb].
    + destruct keep_close_position; cbn [negb]; [|apply cancel__spec].
      exists w. unfold ret. now rewrite app_nil_r.
    + exists w. unfold ret. now rewrite app_nil_r. }
  destruct T as (vt & ct & Et & Lt & Ft & At), P as (vp & cp & Ep & Lp & Fp & Ap).
  unfold sends. rewrite Et, Ep. cbn [fst snd]. split.
  - intros H. rewrite Lt, Lp, (Ft H), (Fp H). auto.
  - intros oo v1 H. rewrite Lt, Lp, (At oo v1 H), (Ap oo v1 H). auto.
Qed.

End HygieneFacts.

(** ** Market structure and clock drift *)

Module StructureFacts.

Import Structure Drift NumFacts ListFacts LevelFacts.

Lemma range_down_S a b :
  (b <= a)%nat -> Py.range_down (S a) b = S a :: Py.range_down a b.
Proof.
  intros H. unfold Py.range_down.
  replace (S a - b)%nat with (S (a - b)) by lia.
  rewrite seq_S, rev_app_distr. cbn [rev app]. f_equal. f_equal. lia.
Qed.

Lemma range_down_empty a b : (a <= b)%nat -> Py.range_down a b = [].
Proof.
  intros H. unfold Py.range_down. now replace (a - b)%nat with 0%nat by lia.
Qed.

(** a downward scan answers with the highest index that passes the test *)
Lemma first_down (test : nat -> bool) (val : nat -> Q) b h : forall a,
  Py.first_some (fun j => if test j then Some (val j) else None) (Py.range_down a b)
  = Some h ->
  exists j, (b < j <= a)%nat /\ test j = true /\ h = val j
            /\ forall j', (j < j' <= a)%nat -> test j' = false.
Proof.
  induction a as [|a IH]; intros H.
  - rewrite range_down_empty in H by lia. discriminate H.
  - destruct (Nat.le_gt_cases b a) as [Hba|Hba].
    + rewrite (range_down_S a b Hba) in H. cbn [Py.first_some] in H.
      destruct (test (S a)) eqn:Et.
      * injection H as <-. exists (S a). repeat split; try lia; auto.
      * destruct (IH H) as (j & Hj & Htj & Hv & Hlater).
        exists j. repeat split; try lia; auto.
        intros j' Hj'. destruct (Nat.eq_dec j' (S a)) as [->|Hne]; [exact Et|].
        apply Hlater. lia.
    + rewrite range_down_empty in H by lia. discriminate H.
Qed.

Lemma pivot_high_at_true H w j :
  pivot_high_at H w j = true ->
  (forall x, In x (slice H (j - w) j) -> x < at_ H j)
  /\ (forall x, In x (slice H (j + 1) (j + w + 1)) -> x <= at_ H j).
Proof.
  unfold pivot_high_at.
  destruct (Py.qmax_list (slice H (j - w) j)) as [ml|] eqn:El; [|discriminate].
  destruct (Py.qmax_list (slice H (j + 1) (j + w + 1))) as [mr|] eqn:Er; [|discriminate].
  intros Hb. apply andb_true_iff in Hb as [H1 H2].
  apply Qltb_lt in H1. apply Qle_bool_iff in H2.
  apply qmax_list_spec in El as [_ El]. apply qmax_list_spec in Er as [_ Er].
  split; intros x Hx; [specialize (El x Hx) | specialize (Er x Hx)]; lra.
Qed.

Lemma pivot_low_at_true L w j :
  pivot_low_at L w j = true ->
  (forall x, In x (slice L (j - w) j) -> at_ L j < x)
  /\ (forall x, In x (slice L (j + 1) (j + w + 1)) -> at_ L j <= x).
Proof.
  unfold pivot_low_at.
  destruct (Py.qmin_list (slice L (j - w) j)) as [ml|] eqn:El; [|discriminate].
  destruct (Py.qmin_list (slice L (j + 1) (j + w + 1))) as [mr|] eqn:Er; [|discriminate].
  intros Hb. apply andb_true_iff in Hb as [H1 H2].
  apply Qltb_lt in H1. apply Qle_bool_iff in H2.
  apply qmin_list_spec in El as [_ El]. apply qmin_list_spec in Er as [_ Er].
  split; intros x Hx; [specialize (El x Hx) | specialize (Er x Hx)]; lra.
Qed.

(** X29: [last_pivot_high_low] answers nothing on a frame shorter than
    [2 * window + 1] rows.  A pivot high it reports is the high of a
    bar [j] with [window] bars on either side, strictly above the
    [window] highs before it and not below the [window] highs after it,
    and [j] is the most recent such bar: no later bar passes the test.
    The pivot low is the mirror image on the lows. *)
Theorem last_pivot_high_low_spec df window :
  (1 <= window)%nat ->
  ((length df < 2 * window + 1)%nat -> last_pivot_high_low df window = (None, None))
  /\ (forall h, fst (last_pivot_high_low df window) = Some h ->
        exists j, (window <= j <= length df - window - 1)%nat
          /\ h = at_ (highs df) j
          /\ (forall x, In x (slice (highs df) (j - window) j) -> x < h)
          /\ (forall x, In x (slice (highs df) (j + 1) (j + window + 1)) -> x <= h)
          /\ (forall j', (j < j' <= length df - window - 1)%nat ->
                pivot_high_at (highs df) window j' = false))
  /\ (forall l, snd (last_pivot_high_low df window) = Some l ->
        exists j, (window <= j <= length df - window - 1)%nat
          /\ l = at_ (lows df) j
          /\ (forall x, In x (slice (lows df) (j - window) j) -> l < x)
          /\ (forall x, In x (slice (lows df) (j + 1) (j + window + 1)) -> l <= x)
          /\ (forall j', (j < j' <= length df - window - 1)%nat ->
                pivot_low_at (lows df) window j' = false)).
Proof.
  intros Hw. unfold last_pivot_high_low. split; [|split].
  - intros H. destruct (Nat.ltb_spec (length df) (2 * window + 1)); [reflexivity | lia].
  - intros h. destruct (length df <? 2 * window + 1)%nat; [discriminate|].
    cbv zeta. cbn [fst]. intros H.
    destruct (first_down _ _ _ _ _ H) as (j & Hj & Ht & -> & Hlater).
    destruct (pivot_high_at_true _ _ _ Ht) as [P1 P2].
    exists j. repeat split; try lia; auto.
  - intros l. destruct (length df <? 2 * window + 1)%nat; [discriminate|].
    cbv zeta. cbn [snd]. intros H.
    destruct (first_down _ _ _ _ _ H) as (j & Hj & Ht & -> & Hlater).
    destruct (pivot_low_at_true _ _ _ Ht) as [P1 P2].
    exists j. repeat split; try lia; auto.
Qed.

Lemma last_pivot_high_low_spec_witness :
  exists j, (4 <= j <= length Samples.kl_levels - 4 - 1)%nat
    /\ 105 = at_ (highs Samples.kl_levels) j
    /\ (forall x, In x (slice (highs Samples.kl_levels) (j - 4) j) -> x < 105)
    /\ (forall x, In x (slice (highs Samples.kl_levels) (j + 1) (j + 4 + 1)) -> x <= 105)
    /\ (forall j', (j < j' <= length Samples.kl_levels - 4 - 1)%nat ->
          pivot_high_at (highs Samples.kl_levels) 4 j' = false).
Proof.
  apply (proj1 (proj2 (last_pivot_high_low_spec Samples.kl_levels 4 ltac:(lia)))).
  vm_compute. reflexivity.
Defined.

(** X30: the drift measured from three samples is their median; when
    only two samples succeed it is the larger of the two, with one
    sample that sample, and 0 when all three requests fail. *)
Theorem measure_drift_median3_spec a b c :
  measure_drift_median3 (Some a) (Some b) (Some c)
  = Z.max (Z.min a b) (Z.min (Z.max a b) c)
  /\ measure_drift_median3 (Some a) (Some b) None = Z.max a b
  /\ measure_drift_median3 (Some a) None (Some b) = Z.max a b
  /\ measure_drift_median3 None (Some a) (Some b) = Z.max a b
  /\ measure_drift_median3 (Some a) None None = a
  /\ measure_drift_median3 None (Some a) None = a
  /\ measure_drift_median3 None None (Some a) = a
  /\ measure_drift_median3 None None None = 0%Z.
Proof.
  unfold measure_drift_median3, Py.sort_by. cbn.
  repeat split;
    repeat match goal with
    | |- context [(?x <=? ?y)%Z] => destruct (Z.leb_spec x y); cbn
    end; lia.
Qed.

End StructureFacts.
